(** * Chess.py: the rule engine of the Tk chess board

    A shallow embedding of [Board] (src/Chess.py): the dictionary of the 64
    buttons and the image each one shows, the two-click handler
    [select_piece], the pattern engine [allowed_piece_move] with its
    path scan [clear_path], the check detector [in_check], the promotion
    dialog, the random mover, and the background colours that
    [set_squares], [change_theme] and [clear_highlights] give the
    buttons.

    Conventions.
    - A square name such as "e2" is the pair [(4, 2)]: the index of its
      letter in [self.ranks] (what [self.ranks.find(name[0])] returns) and
      the number [int(name[1])].
    - A [tk.Button] is identified with the name of the square it was
      created for ([set_squares] builds exactly one per name and the
      dictionary is never changed afterwards), so [sq1_button] is a square
      and [button.image] is a read of the board at that square.
    - The thirteen [PhotoImage] objects that can sit on a button are the
      values of [image]; Python compares them by identity.
    - The background colour of a button is kept apart from the state of
      the game, as a map from squares to colour names: no handler reads
      it.
    - A Python exception ([KeyError] for a name outside the dictionary,
      [TypeError] for subscripting [None], [AttributeError] for a field
      that was never assigned) is an explicit outcome; the handler that
      raised leaves the state as it was when the exception left it. *)

From Stdlib Require Import ZArith List Bool Lia String.
Import ListNotations.
Open Scope Z_scope.

(** ** Pieces and images *)

Inductive color : Type := White | Black.

Inductive kind : Type := King | Queen | Rook | Bishop | Knight | Pawn.

(** [Blank] is [white_images["blank.png"]]; [Img c k] is the entry of
    [white_piece_refs] or [black_piece_refs] for the letter of [k]. *)
Inductive image : Type :=
| Blank
| Img (c : color) (k : kind).

Definition color_eqb (a b : color) : bool :=
  match a, b with
  | White, White | Black, Black => true
  | _, _ => false
  end.

Definition kind_eqb (a b : kind) : bool :=
  match a, b with
  | King, King | Queen, Queen | Rook, Rook
  | Bishop, Bishop | Knight, Knight | Pawn, Pawn => true
  | _, _ => false
  end.

Definition image_eqb (a b : image) : bool :=
  match a, b with
  | Blank, Blank => true
  | Img c k, Img c' k' => color_eqb c c' && kind_eqb k k'
  | _, _ => false
  end.

Definition opposite (c : color) : color :=
  match c with White => Black | Black => White end.

(** [img in self.white_pieces], [img in self.black_pieces]. *)
Definition in_pieces (c : color) (i : image) : bool :=
  match i with
  | Blank => false
  | Img c' _ => color_eqb c c'
  end.

Definition white_pieces : image -> bool := in_pieces White.
Definition black_pieces : image -> bool := in_pieces Black.

(** ** Squares and the dictionary of buttons *)

Definition square : Type := (Z * Z)%type.

Definition file (q : square) : Z := fst q.
Definition rank (q : square) : Z := snd q.

Definition sq_eqb (a b : square) : bool :=
  (file a =? file b) && (rank a =? rank b).

(** The keys of [self.squares]. *)
Definition on_board (q : square) : bool :=
  (0 <=? file q) && (file q <=? 7) && (1 <=? rank q) && (rank q <=? 8).

(** Python's [range(a, b)] and [range(a, b, -1)]. *)
Definition range (a b : Z) : list Z :=
  map (fun i => a + Z.of_nat i) (seq 0 (Z.to_nat (b - a))).

Definition range_down (a b : Z) : list Z :=
  map (fun i => a - Z.of_nat i) (seq 0 (Z.to_nat (a - b))).

(** The keys in insertion order, as [set_squares] creates them:
    [for x in range(8): for y in range(8): pos = ranks[y] + str(x+1)]. *)
Definition all_squares : list square :=
  flat_map (fun x => map (fun y => (y, x + 1)) (range 0 8)) (range 0 8).

(** The image on every button. *)
Definition board : Type := square -> image.

Definition upd (sqs : board) (q : square) (i : image) : board :=
  fun q' => if sq_eqb q' q then i else sqs q'.

(** [self.squares[name].image]: a name that is not a key raises. *)
Definition lookup (sqs : board) (q : square) : option image :=
  if on_board q then Some (sqs q) else None.

(** ** Control flow of a Python body

    [Return r] is a [return], [Next] falls through to the following
    statement and [Raise] is an uncaught exception. *)

Inductive flow (R : Type) : Type :=
| Return (r : R)
| Next
| Raise.

Arguments Return {R} r.
Arguments Next {R}.
Arguments Raise {R}.

Notation "s1 ;;; s2" :=
  (match s1 with
   | Next => s2
   | Return r => Return r
   | Raise => Raise
   end) (at level 100, right associativity).

(** Reading a field that may be unassigned or [None] and then used. *)
Notation "'get' x ':=' o 'in' k" :=
  (match o with
   | Some x => k
   | None => Raise
   end) (at level 10, x name, o at level 10, k at level 200).

(** Calling a method that returns a value or raises. *)
Notation "'call' x ':=' f 'in' k" :=
  (match f with
   | Return x => k
   | _ => Raise
   end) (at level 10, x name, f at level 10, k at level 200).

(** ** The state of a [Board] object *)

Record Board : Type := mkBoard {
  squares : board;
  buttons_pressed : Z;
  turns : Z;
  wk_moved : bool;
  bk_moved : bool;
  wr1_moved : bool;
  wr2_moved : bool;
  br1_moved : bool;
  br2_moved : bool;
  castled : bool;
  move_history : list (square * square * string);
  highlighted_squares : list square;
  piece_color : option color;
  sq1 : option square;
  sq1_button : option square;
  sq2 : option square;
  sq2_button : option square;
  (** the promotion dialogs that are open, with the [color] each was
      created for ([None]: the dialog has no button) *)
  promos : list (option color)
}.

Definition set_images (v : board) (b : Board) : Board :=
  mkBoard v (buttons_pressed b) (turns b) (wk_moved b) (bk_moved b)
    (wr1_moved b) (wr2_moved b) (br1_moved b) (br2_moved b) (castled b)
    (move_history b) (highlighted_squares b) (piece_color b)
    (sq1 b) (sq1_button b) (sq2 b) (sq2_button b) (promos b).

Definition set_buttons_pressed (v : Z) (b : Board) : Board :=
  mkBoard (squares b) v (turns b) (wk_moved b) (bk_moved b)
    (wr1_moved b) (wr2_moved b) (br1_moved b) (br2_moved b) (castled b)
    (move_history b) (highlighted_squares b) (piece_color b)
    (sq1 b) (sq1_button b) (sq2 b) (sq2_button b) (promos b).

Definition set_turns (v : Z) (b : Board) : Board :=
  mkBoard (squares b) (buttons_pressed b) v (wk_moved b) (bk_moved b)
    (wr1_moved b) (wr2_moved b) (br1_moved b) (br2_moved b) (castled b)
    (move_history b) (highlighted_squares b) (piece_color b)
    (sq1 b) (sq1_button b) (sq2 b) (sq2_button b) (promos b).

Definition set_wk_moved (v : bool) (b : Board) : Board :=
  mkBoard (squares b) (buttons_pressed b) (turns b) v (bk_moved b)
    (wr1_moved b) (wr2_moved b) (br1_moved b) (br2_moved b) (castled b)
    (move_history b) (highlighted_squares b) (piece_color b)
    (sq1 b) (sq1_button b) (sq2 b) (sq2_button b) (promos b).

Definition set_bk_moved (v : bool) (b : Board) : Board :=
  mkBoard (squares b) (buttons_pressed b) (turns b) (wk_moved b) v
    (wr1_moved b) (wr2_moved b) (br1_moved b) (br2_moved b) (castled b)
    (move_history b) (highlighted_squares b) (piece_color b)
    (sq1 b) (sq1_button b) (sq2 b) (sq2_button b) (promos b).

Definition set_wr1_moved (v : bool) (b : Board) : Board :=
  mkBoard (squares b) (buttons_pressed b) (turns b) (wk_moved b) (bk_moved b)
    v (wr2_moved b) (br1_moved b) (br2_moved b) (castled b)
    (move_history b) (highlighted_squares b) (piece_color b)
    (sq1 b) (sq1_button b) (sq2 b) (sq2_button b) (promos b).

Definition set_wr2_moved (v : bool) (b : Board) : Board :=
  mkBoard (squares b) (buttons_pressed b) (turns b) (wk_moved b) (bk_moved b)
    (wr1_moved b) v (br1_moved b) (br2_moved b) (castled b)
    (move_history b) (highlighted_squares b) (piece_color b)
    (sq1 b) (sq1_button b) (sq2 b) (sq2_button b) (promos b).

Definition set_br1_moved (v : bool) (b : Board) : Board :=
  mkBoard (squares b) (buttons_pressed b) (turns b) (wk_moved b) (bk_moved b)
    (wr1_moved b) (wr2_moved b) v (br2_moved b) (castled b)
    (move_history b) (highlighted_squares b) (piece_color b)
    (sq1 b) (sq1_button b) (sq2 b) (sq2_button b) (promos b).

Definition set_br2_moved (v : bool) (b : Board) : Board :=
  mkBoard (squares b) (buttons_pressed b) (turns b) (wk_moved b) (bk_moved b)
    (wr1_moved b) (wr2_moved b) (br1_moved b) v (castled b)
    (move_history b) (highlighted_squares b) (piece_color b)
    (sq1 b) (sq1_button b) (sq2 b) (sq2_button b) (promos b).

Definition set_castled (v : bool) (b : Board) : Board :=
  mkBoard (squares b) (buttons_pressed b) (turns b) (wk_moved b) (bk_moved b)
    (wr1_moved b) (wr2_moved b) (br1_moved b) (br2_moved b) v
    (move_history b) (highlighted_squares b) (piece_color b)
    (sq1 b) (sq1_button b) (sq2 b) (sq2_button b) (promos b).

Definition set_move_history (v : list (square * square * string))
    (b : Board) : Board :=
  mkBoard (squares b) (buttons_pressed b) (turns b) (wk_moved b) (bk_moved b)
    (wr1_moved b) (wr2_moved b) (br1_moved b) (br2_moved b) (castled b)
    v (highlighted_squares b) (piece_color b)
    (sq1 b) (sq1_button b) (sq2 b) (sq2_button b) (promos b).

Definition set_highlighted_squares (v : list square) (b : Board) : Board :=
  mkBoard (squares b) (buttons_pressed b) (turns b) (wk_moved b) (bk_moved b)
    (wr1_moved b) (wr2_moved b) (br1_moved b) (br2_moved b) (castled b)
    (move_history b) v (piece_color b)
    (sq1 b) (sq1_button b) (sq2 b) (sq2_button b) (promos b).

Definition set_piece_color (v : option color) (b : Board) : Board :=
  mkBoard (squares b) (buttons_pressed b) (turns b) (wk_moved b) (bk_moved b)
    (wr1_moved b) (wr2_moved b) (br1_moved b) (br2_moved b) (castled b)
    (move_history b) (highlighted_squares b) v
    (sq1 b) (sq1_button b) (sq2 b) (sq2_button b) (promos b).

Definition set_sq1 (v : option square) (b : Board) : Board :=
  mkBoard (squares b) (buttons_pressed b) (turns b) (wk_moved b) (bk_moved b)
    (wr1_moved b) (wr2_moved b) (br1_moved b) (br2_moved b) (castled b)
    (move_history b) (highlighted_squares b) (piece_color b)
    v (sq1_button b) (sq2 b) (sq2_button b) (promos b).

Definition set_sq1_button (v : option square) (b : Board) : Board :=
  mkBoard (squares b) (buttons_pressed b) (turns b) (wk_moved b) (bk_moved b)
    (wr1_moved b) (wr2_moved b) (br1_moved b) (br2_moved b) (castled b)
    (move_history b) (highlighted_squares b) (piece_color b)
    (sq1 b) v (sq2 b) (sq2_button b) (promos b).

Definition set_sq2 (v : option square) (b : Board) : Board :=
  mkBoard (squares b) (buttons_pressed b) (turns b) (wk_moved b) (bk_moved b)
    (wr1_moved b) (wr2_moved b) (br1_moved b) (br2_moved b) (castled b)
    (move_history b) (highlighted_squares b) (piece_color b)
    (sq1 b) (sq1_button b) v (sq2_button b) (promos b).

Definition set_sq2_button (v : option square) (b : Board) : Board :=
  mkBoard (squares b) (buttons_pressed b) (turns b) (wk_moved b) (bk_moved b)
    (wr1_moved b) (wr2_moved b) (br1_moved b) (br2_moved b) (castled b)
    (move_history b) (highlighted_squares b) (piece_color b)
    (sq1 b) (sq1_button b) (sq2 b) v (promos b).

Definition set_promos (v : list (option color)) (b : Board) : Board :=
  mkBoard (squares b) (buttons_pressed b) (turns b) (wk_moved b) (bk_moved b)
    (wr1_moved b) (wr2_moved b) (br1_moved b) (br2_moved b) (castled b)
    (move_history b) (highlighted_squares b) (piece_color b)
    (sq1 b) (sq1_button b) (sq2 b) (sq2_button b) v.

(** [self.squares[name].image = img] *)
Definition put_image (q : square) (i : image) (b : Board) : Board :=
  set_images (upd (squares b) q i) b.

(** ** friendly_fire *)

Definition friendly_fire (b : Board) : flow bool :=
  get b2 := sq2_button b in
  let piece_2_color := squares b b2 in
  (if match piece_color b with Some White => true | _ => false end
      && white_pieces piece_2_color
   then Return true else Next) ;;;
  (if match piece_color b with Some Black => true | _ => false end
      && black_pieces piece_2_color
   then Return true else Next) ;;;
  Return false.

(** ** clear_path *)

(** [for i in ...: square_on_path = self.squares[key].image;
     if square_on_path != self.blank_image: return False] *)
Fixpoint straight_loop (sqs : board) (keys : list square) : flow bool :=
  match keys with
  | [] => Next
  | key :: rest =>
      match lookup sqs key with
      | None => Raise
      | Some square_on_path =>
          if negb (image_eqb square_on_path Blank) then Return false
          else straight_loop sqs rest
      end
  end.

(** [for x in xs: y1 += dy; square_on_path = self.squares[ranks[x]+str(y1)].image;
     if square_on_path != self.blank_image: return False] *)
Fixpoint diag_loop (sqs : board) (xs : list Z) (y1 dy : Z) : flow bool :=
  match xs with
  | [] => Next
  | x :: rest =>
      let y1 := y1 + dy in
      match lookup sqs (x, y1) with
      | None => Raise
      | Some square_on_path =>
          if negb (image_eqb square_on_path Blank) then Return false
          else diag_loop sqs rest y1 dy
      end
  end.

(** [piece] is one of "rook", "queen", "bishop". *)
Definition clear_path (b : Board) (piece : kind) : flow bool :=
  (if kind_eqb piece Rook || kind_eqb piece Queen then
     get s1 := sq1 b in
     get s2 := sq2 b in
     if file s1 =? file s2 then
       let pos1 := Z.min (rank s1) (rank s2) in
       let pos2 := Z.max (rank s1) (rank s2) in
       straight_loop (squares b)
         (map (fun i => (file s1, i)) (range (pos1 + 1) pos2))
     else if rank s1 =? rank s2 then
       let pos1 := Z.min (file s1) (file s2) in
       let pos2 := Z.max (file s1) (file s2) in
       straight_loop (squares b)
         (map (fun i => (i, rank s1)) (range (pos1 + 1) pos2))
     else Next
   else Next) ;;;
  (if kind_eqb piece Bishop || kind_eqb piece Queen then
     get s1 := sq1 b in
     get s2 := sq2 b in
     let x1 := file s1 in
     let x2 := file s2 in
     let y1 := rank s1 in
     let y2 := rank s2 in
     if y1 <? y2 then
       if x1 <? x2 then diag_loop (squares b) (range (x1 + 1) x2) y1 1
       else if x1 >? x2 then
         diag_loop (squares b) (range_down (x1 - 1) x2) y1 1
       else Next
     else if y1 >? y2 then
       (if x1 <? x2 then diag_loop (squares b) (range (x1 + 1) x2) y1 (-1)
        else Next) ;;;
       (if x1 >? x2 then
          diag_loop (squares b) (range_down (x1 - 1) x2) y1 (-1)
        else Next)
     else Next
   else Next) ;;;
  Return true.

(** ** castle *)

Definition castle (b : Board) : bool := false.

(** ** allowed_piece_move *)

Definition allowed_piece_move (b : Board) : flow bool :=
  let wb := Img White Bishop in
  let wk := Img White King in
  let wn := Img White Knight in
  let wp := Img White Pawn in
  let wq := Img White Queen in
  let wr := Img White Rook in
  let bb := Img Black Bishop in
  let bk := Img Black King in
  let bn := Img Black Knight in
  let bp := Img Black Pawn in
  let bq := Img Black Queen in
  let br := Img Black Rook in
  let blank := Blank in
  get b1 := sq1_button b in
  let image1 := squares b b1 in
  (if image_eqb image1 blank then Return false else Next) ;;;
  (* Bishop *)
  (if image_eqb image1 wb || image_eqb image1 bb then
     call cp := clear_path b Bishop in
     if cp then
       get s1 := sq1 b in
       get s2 := sq2 b in
       if Z.abs (rank s1 - rank s2) =? Z.abs (file s1 - file s2)
       then Return true else Next
     else Next
   else Next) ;;;
  (* Knight *)
  (if image_eqb image1 wn || image_eqb image1 bn then
     get s1 := sq1 b in
     get s2 := sq2 b in
     if ((Z.abs (rank s1 - rank s2) =? 2)
         && (Z.abs (file s1 - file s2) =? 1))
        || ((Z.abs (rank s1 - rank s2) =? 1)
            && (Z.abs (file s1 - file s2) =? 2))
     then Return true else Next
   else Next) ;;;
  (* King *)
  (if image_eqb image1 wk || image_eqb image1 bk then
     get s1 := sq1 b in
     get s2 := sq2 b in
     (if (Z.abs (rank s1 - rank s2) <? 2)
         && (Z.abs (file s1 - file s2) <? 2)
      then Return true else Next) ;;;
     (if castle b then Return true else Next)
   else Next) ;;;
  (* White Pawn *)
  (if image_eqb image1 wp then
     get s1 := sq1 b in
     (if rank s1 =? 2 then
        get s2 := sq2 b in
        if ((rank s2 =? 3) || (rank s2 =? 4)) && (file s1 =? file s2) then
          get b2 := sq2_button b in
          if image_eqb (squares b b2) blank then
            if rank s2 =? 4 then
              get in_front := lookup (squares b) (file s1, 3) in
              if image_eqb in_front blank then Return true else Next
            else Return true
          else Next
        else Next
      else Next) ;;;
     (get s2 := sq2 b in
      (if (rank s2 =? rank s1 + 1) && (file s1 =? file s2) then
         get b2 := sq2_button b in
         if image_eqb (squares b b2) blank then Return true else Next
       else Next) ;;;
      (if (rank s2 =? rank s1 + 1)
          && (Z.abs (file s1 - file s2) =? 1) then
         get b2 := sq2_button b in
         if black_pieces (squares b b2) then Return true else Next
       else Next))
   else Next) ;;;
  (* Black Pawn *)
  (if image_eqb image1 bp then
     get s1 := sq1 b in
     (if rank s1 =? 7 then
        get s2 := sq2 b in
        if ((rank s2 =? 6) || (rank s2 =? 5)) && (file s1 =? file s2) then
          get b2 := sq2_button b in
          if image_eqb (squares b b2) blank then
            if rank s2 =? 5 then
              get in_front := lookup (squares b) (file s1, 6) in
              if image_eqb in_front blank then Return true else Next
            else Return true
          else Next
        else Next
      else Next) ;;;
     (get s2 := sq2 b in
      (if (rank s2 =? rank s1 - 1) && (file s1 =? file s2) then
         get b2 := sq2_button b in
         if image_eqb (squares b b2) blank then Return true else Next
       else Next) ;;;
      (if (rank s2 =? rank s1 - 1)
          && (Z.abs (file s1 - file s2) =? 1) then
         get b2 := sq2_button b in
         if white_pieces (squares b b2) then Return true else Next
       else Next))
   else Next) ;;;
  (* Queen *)
  (if image_eqb image1 wq || image_eqb image1 bq then
     call cp := clear_path b Queen in
     if cp then
       get s1 := sq1 b in
       get s2 := sq2 b in
       (if (rank s1 =? rank s2) || (file s1 =? file s2)
        then Return true else Next) ;;;
       (if Z.abs (rank s1 - rank s2) =? Z.abs (file s1 - file s2)
        then Return true else Next)
     else Next
   else Next) ;;;
  (* Rook *)
  (if image_eqb image1 wr || image_eqb image1 br then
     get s1 := sq1 b in
     get s2 := sq2 b in
     if (rank s1 =? rank s2) || (file s1 =? file s2) then
       call cp := clear_path b Rook in
       if cp then Return true else Next
     else Next
   else Next) ;;;
  Return false.

(** [self.allowed_piece_move() and not self.friendly_fire()] *)
Definition allowed_and_not_friendly (b : Board) : flow bool :=
  call allowed := allowed_piece_move b in
  if allowed then
    call ff := friendly_fire b in
    Return (negb ff)
  else Return false.

(** The pattern engine as a function of a position and two squares: the
    fields [allowed_piece_move] reads are set to the two squares and their
    buttons. *)
Definition probe (sqs : board) (from to : square) : Board :=
  mkBoard sqs 0 0 false false false false false false false [] [] None
    (Some from) (Some from) (Some to) (Some to) [].

Definition isPseudoLegal (sqs : board) (from to : square) : flow bool :=
  allowed_piece_move (probe sqs from to).

(** ** Handlers

    A handler runs on the state and either returns or raises; in both
    cases the assignments it has made stay. *)

Inductive res (A : Type) : Type :=
| Done (a : A) (b : Board)
| Raised (b : Board).

Arguments Done {A} a b.
Arguments Raised {A} b.

Definition state_of {A : Type} (r : res A) : Board :=
  match r with
  | Done _ b => b
  | Raised b => b
  end.

(** ** find_king *)

Fixpoint find_first (sqs : board) (img : image) (keys : list square)
    : option square :=
  match keys with
  | [] => None
  | sq :: rest =>
      if image_eqb (sqs sq) img then Some sq else find_first sqs img rest
  end.

(** Returns [None] when no button shows [king_img]. *)
Definition find_king (b : Board) (king_img : image) : option square :=
  find_first (squares b) king_img all_squares.

(** ** in_check *)

(** [for key in self.squares: self.sq1 = key; self.sq1_button = ...;
     if self.sq1_button.image in pieces: if self.allowed_piece_move():
     return True] *)
Fixpoint in_check_loop (pieces : image -> bool) (keys : list square)
    (b : Board) : res (option bool) :=
  match keys with
  | [] => Done None b
  | key :: rest =>
      let b := set_sq1 (Some key) b in
      let b := set_sq1_button (Some key) b in
      if pieces (squares b key) then
        match allowed_piece_move b with
        | Return true => Done (Some true) b
        | Return false => in_check_loop pieces rest b
        | _ => Raised b
        end
      else in_check_loop pieces rest b
  end.

Definition in_check (b : Board) : res bool :=
  let previous_sq1 := sq1 b in
  let previous_sq1_button := sq1_button b in
  let previous_sq2 := sq2 b in
  let previous_sq2_button := sq2_button b in
  let return_previous_values (b : Board) : Board :=
    set_sq2_button previous_sq2_button
      (set_sq2 previous_sq2
         (set_sq1_button previous_sq1_button (set_sq1 previous_sq1 b))) in
  let white_part :=
    match piece_color b with
    | Some White =>
        let king_img := Img White King in
        let b := set_sq2 (find_king b king_img) b in
        in_check_loop black_pieces all_squares b
    | _ => Done None b
    end in
  match white_part with
  | Raised b => Raised b
  | Done (Some r) b => Done r b
  | Done None b =>
      let black_part :=
        match piece_color b with
        | Some Black =>
            let king_img := Img Black King in
            let b := set_sq2 (find_king b king_img) b in
            in_check_loop white_pieces all_squares b
        | _ => Done None b
        end in
      match black_part with
      | Raised b => Raised b
      | Done (Some r) b => Done r b
      | Done None b => Done false (return_previous_values b)
      end
  end.

(** ** clear_highlights, highlight_legal_moves *)

Definition clear_highlights (b : Board) : Board :=
  set_highlighted_squares [] b.

Fixpoint highlight_loop (keys : list square) (b : Board) : res unit :=
  match keys with
  | [] => Done tt b
  | sq :: rest =>
      let b := set_sq2 (Some sq) b in
      let b := set_sq2_button (Some sq) b in
      match allowed_and_not_friendly b with
      | Return true =>
          highlight_loop rest
            (set_highlighted_squares (highlighted_squares b ++ [sq]) b)
      | Return false => highlight_loop rest b
      | _ => Raised b
      end
  end.

Definition highlight_legal_moves (b : Board) : res unit :=
  let b := clear_highlights b in
  match sq1_button b with
  | None => Raised b
  | Some btn =>
      let b := set_sq1 (Some btn) b in
      highlight_loop all_squares b
  end.

(** The loop of [select_piece] that collects [possible_moves] for the
    window title. *)
Fixpoint possible_moves_loop (keys : list square)
    (possible_moves : list square) (b : Board) : res (list square) :=
  match keys with
  | [] => Done possible_moves b
  | sq :: rest =>
      let b := set_sq2 (Some sq) b in
      let b := set_sq2_button (Some sq) b in
      match allowed_and_not_friendly b with
      | Return true => possible_moves_loop rest (possible_moves ++ [sq]) b
      | Return false => possible_moves_loop rest possible_moves b
      | _ => Raised b
      end
  end.

(** ** get_piece_name *)

Definition letter (k : kind) : string :=
  match k with
  | King => "K" | Queen => "Q" | Rook => "R"
  | Bishop => "B" | Knight => "N" | Pawn => "P"
  end.

Definition get_piece_name (img : image) : string :=
  match img with
  | Img White k => "White " ++ letter k
  | Img Black k => "Black " ++ letter k
  | Blank => "Unknown"
  end.

(** ** promotion_menu

    [tk.Toplevel] opens a window next to the board; nothing waits for it
    and nothing is recorded on the board object.  The window is kept in
    [promos] with the [color] its buttons were built for. *)
Definition promotion_menu (color : option color) (b : Board) : Board :=
  set_promos (promos b ++ [color]) b.

(** The four buttons of a dialog. *)
Inductive choice : Type := Knight_ | Bishop_ | Rook_ | Queen_.

Definition choice_kind (k : choice) : kind :=
  match k with
  | Knight_ => Knight
  | Bishop_ => Bishop
  | Rook_ => Rook
  | Queen_ => Queen
  end.

Fixpoint remove_nth {A : Type} (i : nat) (l : list A) : list A :=
  match l, i with
  | [], _ => []
  | _ :: rest, O => rest
  | x :: rest, S i' => x :: remove_nth i' rest
  end.

(** [return_piece(piece_img)] of the [i]-th open dialog, for the button
    [k]: it writes at whatever [self.sq2] is when the button is pressed
    and destroys the dialog. *)
Definition return_piece (i : nat) (k : choice) (b : Board) : res unit :=
  match nth_error (promos b) i with
  | Some (Some c) =>
      match sq2 b with
      | None => Raised b
      | Some s2 =>
          let piece_img := Img c (choice_kind k) in
          let b := put_image s2 piece_img b in
          Done tt (set_promos (remove_nth i (promos b)) b)
      end
  | _ => Done tt b
  end.

(** ** select_piece

    In a block of statements [Done (Some _)] is a [return] inside the
    block and [Done None] falls through to the statement after it. *)

(** The [# Undo move] block, with its [return]. *)
Definition undo_move (prev_sq1 : square) (prev_sq1_button_piece : image)
    (prev_sq2 : square) (prev_sq2_button_piece : image) (b : Board)
    : res (option unit) :=
  let b := put_image prev_sq2 prev_sq2_button_piece b in
  let b := put_image prev_sq1 prev_sq1_button_piece b in
  let b := set_buttons_pressed 0 b in
  Done (Some tt) b.

(** The [else] block: castling flags, turn counter, history, promotion. *)
Definition complete_move (prev_sq1 : square) (prev_sq1_button_piece : image)
    (prev_sq2 : square) (b : Board) : res (option unit) :=
  let b :=
    if image_eqb prev_sq1_button_piece (Img White King)
    then set_wk_moved true b else b in
  let b :=
    if image_eqb prev_sq1_button_piece (Img Black King)
    then set_bk_moved true b else b in
  let b :=
    if image_eqb prev_sq1_button_piece (Img White Rook)
       && sq_eqb prev_sq1 (0, 1)
    then set_wr1_moved true b else b in
  let b :=
    if image_eqb prev_sq1_button_piece (Img White Rook)
       && sq_eqb prev_sq1 (7, 1)
    then set_wr2_moved true b else b in
  let b :=
    if image_eqb prev_sq1_button_piece (Img Black Rook)
       && sq_eqb prev_sq1 (0, 8)
    then set_br1_moved true b else b in
  let b :=
    if image_eqb prev_sq1_button_piece (Img Black Rook)
       && sq_eqb prev_sq1 (7, 8)
    then set_br2_moved true b else b in
  (* Move complete: update state *)
  let b := set_buttons_pressed 0 b in
  let b := set_turns (turns b + 1) b in
  let piece_name := get_piece_name prev_sq1_button_piece in
  let b :=
    set_move_history (move_history b ++ [(prev_sq1, prev_sq2, piece_name)])
      b in
  (* Handle pawn promotion *)
  match sq2_button b with
  | None => Raised b
  | Some b2 =>
      if (image_eqb (squares b b2) (Img White Pawn) && (rank prev_sq2 =? 8))
         || (image_eqb (squares b b2) (Img Black Pawn)
             && (rank prev_sq2 =? 1))
      then Done None (promotion_menu (piece_color b) b)
      else Done None b
  end.

(** The body of [if self.allowed_piece_move() and not
    self.friendly_fire():]. *)
Definition try_move (s1 button : square) (b : Board) : res (option unit) :=
  match sq1_button b with
  | None => Raised b
  | Some b1 =>
      (* Save previous state for undo if needed *)
      let prev_sq1 := s1 in
      let prev_sq1_button_piece := squares b b1 in
      let prev_sq2 := button in
      let prev_sq2_button_piece := squares b button in
      (* Move the piece *)
      let b := put_image button (squares b b1) b in
      let b := put_image s1 Blank b in
      (* Check if move puts own king in check (illegal) *)
      match in_check b with
      | Raised b => Raised b
      | Done chk b =>
          if chk && negb (castled b) then
            undo_move prev_sq1 prev_sq1_button_piece
              prev_sq2 prev_sq2_button_piece b
          else complete_move prev_sq1 prev_sq1_button_piece prev_sq2 b
      end
  end.

(** [# Reset highlights and state], the last statements of the branch. *)
Definition reset_state (b : Board) : Board :=
  let b := set_castled false b in
  let b := set_highlighted_squares [] b in
  set_piece_color None b.

Definition second_click (button : square) (b : Board) : res unit :=
  let b := set_sq2 (Some button) b in
  let b := set_sq2_button (Some button) b in
  match sq1 b with
  | None => Raised b
  | Some s1 =>
      (* If clicked same square, cancel selection *)
      if sq_eqb button s1 then Done tt (set_buttons_pressed 0 b)
      else
        let attempt : res (option unit) :=
          match allowed_and_not_friendly b with
          | Return true => try_move s1 button b
          | Return false => Done None b
          | _ => Raised b
          end in
        match attempt with
        | Raised b => Raised b
        | Done (Some _) b => Done tt b
        | Done None b => Done tt (reset_state b)
        end
  end.

Definition select_piece (button : square) (b : Board) : res unit :=
  let b := clear_highlights b in
  (* First click: select a piece *)
  if buttons_pressed b =? 0 then
    let selected : option color :=
      if white_pieces (squares b button) && (turns b mod 2 =? 0)
      then Some White
      else if black_pieces (squares b button) && (turns b mod 2 =? 1)
      then Some Black
      else None in
    match selected with
    | None => Done tt b
    | Some c =>
        let b := set_piece_color (Some c) b in
        let b := set_sq1 (Some button) b in
        let b := set_sq1_button (Some button) b in
        let b := set_buttons_pressed 1 b in
        match highlight_legal_moves b with
        | Raised b => Raised b
        | Done _ b =>
            match possible_moves_loop all_squares [] b with
            | Raised b => Raised b
            | Done _ b => Done tt b
            end
        end
    end
  (* Second click: attempt to move to target square *)
  else if buttons_pressed b =? 1 then second_click button b
  (* Fallback: reset selection state *)
  else Done tt (set_buttons_pressed 0 b).

(** ** random_ai_move

    [random.choice(movable)] is the element at an index the caller
    supplies. *)

Fixpoint ai_targets (sq : square) (targets : list square)
    (movable : list (square * square)) (b : Board)
    : res (list (square * square)) :=
  match targets with
  | [] => Done movable b
  | target_sq :: rest =>
      let b := set_sq2 (Some target_sq) b in
      let b := set_sq2_button (Some target_sq) b in
      match allowed_and_not_friendly b with
      | Return true => ai_targets sq rest (movable ++ [(sq, target_sq)]) b
      | Return false => ai_targets sq rest movable b
      | _ => Raised b
      end
  end.

Fixpoint ai_sources (pieces : image -> bool) (keys : list square)
    (movable : list (square * square)) (b : Board)
    : res (list (square * square)) :=
  match keys with
  | [] => Done movable b
  | sq :: rest =>
      if pieces (squares b sq) then
        let b := set_sq1 (Some sq) b in
        let b := set_sq1_button (Some sq) b in
        match ai_targets sq all_squares movable b with
        | Raised b => Raised b
        | Done movable b => ai_sources pieces rest movable b
        end
      else ai_sources pieces rest movable b
  end.

Definition random_choice {A : Type} (pick : nat) (l : list A) : option A :=
  nth_error l (Nat.modulo pick (List.length l)).

Definition random_ai_move (pick : nat) (b : Board) : res unit :=
  let enemy_color := if turns b mod 2 =? 1 then Black else White in
  let pieces :=
    match enemy_color with Black => black_pieces | White => white_pieces end in
  match ai_sources pieces all_squares [] b with
  | Raised b => Raised b
  | Done movable b =>
      match random_choice pick movable with
      | None => Done tt b
      | Some (m1, m2) =>
          let b := set_sq1 (Some m1) b in
          let b := set_sq2 (Some m2) b in
          let b := set_sq1_button (Some m1) b in
          let b := set_sq2_button (Some m2) b in
          select_piece m2 b
      end
  end.

(** ** set_pieces, the constructor and restart_game *)

Definition rank1_pieces : list (square * kind) :=
  [((0, 1), Rook); ((1, 1), Knight); ((2, 1), Bishop); ((3, 1), Queen);
   ((4, 1), King); ((5, 1), Bishop); ((6, 1), Knight); ((7, 1), Rook)].

Definition rank2_pieces : list (square * kind) :=
  [((0, 2), Pawn); ((1, 2), Pawn); ((2, 2), Pawn); ((3, 2), Pawn);
   ((4, 2), Pawn); ((5, 2), Pawn); ((6, 2), Pawn); ((7, 2), Pawn)].

Definition rank7_pieces : list (square * kind) :=
  [((0, 7), Pawn); ((1, 7), Pawn); ((2, 7), Pawn); ((3, 7), Pawn);
   ((4, 7), Pawn); ((5, 7), Pawn); ((6, 7), Pawn); ((7, 7), Pawn)].

Definition rank8_pieces : list (square * kind) :=
  [((0, 8), Rook); ((1, 8), Knight); ((2, 8), Bishop); ((3, 8), Queen);
   ((4, 8), King); ((5, 8), Bishop); ((6, 8), Knight); ((7, 8), Rook)].

Definition place (c : color) (d : list (square * kind)) (sqs : board)
    : board :=
  fold_left (fun acc kv => upd acc (fst kv) (Img c (snd kv))) d sqs.

Definition place_blanks (sqs : board) : board :=
  fold_left
    (fun acc r => fold_left (fun acc f => upd acc (f, r) Blank) (range 0 8) acc)
    (range 3 7) sqs.

Definition set_pieces (sqs : board) : board :=
  place_blanks
    (place Black rank8_pieces
       (place Black rank7_pieces
          (place White rank2_pieces (place White rank1_pieces sqs)))).

(** The state after [Board.__init__]; [sq1], [sq1_button], [sq2] and
    [sq2_button] are not assigned yet. *)
Definition initial_board : Board :=
  mkBoard (set_pieces (fun _ => Blank)) 0 0
    false false false false false false false [] [] None
    None None None None [].

Definition restart_game (b : Board) : Board :=
  let b := set_images (set_pieces (fun _ => Blank)) b in
  let b := set_buttons_pressed 0 b in
  let b := set_turns 0 b in
  let b := set_bk_moved false (set_wk_moved false b) in
  let b := set_wr2_moved false (set_wr1_moved false b) in
  let b := set_br2_moved false (set_br1_moved false b) in
  let b := set_castled false b in
  set_move_history [] b.

(** ** Sessions

    What can happen to a [Board] between two states of the event loop:
    a square button is pressed, a button of an open promotion dialog is
    pressed, a dialog is closed without a choice, the random mover is
    requested, or the game is restarted.  Tk reports an exception raised
    by a callback and goes on with the state the callback left. *)

Inductive event : Type :=
| Click (button : square)
| Promote (i : nat) (k : choice)
| Dismiss (i : nat)
| AIMove (pick : nat)
| Restart.

Definition handle (e : event) (b : Board) : res unit :=
  match e with
  | Click button => select_piece button b
  | Promote i k => return_piece i k b
  | Dismiss i => Done tt (set_promos (remove_nth i (promos b)) b)
  | AIMove pick => random_ai_move pick b
  | Restart => Done tt (restart_game b)
  end.

Definition step (b : Board) (e : event) : Board := state_of (handle e b).

Definition run (es : list event) (b : Board) : Board := fold_left step es b.

(** Only the 64 buttons of the board can be pressed. *)
Definition event_ok (e : event) : Prop :=
  match e with
  | Click button => on_board button = true
  | _ => True
  end.

Inductive reachable : Board -> Prop :=
| reach_init : reachable initial_board
| reach_step b e : reachable b -> event_ok e -> reachable (step b e).

(** ** The background colours of the buttons

    [set_squares] creates the 64 buttons with a background colour,
    [change_theme] repaints them and [clear_highlights] repaints the
    squares that were highlighted.  The colour of a name that is not a key
    is never read. *)

Definition colors : Type := square -> string.

(** [self.squares[name].config(bg=color)] *)
Definition config_bg (q : square) (c : string) (bg : colors) : colors :=
  fun q' => if sq_eqb q' q then c else bg q'.

(** [for x in range(8): for y in range(8): ... pos = ranks[y]+str(x+1)] *)
Definition set_squares : colors :=
  fold_left
    (fun bg x =>
       fold_left
         (fun bg y =>
            let square_color :=
              if (x mod 2 =? 0) && (y mod 2 =? 0) then "tan4"%string
              else if (x mod 2 =? 1) && (y mod 2 =? 1) then "tan4"%string
              else "burlywood1"%string in
            let pos := (y, x + 1) in
            config_bg pos square_color bg)
         (range 0 8) bg)
    (range 0 8) (fun _ => EmptyString).

(** [for x in range(8): for y in range(8): pos = ranks[y] + str(8 - x)] *)
Definition change_theme (theme : string * string) (bg : colors) : colors :=
  let '(light, dark) := theme in
  fold_left
    (fun bg x =>
       fold_left
         (fun bg y =>
            let pos := (y, 8 - x) in
            let color := if (x + y) mod 2 =? 0 then dark else light in
            config_bg pos color bg)
         (range 0 8) bg)
    (range 0 8) bg.

Definition theme_wood : string * string := ("burlywood1", "tan4")%string.
Definition theme_blue : string * string := ("light blue", "steel blue")%string.
Definition theme_green : string * string := ("pale green", "dark green")%string.

(** The loop of [clear_highlights] over [self.highlighted_squares]:
    [x = 8 - int(sq[1]); y = string.ascii_lowercase.index(sq[0])]. *)
Definition clear_highlights_bg (b : Board) (bg : colors) : colors :=
  fold_left
    (fun bg sq =>
       let x := 8 - rank sq in
       let y := file sq in
       let color :=
         if (x + y) mod 2 =? 0 then "tan4"%string else "burlywood1"%string in
       config_bg sq color bg)
    (highlighted_squares b) bg.

(** ** Vocabulary of the statements *)

(** A square by its name: [named "e2" = (4, 2)]. *)
Definition named (name : string) : square :=
  match name with
  | String f (String r EmptyString) =>
      (Z.of_nat (Ascii.nat_of_ascii f) - 97, Z.of_nat (Ascii.nat_of_ascii r) - 48)
  | _ => (0, 0)
  end.

Definition clicks (names : list string) : list event :=
  map (fun name => Click (named name)) names.

(** The side whose turn it is: [self.turns % 2 == 0] is White. *)
Definition side_to_move (b : Board) : color :=
  if turns b mod 2 =? 0 then White else Black.

(** [q] lies on the open segment between two squares of one file or of
    one rank. *)
Definition strictly_between (from to q : square) : Prop :=
  (file from = file to /\ file q = file from /\
   Z.min (rank from) (rank to) < rank q < Z.max (rank from) (rank to))
  \/
  (rank from = rank to /\ rank q = rank from /\
   Z.min (file from) (file to) < file q < Z.max (file from) (file to)).

(** The three patterns of a White pawn. *)
Definition single_push (sqs : board) (from to : square) : Prop :=
  file to = file from /\ rank to = rank from + 1 /\ sqs to = Blank.

Definition double_push (sqs : board) (from to : square) : Prop :=
  rank from = 2 /\ rank to = 4 /\ file to = file from /\
  sqs (file from, 3) = Blank /\ sqs to = Blank.

Definition diagonal_capture (sqs : board) (from to : square) : Prop :=
  rank to = rank from + 1 /\ Z.abs (file from - file to) = 1 /\
  exists k, sqs to = Img Black k.

Definition exactly_one (A B C : Prop) : Prop :=
  (A /\ ~ B /\ ~ C) \/ (~ A /\ B /\ ~ C) \/ (~ A /\ ~ B /\ C).

(** The king of colour [c] is attacked on a position: some square holds a
    piece of the other colour whose pattern reaches the king's square. *)
Definition attacked (sqs : board) (c : color) : Prop :=
  exists kingsq q,
    find_first sqs (Img c King) all_squares = Some kingsq /\
    on_board q = true /\
    in_pieces (opposite c) (sqs q) = true /\
    isPseudoLegal sqs q kingsq = Return true.

(** The six castling flags. *)
Definition castling_rights (b : Board) : list bool :=
  [wk_moved b; wr1_moved b; wr2_moved b; bk_moved b; br1_moved b; br2_moved b].

(** The name of the selected square and its button agree. *)
Definition coherent (b : Board) : Prop := sq1 b = sq1_button b.

(** What every state of a session satisfies. *)
Record session_inv (b : Board) : Prop := {
  inv_coherent : coherent b;
  inv_castled : castled b = false;
  inv_turn :
    forall c, buttons_pressed b = 1 -> piece_color b = Some c ->
              side_to_move b = c;
  inv_pawn :
    forall c c' q,
      buttons_pressed b = 1 -> piece_color b = Some c ->
      sq1_button b = Some q -> squares b q = Img c' Pawn -> c' <> c ->
      find_king b (Img c King) = None
}.

(** The part of the state that is the game: everything but the four
    cursor fields and the list of highlighted squares. *)
Definition game (b : Board) :=
  (squares b, buttons_pressed b, turns b, castling_rights b, castled b,
   move_history b, piece_color b, promos b).

(** Everything but [sq1] and [sq1_button]. *)
Definition but_sq1 (b : Board) :=
  (game b, highlighted_squares b, sq2 b, sq2_button b).

(** The position and its bookkeeping, without the selection state. *)
Definition position (b : Board) :=
  (squares b, turns b, castling_rights b, castled b, move_history b, promos b).

(** The state with the open dialogs forgotten, and an outcome with the
    dialogs of its state forgotten. *)
Definition without_dialogs (b : Board) : Board := set_promos [] b.

Definition outcome_without_dialogs {A : Type} (r : res A) : res A :=
  match r with
  | Done a b => Done a (without_dialogs b)
  | Raised b => Raised (without_dialogs b)
  end.

(** The four kinds a dialog offers. *)
Definition promotion_kind (k : kind) : Prop :=
  k = Knight \/ k = Bishop \/ k = Rook \/ k = Queen.

(** No handler raises along a list of events. *)
Fixpoint all_return (es : list event) (b : Board) : bool :=
  match es with
  | [] => true
  | e :: rest =>
      match handle e b with
      | Done _ b' => all_return rest b'
      | Raised _ => false
      end
  end.

(** The sessions used as examples. *)

(** 1. e4 f5 2. Qh5+ *)
Definition check_on_black : list event :=
  clicks ["e2"; "e4"; "f7"; "f5"; "d1"; "h5"]%string.

(** 1. a4 b5 2. axb5 a6 3. bxa6 h6 4. a7 h5, and White has selected the
    pawn on a7. *)
Definition before_promotion : list event :=
  clicks ["a2"; "a4"; "b7"; "b5"; "a4"; "b5"; "a7"; "a6"; "b5"; "a6";
          "h7"; "h6"; "a6"; "a7"; "h6"; "h5"; "a7"]%string.

(** 1. f3 e6 2. d3 Qh4+ 3. g3 g6 4. Bd2 Bg7 5. a3 Kf8 6. h3 Bxb2 *)
Definition bishop_on_b2 : list event :=
  clicks ["f2"; "f3"; "e7"; "e6"; "d2"; "d3"; "d8"; "h4"; "g2"; "g3";
          "g7"; "g6"; "c1"; "d2"; "f8"; "g7"; "a2"; "a3"; "e8"; "f8";
          "h2"; "h3"; "g7"; "b2"]%string.

(** The three patterns of a Black pawn. *)
Definition black_single_push (sqs : board) (from to : square) : Prop :=
  file to = file from /\ rank to = rank from - 1 /\ sqs to = Blank.

Definition black_double_push (sqs : board) (from to : square) : Prop :=
  rank from = 7 /\ rank to = 5 /\ file to = file from /\
  sqs (file from, 6) = Blank /\ sqs to = Blank.

Definition black_diagonal_capture (sqs : board) (from to : square) : Prop :=
  rank to = rank from - 1 /\ Z.abs (file from - file to) = 1 /\
  exists k, sqs to = Img White k.

(** The two squares are on one diagonal. *)
Definition on_diagonal (from to : square) : Prop :=
  Z.abs (rank from - rank to) = Z.abs (file from - file to).

(** The [k]-th square of the walk from [from] towards [to]: one file and
    one rank per step, each in the direction of [to]. *)
Definition diagonal_step (from to : square) (k : Z) : square :=
  (file from + k * Z.sgn (file to - file from),
   rank from + k * Z.sgn (rank to - rank from)).

(** The walk reaches the file of [to] after [|file to - file from|] steps;
    the squares before that are the ones the scan reads. *)
Definition diagonal_between (from to q : square) : Prop :=
  exists k, 0 < k < Z.abs (file to - file from) /\ q = diagonal_step from to k.

(** The diagonal scan leaves the board: some square of the walk is not a
    key, and every square before it is an empty square of the board. *)
Definition walk_leaves_board (sqs : board) (from to : square) : Prop :=
  rank from <> rank to /\
  exists k, 0 < k < Z.abs (file to - file from) /\
    on_board (diagonal_step from to k) = false /\
    forall j, 0 < j < k ->
      on_board (diagonal_step from to j) = true /\
      sqs (diagonal_step from to j) = Blank.

(** The L of a knight and the neighbourhood of a king. *)
Definition knight_jump (from to : square) : Prop :=
  (Z.abs (rank from - rank to) = 2 /\ Z.abs (file from - file to) = 1)
  \/ (Z.abs (rank from - rank to) = 1 /\ Z.abs (file from - file to) = 2).

Definition king_step (from to : square) : Prop :=
  Z.abs (rank from - rank to) < 2 /\ Z.abs (file from - file to) < 2.

(** A target for the piece on [from] when [pc] is what [piece_color]
    holds: the pattern engine allows the move and, if a colour is
    recorded, the target shows no piece of that colour. *)
Definition legal_target (sqs : board) (pc : option color) (from to : square)
    : bool :=
  match isPseudoLegal sqs from to with
  | Return true =>
      match pc with
      | Some c => negb (in_pieces c (sqs to))
      | None => true
      end
  | _ => false
  end.

(** The pairs [random_ai_move] collects in [movable]: for every square
    that shows a piece of the side to move, in the order of the board,
    the targets of that piece. *)
Definition candidates (b : Board) : list (square * square) :=
  flat_map
    (fun sq =>
       if in_pieces (side_to_move b) (squares b sq)
       then map (pair sq)
              (filter (legal_target (squares b) (piece_color b) sq)
                 all_squares)
       else [])
    all_squares.

(** * Properties *)

(** ** Equality tests *)

Lemma sq_eqb_eq (a b : square) : sq_eqb a b = true <-> a = b.
Proof.
  unfold sq_eqb, file, rank. destruct a as [fa ra], b as [fb rb]; cbn.
  rewrite andb_true_iff, !Z.eqb_eq. split.
  - intros [-> ->]; reflexivity.
  - intros H; injection H; auto.
Qed.

Lemma sq_eqb_neq (a b : square) : sq_eqb a b = false <-> a <> b.
Proof.
  rewrite <- sq_eqb_eq. destruct (sq_eqb a b); split; congruence.
Qed.

Lemma sq_eqb_refl (a : square) : sq_eqb a a = true.
Proof. apply sq_eqb_eq; reflexivity. Qed.

Lemma image_eqb_eq (a b : image) : image_eqb a b = true <-> a = b.
Proof.
  destruct a as [|[] []], b as [|[] []]; cbn; split; congruence.
Qed.

Lemma image_eqb_blank (i : image) : image_eqb i Blank = true <-> i = Blank.
Proof. apply image_eqb_eq. Qed.

Lemma upd_same sqs q i : upd sqs q i q = i.
Proof. unfold upd. now rewrite sq_eqb_refl. Qed.

Lemma upd_other sqs q i q' : q' <> q -> upd sqs q i q' = sqs q'.
Proof. intros H. unfold upd. apply sq_eqb_neq in H. now rewrite H. Qed.

(** ** Ranges *)

Lemma in_range (a b i : Z) : In i (range a b) <-> a <= i < b.
Proof.
  unfold range. rewrite in_map_iff. split.
  - intros (n & <- & Hn). apply in_seq in Hn. lia.
  - intros H. exists (Z.to_nat (i - a)). split; [lia|].
    apply in_seq. lia.
Qed.

Lemma in_range_down (a b i : Z) : In i (range_down a b) <-> b < i <= a.
Proof.
  unfold range_down. rewrite in_map_iff. split.
  - intros (n & <- & Hn). apply in_seq in Hn. lia.
  - intros H. exists (Z.to_nat (a - i)). split; [lia|].
    apply in_seq. lia.
Qed.

Lemma on_board_iff (q : square) :
  on_board q = true <-> 0 <= file q <= 7 /\ 1 <= rank q <= 8.
Proof.
  unfold on_board. rewrite !andb_true_iff, !Z.leb_le. tauto.
Qed.

(** ** The straight scan of [clear_path] *)

Lemma straight_loop_spec (sqs : board) (keys : list square) :
  (forall k, In k keys -> on_board k = true) ->
  (straight_loop sqs keys = Next /\ forall k, In k keys -> sqs k = Blank)
  \/ (straight_loop sqs keys = Return false /\
      exists k, In k keys /\ sqs k <> Blank).
Proof.
  induction keys as [|key rest IH]; intros Hon; cbn.
  - left. split; [reflexivity | intros k []].
  - unfold lookup. rewrite (Hon key) by (left; reflexivity).
    destruct (image_eqb (sqs key) Blank) eqn:E; cbn.
    + apply image_eqb_eq in E.
      destruct IH as [[-> Hall] | [-> (k & Hk & Hne)]].
      * intros k Hk. apply Hon. now right.
      * left. split; [reflexivity|]. intros k [<-|Hk]; auto.
      * right. split; [reflexivity|]. exists k. split; [now right | exact Hne].
    + right. split; [reflexivity|]. exists key. split; [now left|].
      intros Hb. apply image_eqb_eq in Hb. congruence.
Qed.

(** ** Rook and pawn patterns *)

Lemma clear_path_rook (sqs : board) (from to : square) :
  on_board from = true -> on_board to = true ->
  (clear_path (probe sqs from to) Rook = Return true /\
   forall q, strictly_between from to q -> sqs q = Blank)
  \/ (clear_path (probe sqs from to) Rook = Return false /\
      exists q, strictly_between from to q /\ sqs q <> Blank).
Proof.
  intros Hf Ht. apply on_board_iff in Hf, Ht.
  unfold clear_path. cbn [kind_eqb orb probe sq1 sq2 squares].
  destruct (file from =? file to) eqn:Ef.
  - apply Z.eqb_eq in Ef.
    destruct (straight_loop_spec sqs
      (map (fun i => (file from, i))
         (range (Z.min (rank from) (rank to) + 1)
                (Z.max (rank from) (rank to))))) as [[-> Hall] | [-> (k & Hk & Hne)]].
    + intros k Hk. apply in_map_iff in Hk. destruct Hk as (i & <- & Hi).
      apply in_range in Hi. apply on_board_iff. cbn. lia.
    + left. split; [reflexivity|]. intros q [(_ & Hq & Hr) | (Hr & Hq & Hlt)].
      * apply Hall. apply in_map_iff. exists (rank q). split.
        -- destruct q; cbn in *; congruence.
        -- apply in_range. lia.
      * lia.
    + right. split; [reflexivity|]. exists k. split; [|exact Hne].
      apply in_map_iff in Hk. destruct Hk as (i & <- & Hi).
      apply in_range in Hi. left. cbn. repeat split; auto; lia.
  - apply Z.eqb_neq in Ef.
    destruct (rank from =? rank to) eqn:Er.
    + apply Z.eqb_eq in Er.
      destruct (straight_loop_spec sqs
        (map (fun i => (i, rank from))
           (range (Z.min (file from) (file to) + 1)
                  (Z.max (file from) (file to))))) as [[-> Hall] | [-> (k & Hk & Hne)]].
      * intros k Hk. apply in_map_iff in Hk. destruct Hk as (i & <- & Hi).
        apply in_range in Hi. apply on_board_iff. cbn. lia.
      * left. split; [reflexivity|]. intros q [(Hff & _) | (_ & Hq & Hr)]; [congruence|].
        apply Hall. apply in_map_iff. exists (file q). split.
        -- destruct q; cbn in *; congruence.
        -- apply in_range. lia.
      * right. split; [reflexivity|]. exists k. split; [|exact Hne].
        apply in_map_iff in Hk. destruct Hk as (i & <- & Hi).
        apply in_range in Hi. right. cbn. repeat split; auto; lia.
    + apply Z.eqb_neq in Er. left. split; [reflexivity|].
      intros q [(Hff & _) | (Hrr & _)]; congruence.
Qed.

Lemma rook_dispatch (sqs : board) (from to : square) (c : color) :
  sqs from = Img c Rook ->
  isPseudoLegal sqs from to =
    ((if (rank from =? rank to) || (file from =? file to) then
        call cp := clear_path (probe sqs from to) Rook in
        if cp then Return true else Next
      else Next) ;;; Return false).
Proof.
  intros H. unfold isPseudoLegal, allowed_piece_move.
  cbn [probe sq1 sq2 sq1_button sq2_button squares]. rewrite H.
  destruct c; reflexivity.
Qed.

(** C6 (as amended).  On every position, for a rook of either colour on
    [from] and every square [to] of the board, the pattern engine returns
    (it does not raise), and it returns true exactly when the two squares
    share a file or a rank and every square strictly between them is
    empty.  It does not ask for [from <> to]: for the rook's own square
    the answer is true. *)
Theorem rook_pseudo_legal (sqs : board) (from to : square) (c : color) :
  on_board from = true -> on_board to = true -> sqs from = Img c Rook ->
  (isPseudoLegal sqs from to = Return true \/
   isPseudoLegal sqs from to = Return false) /\
  (isPseudoLegal sqs from to = Return true <->
     (file from = file to \/ rank from = rank to) /\
     forall q, strictly_between from to q -> sqs q = Blank) /\
  isPseudoLegal sqs from from = Return true.
Proof.
  intros Hf Ht Himg.
  assert (Hgen : forall t, on_board t = true ->
     (isPseudoLegal sqs from t = Return true \/
      isPseudoLegal sqs from t = Return false) /\
     (isPseudoLegal sqs from t = Return true <->
        (file from = file t \/ rank from = rank t) /\
        forall q, strictly_between from t q -> sqs q = Blank)).
  { intros t Hton. rewrite (rook_dispatch sqs from t c Himg).
    destruct ((rank from =? rank t) || (file from =? file t)) eqn:E.
    - apply orb_true_iff in E. rewrite !Z.eqb_eq in E.
      destruct (clear_path_rook sqs from t Hf Hton)
        as [[-> Hall] | [-> (q & Hq & Hne)]].
      + split; [now left|]. split; [intros _|reflexivity].
        split; [tauto | exact Hall].
      + split; [now right|]. split; [discriminate|].
        intros [_ Hall]. elim Hne. now apply Hall.
    - apply orb_false_iff in E. rewrite !Z.eqb_neq in E.
      split; [now right|]. split; [discriminate|]. intros [[?|?] _]; tauto. }
  destruct (Hgen to Ht) as [H1 H2]. split; [exact H1|]. split; [exact H2|].
  apply (Hgen from Hf). split; [now left|].
  intros q [(_ & _ & H) | (_ & _ & H)]; lia.
Qed.

(** C6, as stated, fails: in the initial position the rook on a1 is
    allowed to "move" to a1, so the equivalence with a condition that
    contains [from <> to] is false there. *)
Lemma rook_same_square_counterexample :
  let sqs := squares initial_board in
  let s := named "a1" in
  sqs s = Img White Rook /\
  isPseudoLegal sqs s s = Return true /\
  ~ (isPseudoLegal sqs s s = Return true <->
       (file s = file s \/ rank s = rank s) /\ s <> s /\
       forall q, strictly_between s s q -> sqs q = Blank).
Proof.
  cbv zeta. split; [reflexivity|]. split; [vm_compute; reflexivity|].
  intros [H _]. assert (E : isPseudoLegal (squares initial_board) (named "a1") (named "a1") = Return true) by (vm_compute; reflexivity).
  destruct (H E) as (_ & Hne & _). now apply Hne.
Qed.

Lemma rook_pseudo_legal_witness :
  on_board (named "a1") = true /\ on_board (named "a3") = true /\
  squares initial_board (named "a1") = Img White Rook /\
  (isPseudoLegal (squares initial_board) (named "a1") (named "a3")
   = Return true <->
   (file (named "a1") = file (named "a3")
    \/ rank (named "a1") = rank (named "a3")) /\
   forall q, strictly_between (named "a1") (named "a3") q ->
             squares initial_board q = Blank).
Proof.
  split; [reflexivity|]. split; [reflexivity|]. split; [reflexivity|].
  apply (rook_pseudo_legal (squares initial_board) (named "a1") (named "a3")
           White); reflexivity.
Defined.

Lemma white_pawn_dispatch (sqs : board) (from to : square) :
  sqs from = Img White Pawn ->
  isPseudoLegal sqs from to =
    (((if rank from =? 2 then
        if ((rank to =? 3) || (rank to =? 4)) && (file from =? file to) then
          if image_eqb (sqs to) Blank then
            if rank to =? 4 then
              get in_front := lookup sqs (file from, 3) in
              if image_eqb in_front Blank then Return true else Next
            else Return true
          else Next
        else Next
      else Next) ;;;
     (if (rank to =? rank from + 1) && (file from =? file to) then
        if image_eqb (sqs to) Blank then Return true else Next
      else Next) ;;;
     (if (rank to =? rank from + 1)
         && (Z.abs (file from - file to) =? 1) then
        if black_pieces (sqs to) then Return true else Next
      else Next)) ;;; Return false).
Proof.
  intros H. unfold isPseudoLegal, allowed_piece_move.
  cbn [probe sq1 sq2 sq1_button sq2_button squares]. rewrite H.
  reflexivity.
Qed.

Lemma black_pieces_iff (i : image) :
  black_pieces i = true <-> exists k, i = Img Black k.
Proof.
  destruct i as [|[] k]; cbn; split; try discriminate.
  - intros [k' H]; discriminate.
  - intros [k' H]; discriminate.
  - intros _. now exists k.
  - reflexivity.
Qed.


Ltac split_ifs :=
  repeat match goal with
         | |- context [if ?c then _ else _] => destruct c eqn:?
         end.

Ltac bool_to_prop :=
  repeat match goal with
         | H : _ && _ = true |- _ => apply andb_true_iff in H; destruct H
         | H : _ || _ = true |- _ => apply orb_true_iff in H
         | H : _ && _ = false |- _ => apply andb_false_iff in H
         | H : _ || _ = false |- _ => apply orb_false_iff in H; destruct H
         | H : (_ =? _) = true |- _ => apply Z.eqb_eq in H
         | H : (_ =? _) = false |- _ => apply Z.eqb_neq in H
         | H : (_ <? _) = true |- _ => apply Z.ltb_lt in H
         | H : (_ <? _) = false |- _ => apply Z.ltb_ge in H
         | H : (_ >? _) = true |- _ => rewrite Z.gtb_ltb in H
         | H : (_ >? _) = false |- _ => rewrite Z.gtb_ltb in H
         | H : (_ <=? _) = true |- _ => apply Z.leb_le in H
         | H : (_ <=? _) = false |- _ => apply Z.leb_gt in H
         | H : image_eqb _ _ = true |- _ => apply image_eqb_eq in H
         end.

Lemma image_eqb_false (a b : image) : image_eqb a b = false <-> a <> b.
Proof.
  rewrite <- image_eqb_eq. destruct (image_eqb a b); split; congruence.
Qed.

Lemma lookup_on_board (sqs : board) (q : square) :
  on_board q = true -> lookup sqs q = Some (sqs q).
Proof. intros H. unfold lookup. now rewrite H. Qed.

(** C7.  On every position, for a White pawn on [from], the pattern engine
    returns true exactly when exactly one of the three patterns holds:
    single push, double push from rank 2, diagonal capture of a Black
    piece; it never raises; and a move along the file onto an occupied
    square is never allowed. *)
Theorem white_pawn_pseudo_legal (sqs : board) (from to : square) :
  on_board from = true -> sqs from = Img White Pawn ->
  (isPseudoLegal sqs from to = Return true <->
     exactly_one (single_push sqs from to) (double_push sqs from to)
                 (diagonal_capture sqs from to)) /\
  (isPseudoLegal sqs from to = Return true \/
   isPseudoLegal sqs from to = Return false) /\
  (file to = file from -> sqs to <> Blank ->
   isPseudoLegal sqs from to = Return false).
Proof.
  intros Hf Himg. rewrite (white_pawn_dispatch sqs from to Himg).
  rewrite (lookup_on_board sqs (file from, 3)).
  2:{ apply on_board_iff in Hf. apply on_board_iff. cbn. lia. }
  assert (Hexcl : forall A B C : Prop,
            ~ (A /\ B) -> ~ (A /\ C) -> ~ (B /\ C) ->
            (A \/ B \/ C <-> exactly_one A B C))
    by (unfold exactly_one; tauto).
  rewrite <- Hexcl.
  2:{ unfold single_push, double_push. lia. }
  2:{ unfold single_push, diagonal_capture. lia. }
  2:{ unfold double_push, diagonal_capture. lia. }
  unfold single_push, double_push, diagonal_capture.
  rewrite <- black_pieces_iff.
  split; [split|split].
  - split_ifs; try discriminate; intros _; bool_to_prop; try tauto;
      try (right; left; repeat split; (lia || congruence));
      try (left; repeat split; (lia || congruence)).
  - intros [(H1 & H2 & H3) | [(H1 & H2 & H3 & H4 & H5) | (H1 & H2 & H3)]];
      split_ifs; try reflexivity; exfalso; bool_to_prop;
      rewrite ?image_eqb_false in *;
      repeat match goal with H : _ \/ _ |- _ => destruct H end;
      bool_to_prop; try lia; try congruence.
  - split_ifs; auto.
  - intros Hsame Hocc. split_ifs; try reflexivity; exfalso; bool_to_prop;
      try congruence; try lia.
Qed.

Lemma white_pawn_pseudo_legal_witness :
  on_board (named "e2") = true /\
  squares initial_board (named "e2") = Img White Pawn /\
  isPseudoLegal (squares initial_board) (named "e2") (named "e4") = Return true.
Proof.
  split; [reflexivity|]. split; [reflexivity|].
  apply (white_pawn_pseudo_legal (squares initial_board) (named "e2") (named "e4"));
    [reflexivity | reflexivity |].
  right. left. split; [|split].
  - intros (_ & H & _). vm_compute in H. discriminate H.
  - repeat split.
  - intros (H & _). vm_compute in H. discriminate H.
Defined.

(** ** Frame of the scanning loops *)

Lemma highlight_loop_frame (keys : list square) (b : Board) :
  game (state_of (highlight_loop keys b)) = game b /\
  sq1 (state_of (highlight_loop keys b)) = sq1 b /\
  sq1_button (state_of (highlight_loop keys b)) = sq1_button b.
Proof.
  revert b. induction keys as [|sq rest IH]; intros b; cbn [highlight_loop].
  - auto.
  - destruct (allowed_and_not_friendly _) as [[]| |]; cbn [state_of];
      try (destruct (IH (set_highlighted_squares
             (highlighted_squares (set_sq2_button (Some sq) (set_sq2 (Some sq) b)) ++ [sq])
             (set_sq2_button (Some sq) (set_sq2 (Some sq) b)))) as (-> & -> & ->));
      try (destruct (IH (set_sq2_button (Some sq) (set_sq2 (Some sq) b))) as (-> & -> & ->));
      auto.
Qed.

Lemma possible_moves_loop_frame (keys : list square) (acc : list square)
    (b : Board) :
  game (state_of (possible_moves_loop keys acc b)) = game b /\
  sq1 (state_of (possible_moves_loop keys acc b)) = sq1 b /\
  sq1_button (state_of (possible_moves_loop keys acc b)) = sq1_button b.
Proof.
  revert acc b. induction keys as [|sq rest IH]; intros acc b;
    cbn [possible_moves_loop].
  - auto.
  - destruct (allowed_and_not_friendly _) as [[]| |]; cbn [state_of]; auto.
    + destruct (IH (acc ++ [sq]) (set_sq2_button (Some sq) (set_sq2 (Some sq) b)))
        as (-> & -> & ->); auto.
    + destruct (IH acc (set_sq2_button (Some sq) (set_sq2 (Some sq) b)))
        as (-> & -> & ->); auto.
Qed.

Lemma ai_targets_frame (sq : square) (targets : list square)
    (acc : list (square * square)) (b : Board) :
  game (state_of (ai_targets sq targets acc b)) = game b /\
  sq1 (state_of (ai_targets sq targets acc b)) = sq1 b /\
  sq1_button (state_of (ai_targets sq targets acc b)) = sq1_button b.
Proof.
  revert acc b. induction targets as [|t rest IH]; intros acc b;
    cbn [ai_targets].
  - auto.
  - destruct (allowed_and_not_friendly _) as [[]| |]; cbn [state_of]; auto.
    + destruct (IH (acc ++ [(sq, t)]) (set_sq2_button (Some t) (set_sq2 (Some t) b)))
        as (-> & -> & ->); auto.
    + destruct (IH acc (set_sq2_button (Some t) (set_sq2 (Some t) b)))
        as (-> & -> & ->); auto.
Qed.

Lemma in_check_loop_frame (pieces : image -> bool) (keys : list square)
    (b : Board) :
  but_sq1 (state_of (in_check_loop pieces keys b)) = but_sq1 b.
Proof.
  revert b. induction keys as [|key rest IH]; intros b; cbn [in_check_loop].
  - reflexivity.
  - cbn [squares set_sq1 set_sq1_button].
    destruct (pieces (squares b key)).
    + destruct (allowed_piece_move _) as [[]| |]; cbn [state_of];
        try rewrite IH; reflexivity.
    + rewrite IH. reflexivity.
Qed.

Lemma in_check_loop_coherent (pieces : image -> bool) (keys : list square)
    (b : Board) :
  coherent b -> coherent (state_of (in_check_loop pieces keys b)).
Proof.
  revert b. induction keys as [|key rest IH]; intros b Hc; cbn [in_check_loop].
  - exact Hc.
  - cbn [squares set_sq1 set_sq1_button].
    destruct (pieces (squares b key)).
    + destruct (allowed_piece_move _) as [[]| |]; cbn [state_of];
        try apply IH; reflexivity.
    + apply IH. reflexivity.
Qed.

Lemma board_ext (b b' : Board) :
  but_sq1 b' = but_sq1 b -> sq1 b' = sq1 b -> sq1_button b' = sq1_button b ->
  b' = b.
Proof.
  destruct b, b'; unfold but_sq1, game, castling_rights; cbn.
  intros H -> ->. injection H as -> -> -> -> -> -> -> -> -> -> -> -> -> -> -> ->.
  reflexivity.
Qed.

Lemma game_fields (b b' : Board) :
  game b' = game b ->
  squares b' = squares b /\ buttons_pressed b' = buttons_pressed b /\
  turns b' = turns b /\ castling_rights b' = castling_rights b /\
  castled b' = castled b /\ move_history b' = move_history b /\
  piece_color b' = piece_color b /\ promos b' = promos b.
Proof.
  unfold game, castling_rights. intros H. injection H. intros.
  repeat split; congruence.
Qed.

Lemma but_sq1_fields (b b' : Board) :
  but_sq1 b' = but_sq1 b ->
  game b' = game b /\ highlighted_squares b' = highlighted_squares b /\
  sq2 b' = sq2 b /\ sq2_button b' = sq2_button b.
Proof.
  unfold but_sq1. intros H. injection H. intros. repeat split; congruence.
Qed.

Lemma in_check_loop_result (pieces : image -> bool) (keys : list square)
    (b b' : Board) (r : bool) :
  in_check_loop pieces keys b = Done (Some r) b' -> r = true.
Proof.
  revert b. induction keys as [|key rest IH]; intros b; cbn [in_check_loop].
  - discriminate.
  - destruct (pieces _); [destruct (allowed_piece_move _) as [[]| |]|];
      try discriminate; try apply IH. congruence.
Qed.

(** The three ways [in_check] can end. *)
Lemma in_check_cases (b : Board) :
  in_check b = Done false b
  \/ (exists b', in_check b = Done true b' /\ game b' = game b /\
                 (coherent b -> coherent b') /\ sq2_button b' = sq2_button b)
  \/ (exists b', in_check b = Raised b' /\ game b' = game b /\
                 (coherent b -> coherent b') /\ sq2_button b' = sq2_button b).
Proof.
  unfold in_check.
  destruct (piece_color b) as [[]|] eqn:Hpc.
  - pose proof (in_check_loop_frame black_pieces all_squares
                  (set_sq2 (find_king b (Img White King)) b)) as Hfr.
    pose proof (in_check_loop_coherent black_pieces all_squares
                  (set_sq2 (find_king b (Img White King)) b)) as Hco.
    destruct (in_check_loop black_pieces all_squares _) as [[r|] b1|b1] eqn:E;
      cbn [state_of] in *; apply but_sq1_fields in Hfr;
      destruct Hfr as (Hg & Hh & H2 & H2b).
    + apply in_check_loop_result in E. subst r. right. left. exists b1.
      repeat split; auto.
    + apply game_fields in Hg. destruct Hg as (? & ? & ? & ? & ? & ? & Hp & ?).
      cbn in Hp. rewrite Hp, Hpc. left. f_equal.
      apply board_ext; unfold but_sq1, game, castling_rights in *; cbn in *;
        try reflexivity.
      unfold castling_rights in *. cbn in *. congruence.
    + right. right. exists b1. repeat split; auto.
  - pose proof (in_check_loop_frame white_pieces all_squares
                  (set_sq2 (find_king b (Img Black King)) b)) as Hfr.
    pose proof (in_check_loop_coherent white_pieces all_squares
                  (set_sq2 (find_king b (Img Black King)) b)) as Hco.
    rewrite Hpc.
    destruct (in_check_loop white_pieces all_squares _) as [[r|] b1|b1] eqn:E;
      cbn [state_of] in *; apply but_sq1_fields in Hfr;
      destruct Hfr as (Hg & Hh & H2 & H2b).
    + apply in_check_loop_result in E. subst r. right. left. exists b1.
      repeat split; auto.
    + apply game_fields in Hg. destruct Hg as (? & ? & ? & ? & ? & ? & Hp & ?).
      left. f_equal.
      apply board_ext; unfold but_sq1, game, castling_rights in *; cbn in *;
        try reflexivity.
      congruence.
    + right. right. exists b1. repeat split; auto.
  - rewrite Hpc. left. f_equal. apply board_ext; reflexivity.
Qed.

Lemma game_position (b b' : Board) :
  game b' = game b -> position b' = position b.
Proof.
  intros H. apply game_fields in H. unfold position.
  destruct H as (-> & _ & -> & -> & -> & -> & _ & ->). reflexivity.
Qed.

Lemma position_fields (b b' : Board) :
  position b' = position b ->
  squares b' = squares b /\ turns b' = turns b /\
  castling_rights b' = castling_rights b /\ castled b' = castled b /\
  move_history b' = move_history b /\ promos b' = promos b.
Proof.
  unfold position, castling_rights. intros H. injection H. intros.
  repeat split; congruence.
Qed.

Lemma highlight_legal_moves_frame (b : Board) :
  game (state_of (highlight_legal_moves b)) = game b /\
  (sq1_button b <> None ->
   sq1 (state_of (highlight_legal_moves b)) = sq1_button b) /\
  sq1_button (state_of (highlight_legal_moves b)) = sq1_button b.
Proof.
  unfold highlight_legal_moves.
  change (sq1_button (clear_highlights b)) with (sq1_button b).
  destruct (sq1_button b) as [btn|] eqn:E; cbn [state_of].
  - destruct (highlight_loop_frame all_squares
                (set_sq1 (Some btn) (clear_highlights b)))
      as (-> & -> & ->).
    cbn. rewrite E. auto.
  - cbn. rewrite E. repeat split; auto. congruence.
Qed.

(** A first click never touches the position. *)
Lemma first_click_frame (button : square) (b : Board) :
  buttons_pressed b = 0 ->
  position (state_of (select_piece button b)) = position b.
Proof.
  intros Hbp. unfold select_piece.
  cbn [buttons_pressed clear_highlights set_highlighted_squares squares turns].
  rewrite Hbp. cbn [Z.eqb].
  match goal with
  | |- context [match ?sel with Some _ => _ | None => _ end] =>
      destruct sel as [c|]
  end; [|reflexivity].
  match goal with
  | |- context [highlight_legal_moves ?x] =>
      pose proof (highlight_legal_moves_frame x) as (Hg & _ & _);
      destruct (highlight_legal_moves x) as [u b1|b1]
  end; cbn [state_of] in *.
  - pose proof (possible_moves_loop_frame all_squares [] b1) as (Hg2 & _ & _).
    destruct (possible_moves_loop all_squares [] b1) as [u2 b2|b2];
      cbn [state_of] in *; apply game_position in Hg, Hg2;
      rewrite Hg2, Hg; reflexivity.
  - apply game_position in Hg. rewrite Hg. reflexivity.
Qed.

Lemma complete_move_turns (p1 : square) (img : image) (p2 : square)
    (b : Board) :
  turns (state_of (complete_move p1 img p2 b)) = turns b + 1 /\
  squares (state_of (complete_move p1 img p2 b)) = squares b /\
  buttons_pressed (state_of (complete_move p1 img p2 b)) = 0.
Proof.
  unfold complete_move.
  destruct (image_eqb img (Img White King)), (image_eqb img (Img Black King)),
    (image_eqb img (Img White Rook) && sq_eqb p1 (0, 1)),
    (image_eqb img (Img White Rook) && sq_eqb p1 (7, 1)),
    (image_eqb img (Img Black Rook) && sq_eqb p1 (0, 8)),
    (image_eqb img (Img Black Rook) && sq_eqb p1 (7, 8));
    cbn; destruct (sq2_button b); cbn;
    try match goal with |- context [if ?c then _ else _] => destruct c end;
    cbn; auto.
Qed.


(** What a second click on another square does once the pattern and the
    friendly-fire tests have passed. *)
Lemma try_move_cases (s1 button : square) (b : Board) :
  sq1_button b = Some s1 ->
  let moved := put_image s1 Blank (put_image button (squares b s1) b) in
  (exists b1, in_check moved = Raised b1 /\ try_move s1 button b = Raised b1)
  \/ (exists b1, in_check moved = Done true b1 /\ castled b = false /\
        game b1 = game moved /\ (coherent b -> coherent b1) /\
        try_move s1 button b =
          undo_move s1 (squares b s1) button (squares b button) b1)
  \/ (exists b1, game b1 = game moved /\ (coherent b -> coherent b1) /\
        sq2_button b1 = sq2_button b /\
        ((b1 = moved /\ in_check moved = Done false moved)
         \/ castled b = true) /\
        try_move s1 button b = complete_move s1 (squares b s1) button b1).
Proof.
  intros Hb1 moved. unfold try_move. rewrite Hb1. fold moved.
  assert (Hcm : coherent b -> coherent moved) by (intros H; exact H).
  destruct (in_check_cases moved)
    as [E | [(b1 & E & Hg & Hc & H2) | (b1 & E & Hg & Hc & H2)]];
    rewrite E.
  - right. right. exists moved. cbn [andb]. repeat split; auto.
  - assert (Hcas : castled b1 = castled b).
    { apply game_fields in Hg.
      destruct Hg as (_ & _ & _ & _ & -> & _). reflexivity. }
    rewrite Hcas. destruct (castled b) eqn:Ec; cbn [andb negb].
    + right. right. exists b1. repeat split; auto.
    + right. left. exists b1. repeat split; auto.
  - left. exists b1. repeat split; auto.
Qed.


(** C9.  A call of [select_piece] that commits a move (the turn counter
    advances) from the selected square [from] to the clicked square
    empties [from], puts on the clicked square the piece that was on
    [from], and leaves every other square as it was.  This holds for
    every committed move, so in particular for those that open no
    promotion dialog. *)
Theorem committed_move_frame (button : square) (b b' : Board) :
  coherent b -> select_piece button b = Done tt b' ->
  turns b' = turns b + 1 ->
  exists from,
    sq1 b = Some from /\ from <> button /\
    squares b' from = Blank /\
    squares b' button = squares b from /\
    forall q, q <> from -> q <> button -> squares b' q = squares b q.
Proof.
  intros Hco Hsel Hturn.
  destruct (Z.eq_dec (buttons_pressed b) 0) as [H0|H0].
  { pose proof (first_click_frame button b H0) as Hp. rewrite Hsel in Hp.
    cbn [state_of] in Hp. apply position_fields in Hp.
    destruct Hp as (_ & Ht & _). lia. }
  unfold select_piece in Hsel.
  change (buttons_pressed (clear_highlights b)) with (buttons_pressed b) in Hsel.
  apply Z.eqb_neq in H0. rewrite H0 in Hsel.
  destruct (buttons_pressed b =? 1);
    [|injection Hsel as <-; cbn in Hturn; lia].
  unfold second_click in Hsel.
  cbn [sq1 set_sq2 set_sq2_button clear_highlights set_highlighted_squares] in Hsel.
  destruct (sq1 b) as [s1|] eqn:Hs1; [|discriminate].
  destruct (sq_eqb button s1) eqn:Eq;
    [injection Hsel as <-; cbn in Hturn; lia|].
  apply sq_eqb_neq in Eq.
  destruct (allowed_and_not_friendly _) as [[]| |]; try discriminate.
  2:{ injection Hsel as <-. cbn in Hturn; lia. }
  match type of Hsel with
  | context [try_move s1 button ?x] =>
      destruct (try_move_cases s1 button x) as
        [(b1 & _ & Et) | [(b1 & _ & _ & Hg & _ & Et) | (b1 & Hg & _ & _ & _ & Et)]];
      [cbn; rewrite <- Hco; exact Hs1 | | | ]; rewrite Et in Hsel; clear Et
  end; [discriminate | | ].
  - unfold undo_move in Hsel. injection Hsel as <-.
    apply game_fields in Hg. cbn in Hg. cbn in Hturn. lia.
  - match type of Hsel with
    | context [complete_move ?a ?i ?c ?d] =>
        pose proof (complete_move_turns a i c d) as (_ & Hsq & _);
        destruct (complete_move a i c d) as [[u|] b2|b2]
    end; try discriminate; injection Hsel as <-; cbn [state_of] in Hsq.
    all: apply game_fields in Hg; destruct Hg as (Hsq1 & _);
      exists s1; (split; [reflexivity|]); (split; [congruence|]);
      cbn [reset_state squares set_castled set_highlighted_squares
             set_piece_color];
      rewrite Hsq, Hsq1;
      cbn [squares put_image set_images set_sq2 set_sq2_button];
      repeat split;
      [ apply upd_same
      | rewrite upd_other by exact Eq; apply upd_same
      | intros q Hq1 Hq2; rewrite !upd_other by assumption; reflexivity ].
Qed.

(** ** The keys of the dictionary *)

Lemma in_all_squares (q : square) : In q all_squares <-> on_board q = true.
Proof.
  unfold all_squares. rewrite in_flat_map, on_board_iff. split.
  - intros (x & Hx & Hq). apply in_map_iff in Hq. destruct Hq as (y & <- & Hy).
    apply in_range in Hx, Hy. cbn. lia.
  - intros [Hf Hr]. exists (rank q - 1). split; [apply in_range; lia|].
    apply in_map_iff. exists (file q). split; [|apply in_range; lia].
    destruct q as [f r]. cbn. f_equal. lia.
Qed.

Lemma find_first_none (sqs : board) (img : image) (keys : list square) :
  find_first sqs img keys = None <-> forall k, In k keys -> sqs k <> img.
Proof.
  induction keys as [|key rest IH]; cbn.
  - split; [intros _ k [] | reflexivity].
  - destruct (image_eqb (sqs key) img) eqn:E.
    + apply image_eqb_eq in E. split; [discriminate|].
      intros H. exfalso. exact (H key (or_introl eq_refl) E).
    + apply image_eqb_false in E. rewrite IH. split.
      * intros H k [<-|Hk]; auto.
      * intros H k Hk. apply H. now right.
Qed.

Lemma in_pieces_iff (c : color) (i : image) :
  in_pieces c i = true <-> exists k, i = Img c k.
Proof.
  destruct i as [|c' k]; cbn.
  - split; [discriminate | intros [k H]; discriminate].
  - destruct c, c'; cbn; split; try discriminate; try (intros [k' H]; discriminate);
      intros _; (reflexivity || now exists k).
Qed.

(** ** When the pattern engine raises *)

Lemma clear_path_no_target (b : Board) (piece : kind) :
  sq2 b = None ->
  piece = Rook \/ piece = Queen \/ piece = Bishop ->
  clear_path b piece = Raise.
Proof.
  intros H2 Hp. unfold clear_path. rewrite H2.
  destruct Hp as [-> | [-> | ->]]; cbn; destruct (sq1 b); reflexivity.
Qed.

Lemma allowed_no_target (b : Board) (k : square) :
  sq2 b = None -> sq1_button b = Some k -> squares b k <> Blank ->
  allowed_piece_move b = Raise.
Proof.
  intros H2 Hb1 Hne. unfold allowed_piece_move. rewrite Hb1.
  destruct (squares b k) as [|c kd]; [congruence|].
  destruct c, kd; cbn;
    rewrite ?(clear_path_no_target b Bishop), ?(clear_path_no_target b Queen),
      ?(clear_path_no_target b Rook) by auto;
    try reflexivity;
    rewrite ?H2; destruct (sq1 b) as [s1|]; try reflexivity;
    repeat match goal with
           | |- context [if ?c then _ else _] => destruct c
           end; reflexivity.
Qed.

Lemma allowed_pawn_returns (b : Board) (s1 s2 k b2 : square) (c : color) :
  sq1 b = Some s1 -> on_board s1 = true -> sq2 b = Some s2 ->
  sq1_button b = Some k -> sq2_button b = Some b2 ->
  squares b k = Img c Pawn ->
  allowed_piece_move b <> Raise.
Proof.
  intros H1 Hon H2 Hb1 Hb2 Himg. unfold allowed_piece_move.
  rewrite Hb1, Himg, H1, H2, Hb2.
  apply on_board_iff in Hon.
  rewrite (lookup_on_board (squares b) (file s1, 3))
    by (apply on_board_iff; cbn; lia).
  rewrite (lookup_on_board (squares b) (file s1, 6))
    by (apply on_board_iff; cbn; lia).
  destruct c; cbn; split_ifs; try discriminate.
Qed.

Lemma seq_not_next {R : Type} (a b : flow R) :
  b <> Next -> (a ;;; b) <> Next.
Proof. destruct a; [discriminate | trivial | discriminate]. Qed.

Lemma allowed_not_next (b : Board) : allowed_piece_move b <> Next.
Proof.
  unfold allowed_piece_move. destruct (sq1_button b); [|discriminate].
  cbv zeta. do 8 apply seq_not_next. discriminate.
Qed.

(** ** The scan of [in_check] *)

Lemma in_check_loop_raised (pieces : image -> bool) (keys : list square)
    (b b' : Board) :
  in_check_loop pieces keys b = Raised b' ->
  exists q, In q keys /\ sq1 b' = Some q /\ sq1_button b' = Some q /\
            pieces (squares b q) = true /\ allowed_piece_move b' = Raise /\
            but_sq1 b' = but_sq1 b.
Proof.
  revert b. induction keys as [|key rest IH]; intros b; cbn [in_check_loop].
  - discriminate.
  - cbn [squares set_sq1 set_sq1_button].
    destruct (pieces (squares b key)) eqn:Ep.
    + destruct (allowed_piece_move
                  (set_sq1_button (Some key) (set_sq1 (Some key) b)))
        as [[]| |] eqn:Ea.
      * discriminate.
      * intros H. apply IH in H.
        destruct H as (q & Hq & H1 & Hb1 & Hp & Hr & Hfr).
        exists q. split; [now right|]. repeat split; assumption.
      * now apply allowed_not_next in Ea.
      * intros H. injection H as <-. exists key. repeat split; auto. now left.
    + intros H. apply IH in H.
      destruct H as (q & Hq & H1 & Hb1 & Hp & Hr & Hfr).
      exists q. split; [now right|]. repeat split; assumption.
Qed.

Lemma in_check_loop_no_king (c : color) (keys : list square) (b : Board)
    (q : square) :
  sq2 b = None -> In q keys -> in_pieces c (squares b q) = true ->
  exists b', in_check_loop (in_pieces c) keys b = Raised b'.
Proof.
  revert b. induction keys as [|key rest IH]; intros b H2 Hin Hp; [destruct Hin|].
  cbn [in_check_loop]. cbn [squares set_sq1 set_sq1_button].
  destruct (in_pieces c (squares b key)) eqn:Ep.
  - rewrite allowed_no_target with (k := key); try reflexivity.
    + eexists; reflexivity.
    + exact H2.
    + cbn. intros Hb. rewrite Hb in Ep. discriminate.
  - destruct Hin as [<-|Hin]; [congruence|].
    apply IH; auto.
Qed.

(** [in_check] raises only while it tests a piece of the other colour,
    and leaves the cursor on that piece. *)
Lemma in_check_raised (b b' : Board) :
  in_check b = Raised b' ->
  exists c q,
    piece_color b = Some c /\ In q all_squares /\
    sq1 b' = Some q /\ sq1_button b' = Some q /\
    in_pieces (opposite c) (squares b q) = true /\
    sq2 b' = find_king b (Img c King) /\
    allowed_piece_move b' = Raise /\
    game b' = game b /\ sq2_button b' = sq2_button b.
Proof.
  unfold in_check.
  destruct (piece_color b) as [[]|] eqn:Hpc.
  - destruct (in_check_loop black_pieces all_squares _) as [[r|] b1|b1] eqn:E.
    + discriminate.
    + pose proof (in_check_loop_frame black_pieces all_squares
                    (set_sq2 (find_king b (Img White King)) b)) as Hfr.
      rewrite E in Hfr. cbn [state_of] in Hfr. apply but_sq1_fields in Hfr.
      destruct Hfr as (Hg & _). apply game_fields in Hg.
      destruct Hg as (_ & _ & _ & _ & _ & _ & Hp & _). cbn in Hp.
      rewrite Hp, Hpc. discriminate.
    + intros H. injection H as <-. apply in_check_loop_raised in E.
      destruct E as (q & Hq & H1 & Hb1 & Hp & Ha & Hfr).
      apply but_sq1_fields in Hfr. destruct Hfr as (Hg & _ & H2 & H2b).
      exists White, q. repeat split; auto.
  - rewrite Hpc.
    destruct (in_check_loop white_pieces all_squares _) as [[r|] b1|b1] eqn:E.
    + discriminate.
    + discriminate.
    + intros H. injection H as <-. apply in_check_loop_raised in E.
      destruct E as (q & Hq & H1 & Hb1 & Hp & Ha & Hfr).
      apply but_sq1_fields in Hfr. destruct Hfr as (Hg & _ & H2 & H2b).
      exists Black, q. repeat split; auto.
  - rewrite Hpc. discriminate.
Qed.

(** Without a king of the mover's colour [in_check] cannot return while
    a piece of the other colour is on the board. *)
Lemma in_check_no_king (b : Board) (c : color) (q : square) :
  piece_color b = Some c -> find_king b (Img c King) = None ->
  In q all_squares -> in_pieces (opposite c) (squares b q) = true ->
  exists b', in_check b = Raised b'.
Proof.
  intros Hpc Hk Hq Hp. unfold in_check. rewrite Hpc.
  destruct c; rewrite Hk;
    destruct (in_check_loop_no_king _ all_squares
                (set_sq2 None b) q eq_refl Hq Hp) as (b' & E).
  - unfold black_pieces. cbn [opposite] in E. rewrite E. exists b'. reflexivity.
  - cbn iota. rewrite Hpc. unfold white_pieces. cbn [opposite] in E.
    rewrite E. exists b'. reflexivity.
Qed.

(** ** The invariant of a session *)

Lemma session_inv_same (b b' : Board) :
  game b' = game b -> sq1 b' = sq1 b -> sq1_button b' = sq1_button b ->
  session_inv b -> session_inv b'.
Proof.
  intros Hg H1 Hb1 [Hc Hcas Ht Hp]. apply game_fields in Hg.
  destruct Hg as (Hsq & Hbp & Htu & _ & Hca & _ & Hpc & _).
  split.
  - unfold coherent in *. congruence.
  - congruence.
  - intros c. unfold side_to_move. rewrite Hbp, Hpc, Htu. apply Ht.
  - intros c c' q. unfold find_king. rewrite Hbp, Hpc, Hb1, Hsq. apply Hp.
Qed.

Lemma session_inv_idle (b : Board) :
  coherent b -> castled b = false -> buttons_pressed b = 0 -> session_inv b.
Proof.
  intros Hc Hcas Hbp. split; auto; intros; lia.
Qed.

Lemma session_inv_no_color (b : Board) :
  coherent b -> castled b = false -> piece_color b = None -> session_inv b.
Proof.
  intros Hc Hcas Hpc. split; auto; intros; congruence.
Qed.

(** A piece of the colour that is selected for is under the cursor. *)
Lemma session_inv_own_piece (b : Board) (c : color) (q : square) :
  castled b = false -> sq1 b = Some q -> sq1_button b = Some q ->
  in_pieces c (squares b q) = true ->
  (piece_color b = Some c \/ piece_color b = None \/ buttons_pressed b <> 1) ->
  (buttons_pressed b = 1 -> piece_color b = Some c -> side_to_move b = c) ->
  session_inv b.
Proof.
  intros Hcas H1 Hb1 Hp Hpc Hside. split.
  - unfold coherent. congruence.
  - exact Hcas.
  - intros c0 Hbp Hc0. destruct Hpc as [Hpc | [Hpc | Hpc]]; try congruence.
    assert (c0 = c) by congruence. subst. auto.
  - intros c0 c' q0 Hbp Hc0 Hq0 Himg Hne.
    destruct Hpc as [Hpc | [Hpc | Hpc]]; try congruence.
    assert (c0 = c) by congruence. assert (q0 = q) by congruence. subst.
    apply in_pieces_iff in Hp. destruct Hp as [k Hk]. congruence.
Qed.

Lemma first_click_inv (button : square) (b : Board) :
  session_inv b -> buttons_pressed b = 0 ->
  session_inv (state_of (select_piece button b)).
Proof.
  intros Hinv Hbp. unfold select_piece.
  change (buttons_pressed (clear_highlights b)) with 
    (buttons_pressed b). rewrite Hbp. cbn [Z.eqb].
  change (squares (clear_highlights b)) with (squares b).
  change (turns (clear_highlights b)) with (turns b).
  match goal with
  | |- context [match ?sel with Some _ => _ | None => _ end] =>
      destruct sel as [c|] eqn:Esel
  end.
  2:{ cbn [state_of]. apply (session_inv_same b); auto. }
  assert (Hown : in_pieces c (squares b button) = true /\ side_to_move b = c).
  { unfold side_to_move.
    destruct (white_pieces (squares b button) && (turns b mod 2 =? 0)) eqn:Ew.
    - injection Esel as <-. apply andb_true_iff in Ew. destruct Ew as [Ew ->].
      auto.
    - destruct (black_pieces (squares b button) && (turns b mod 2 =? 1)) eqn:Eb;
        [|discriminate].
      injection Esel as <-. apply andb_true_iff in Eb. destruct Eb as [Eb Et].
      apply Z.eqb_eq in Et. rewrite Et. auto. }
  destruct Hown as [Hown Hside].
  match goal with
  | |- context [highlight_legal_moves ?x] =>
      pose proof (highlight_legal_moves_frame x) as (Hg & H1 & Hb1);
      destruct (highlight_legal_moves x) as [u b1|b1]
  end; cbn [state_of] in *.
  - pose proof (possible_moves_loop_frame all_squares [] b1) as (Hg2 & H12 & Hb12).
    assert (Hfin : forall f, game f = game b1 -> sq1 f = sq1 b1 ->
                             sq1_button f = sq1_button b1 -> session_inv f).
    { intros f Hgf H1f Hb1f. rewrite Hg in Hgf. apply game_fields in Hgf.
      cbn in Hgf. destruct Hgf as (Hsq & Hbpf & Htu & _ & Hca & _ & Hpc & _).
      apply (session_inv_own_piece f c button).
      - rewrite Hca. apply Hinv.
      - rewrite H1f, H1; [reflexivity | discriminate].
      - rewrite Hb1f, Hb1. reflexivity.
      - rewrite Hsq. exact Hown.
      - now left.
      - intros _ _. unfold side_to_move. rewrite Htu. exact Hside. }
    destruct (possible_moves_loop all_squares [] b1) as [u2 b2|b2];
      cbn [state_of] in *; apply Hfin; auto.
  - apply game_fields in Hg.
    cbn in Hg. destruct Hg as (Hsq & Hbpf & Htu & _ & Hca & _ & Hpc & _).
    apply (session_inv_own_piece b1 c button).
    + rewrite Hca. apply Hinv.
    + rewrite H1; [reflexivity | discriminate].
    + rewrite Hb1. reflexivity.
    + rewrite Hsq. exact Hown.
    + now left.
    + intros _ _. unfold side_to_move. rewrite Htu. exact Hside.
Qed.

Lemma complete_move_spec (p1 : square) (img : image) (p2 : square)
    (b : Board) :
  exists b',
    (complete_move p1 img p2 b = Done None b'
     \/ complete_move p1 img p2 b = Raised b') /\
    squares b' = squares b /\ turns b' = turns b + 1 /\
    buttons_pressed b' = 0 /\ castled b' = castled b /\
    sq1 b' = sq1 b /\ sq1_button b' = sq1_button b /\
    sq2 b' = sq2 b /\ sq2_button b' = sq2_button b /\
    piece_color b' = piece_color b /\
    move_history b' = move_history b ++ [(p1, p2, get_piece_name img)] /\
    (promos b' = promos b
     \/ (promos b' = promos b ++ [piece_color b] /\
         exists b2, sq2_button b = Some b2 /\
           ((squares b b2 = Img White Pawn /\ rank p2 = 8)
            \/ (squares b b2 = Img Black Pawn /\ rank p2 = 1)))).
Proof.
  unfold complete_move.
  set (f1 := fun b => if image_eqb img (Img White King)
                      then set_wk_moved true b else b).
  set (f2 := fun b => if image_eqb img (Img Black King)
                      then set_bk_moved true b else b).
  set (f3 := fun b => if image_eqb img (Img White Rook) && sq_eqb p1 (0, 1)
                      then set_wr1_moved true b else b).
  set (f4 := fun b => if image_eqb img (Img White Rook) && sq_eqb p1 (7, 1)
                      then set_wr2_moved true b else b).
  set (f5 := fun b => if image_eqb img (Img Black Rook) && sq_eqb p1 (0, 8)
                      then set_br1_moved true b else b).
  set (f6 := fun b => if image_eqb img (Img Black Rook) && sq_eqb p1 (7, 8)
                      then set_br2_moved true b else b).
  assert (Hf : forall b0,
             let b6 := f6 (f5 (f4 (f3 (f2 (f1 b0))))) in
             squares b6 = squares b0 /\ turns b6 = turns b0 /\
             buttons_pressed b6 = buttons_pressed b0 /\
             castled b6 = castled b0 /\ sq1 b6 = sq1 b0 /\
             sq1_button b6 = sq1_button b0 /\ sq2 b6 = sq2 b0 /\
             sq2_button b6 = sq2_button b0 /\
             piece_color b6 = piece_color b0 /\
             move_history b6 = move_history b0 /\ promos b6 = promos b0).
  { intros b0. subst f1 f2 f3 f4 f5 f6. cbv beta zeta.
    destruct (image_eqb img (Img White King)),
      (image_eqb img (Img Black King)),
      (image_eqb img (Img White Rook) && sq_eqb p1 (0, 1)),
      (image_eqb img (Img White Rook) && sq_eqb p1 (7, 1)),
      (image_eqb img (Img Black Rook) && sq_eqb p1 (0, 8)),
      (image_eqb img (Img Black Rook) && sq_eqb p1 (7, 8));
      cbn; repeat split; reflexivity. }
  change (if image_eqb img (Img White King) then set_wk_moved true b else b)
    with (f1 b).
  cbv zeta.
  change (if image_eqb img (Img Black King)
          then set_bk_moved true (f1 b) else f1 b) with (f2 (f1 b)).
  change (if image_eqb img (Img White Rook) && sq_eqb p1 (0, 1)
          then set_wr1_moved true (f2 (f1 b)) else f2 (f1 b))
    with (f3 (f2 (f1 b))).
  change (if image_eqb img (Img White Rook) && sq_eqb p1 (7, 1)
          then set_wr2_moved true (f3 (f2 (f1 b))) else f3 (f2 (f1 b)))
    with (f4 (f3 (f2 (f1 b)))).
  change (if image_eqb img (Img Black Rook) && sq_eqb p1 (0, 8)
          then set_br1_moved true (f4 (f3 (f2 (f1 b))))
          else f4 (f3 (f2 (f1 b))))
    with (f5 (f4 (f3 (f2 (f1 b))))).
  change (if image_eqb img (Img Black Rook) && sq_eqb p1 (7, 8)
          then set_br2_moved true (f5 (f4 (f3 (f2 (f1 b)))))
          else f5 (f4 (f3 (f2 (f1 b)))))
    with (f6 (f5 (f4 (f3 (f2 (f1 b)))))).
  destruct (Hf b) as (Hsq & Htu & Hbp & Hca & H1 & Hb1 & H2 & Hb2 & Hpc & Hmh & Hpr).
  set (b6 := f6 (f5 (f4 (f3 (f2 (f1 b)))))) in *. clearbody b6.
  cbn [sq2_button set_move_history set_turns set_buttons_pressed squares
       move_history turns piece_color].
  rewrite Hb2, Hsq, Hmh, Htu.
  destruct (sq2_button b) as [b2|] eqn:E2.
  - match goal with
    | |- context [if ?c then _ else _] => destruct c eqn:Ec
    end.
    + eexists. split; [left; reflexivity|]. cbn. rewrite Hpc, Hpr.
      repeat split; auto. right. split; [reflexivity|]. exists b2.
      split; [congruence|].
      apply orb_true_iff in Ec.
      destruct Ec as [Ec|Ec]; apply andb_true_iff in Ec; destruct Ec as [Ei Er];
        apply image_eqb_eq in Ei; apply Z.eqb_eq in Er; auto.
    + eexists. split; [left; reflexivity|]. cbn. repeat split; auto.
  - eexists. split; [right; reflexivity|]. cbn. repeat split; auto.
Qed.

Lemma find_king_same (b b' : Board) (img : image) :
  squares b' = squares b -> find_king b' img = find_king b img.
Proof. unfold find_king. now intros ->. Qed.

Lemma second_click_inv (button : square) (b : Board) :
  session_inv b -> session_inv (state_of (second_click button b)).
Proof.
  intros Hinv. pose proof Hinv as [Hco Hcas Hturn Hpawn].
  unfold second_click.
  set (b0 := set_sq2_button (Some button) (set_sq2 (Some button) b)).
  assert (Hinv0 : session_inv b0) by (apply (session_inv_same b); auto).
  change (sq1 b0) with (sq1 b).
  destruct (sq1 b) as [s1|] eqn:Hs1; [|exact Hinv0].
  destruct (sq_eqb button s1); cbn [state_of].
  { apply session_inv_idle; auto. }
  destruct (allowed_and_not_friendly b0) as [[]| |]; cbn [state_of];
    try exact Hinv0.
  2:{ apply session_inv_no_color; auto. }
  assert (Hb1 : sq1_button b0 = Some s1) by (cbn; rewrite <- Hco; exact Hs1).
  destruct (try_move_cases s1 button b0 Hb1)
    as [(b1 & Ein & ->) | [(b1 & _ & _ & Hg & Hc & ->) | (b1 & Hg & Hc & _ & _ & ->)]].
  - cbn [state_of]. apply in_check_raised in Ein.
    destruct Ein as (c & q & Hpc & Hq & H1 & Hq1 & Hp & H2 & Hr & Hg & H2b).
    set (moved := put_image s1 Blank (put_image button (squares b0 s1) b0))
      in *.
    apply game_fields in Hg. cbn in Hg.
    destruct Hg as (Hsq & Hbp & Htu & _ & Hca & _ & Hpc1 & _).
    split.
    + unfold coherent. congruence.
    + congruence.
    + intros c0. unfold side_to_move. rewrite Hbp, Htu, Hpc1. apply Hturn.
    + intros c0 c' q0 Hbp1 Hc0 Hq0 Himg Hne.
      cbn in Hpc. assert (c0 = c) by congruence.
      assert (q0 = q) by congruence. subst c0 q0.
      rewrite (find_king_same moved b1 (Img c King) Hsq).
      match type of H2 with
      | _ = ?fk => destruct fk as [ks|] eqn:Ek; [|reflexivity]
      end.
      exfalso.
      apply (allowed_pawn_returns b1 q ks q button c'); auto.
      apply in_all_squares. exact Hq.
  - cbn [state_of undo_move].
    apply session_inv_idle; [apply Hc; exact Hco | | reflexivity].
    apply game_fields in Hg. cbn in Hg. cbn.
    destruct Hg as (_ & _ & _ & _ & -> & _). exact Hcas.
  - destruct (complete_move_spec s1 (squares b0 s1) button b1)
      as (b2 & Hr & _ & _ & Hbp & Hca & H1 & Hb1' & _).
    assert (Hi2 : session_inv b2).
    { apply session_inv_idle; [ | | exact Hbp].
      - unfold coherent. rewrite H1, Hb1'. apply Hc. exact Hco.
      - apply game_fields in Hg. cbn in Hg.
        destruct Hg as (_ & _ & _ & _ & Hcc & _). congruence. }
    destruct Hr as [-> | ->]; cbn [state_of]; [|exact Hi2].
    apply session_inv_idle; [apply Hi2 | reflexivity | exact Hbp].
Qed.

Lemma select_piece_inv (button : square) (b : Board) :
  session_inv b -> session_inv (state_of (select_piece button b)).
Proof.
  intros Hinv.
  destruct (Z.eq_dec (buttons_pressed b) 0) as [H0|H0].
  { now apply first_click_inv. }
  unfold select_piece.
  change (buttons_pressed (clear_highlights b)) with (buttons_pressed b).
  apply Z.eqb_neq in H0. rewrite H0.
  destruct (buttons_pressed b =? 1).
  - apply second_click_inv. apply (session_inv_same b); auto.
  - cbn [state_of].
    apply session_inv_idle; [apply Hinv | apply Hinv | reflexivity].
Qed.

(** ** The random mover *)

Lemma ai_targets_movable (sq : square) (targets : list square)
    (acc movable : list (square * square)) (b b' : Board) :
  ai_targets sq targets acc b = Done movable b' ->
  forall m, In m movable ->
            In m acc \/ (fst m = sq /\ In (snd m) targets).
Proof.
  revert acc b. induction targets as [|t rest IH]; intros acc b;
    cbn [ai_targets].
  - intros H. injection H as <- _. auto.
  - destruct (allowed_and_not_friendly _) as [[]| |]; try discriminate;
      intros H m Hm; destruct (IH _ _ H m Hm) as [Ha | [Hf Hs]].
    + apply in_app_or in Ha. destruct Ha as [Ha | [<- | []]]; auto.
      right. split; [reflexivity | now left].
    + right. split; [exact Hf | now right].
    + now left.
    + right. split; [exact Hf | now right].
Qed.

Lemma ai_sources_spec (pieces : image -> bool) (keys : list square)
    (acc : list (square * square)) (b : Board) :
  game (state_of (ai_sources pieces keys acc b)) = game b /\
  ((sq1 (state_of (ai_sources pieces keys acc b)) = sq1 b /\
    sq1_button (state_of (ai_sources pieces keys acc b)) = sq1_button b)
   \/ exists sq,
       sq1 (state_of (ai_sources pieces keys acc b)) = Some sq /\
       sq1_button (state_of (ai_sources pieces keys acc b)) = Some sq /\
       pieces (squares b sq) = true) /\
  forall movable b',
    ai_sources pieces keys acc b = Done movable b' ->
    forall m, In m movable ->
              In m acc \/ (pieces (squares b (fst m)) = true /\
                           In (snd m) all_squares).
Proof.
  revert acc b. induction keys as [|sq rest IH]; intros acc b;
    cbn [ai_sources].
  - cbn [state_of]. split; [reflexivity|]. split; [now left|].
    intros movable b' H. injection H as <- _. auto.
  - destruct (pieces (squares b sq)) eqn:Ep; [|apply IH].
    pose proof (ai_targets_frame sq all_squares acc
                  (set_sq1_button (Some sq) (set_sq1 (Some sq) b)))
      as (Hg & H1 & Hb1).
    pose proof (ai_targets_movable sq all_squares acc) as Hmov.
    destruct (ai_targets sq all_squares acc _) as [mv b1|b1] eqn:Et;
      cbn [state_of] in *.
    + destruct (IH mv b1) as (Hg' & Hsel & Hmv).
      assert (Hsq : squares b1 = squares b).
      { apply game_fields in Hg. cbn in Hg. apply Hg. }
      split; [rewrite Hg'; exact Hg|]. split.
      * destruct Hsel as [[-> ->] | (sq' & -> & -> & Hp)].
        -- right. exists sq. rewrite H1, Hb1. auto.
        -- right. exists sq'. rewrite <- Hsq. auto.
      * intros movable b' H m Hm.
        destruct (Hmv movable b' H m Hm) as [Ha | [Hp Hs]].
        -- destruct (Hmov mv _ b1 Et m Ha) as [Ha' | [<- Hs]]; auto.
        -- right. rewrite <- Hsq. auto.
    + split; [exact Hg|]. split; [|discriminate].
      right. exists sq. rewrite H1, Hb1. auto.
Qed.

Lemma side_pieces (b : Board) :
  (if turns b mod 2 =? 1 then black_pieces else white_pieces)
  = in_pieces (side_to_move b).
Proof.
  unfold side_to_move, black_pieces, white_pieces.
  pose proof (Z.mod_pos_bound (turns b) 2 ltac:(lia)) as Hm.
  destruct (turns b mod 2 =? 1) eqn:E1; destruct (turns b mod 2 =? 0) eqn:E0;
    try reflexivity; rewrite ?Z.eqb_eq, ?Z.eqb_neq in *; lia.
Qed.

(** The random mover either leaves the game as it is (it raises while it
    enumerates, or finds nothing to choose from) or ends with a call of
    [select_piece] on a button of the board. *)
Lemma random_ai_move_cases (pick : nat) (b : Board) :
  session_inv b ->
  (game (state_of (random_ai_move pick b)) = game b /\
   session_inv (state_of (random_ai_move pick b)))
  \/ (exists b2 m2,
        session_inv b2 /\ game b2 = game b /\ on_board m2 = true /\
        random_ai_move pick b = select_piece m2 b2).
Proof.
  intros Hinv. pose proof Hinv as [Hco Hcas Hturn Hpawn].
  unfold random_ai_move.
  replace (match (if turns b mod 2 =? 1 then Black else White) with
           | White => white_pieces | Black => black_pieces end)
    with (in_pieces (side_to_move b))
    by (rewrite <- side_pieces; destruct (turns b mod 2 =? 1); reflexivity).
  destruct (ai_sources_spec (in_pieces (side_to_move b)) all_squares [] b)
    as (Hg & Hsel & Hmv).
  assert (Hother : forall f q,
            game f = game b -> sq1 f = Some q -> sq1_button f = Some q ->
            in_pieces (side_to_move b) (squares b q) = true ->
            session_inv f).
  { intros f q Hgf H1 Hb1 Hp. apply game_fields in Hgf.
    destruct Hgf as (Hsq & Hbp & Htu & _ & Hca & _ & Hpc & _).
    destruct (piece_color b) as [c|] eqn:Epc.
    - destruct (Z.eq_dec (buttons_pressed b) 1) as [E1|E1].
      + apply (session_inv_own_piece f (side_to_move b) q);
          [ congruence | exact H1 | exact Hb1 | rewrite Hsq; exact Hp
          | left; rewrite Hpc; f_equal; symmetry; now apply Hturn
          | intros _ _; unfold side_to_move; now rewrite Htu ].
      + apply (session_inv_own_piece f (side_to_move b) q);
          [ congruence | exact H1 | exact Hb1 | rewrite Hsq; exact Hp
          | right; right; congruence
          | intros ? _; congruence ].
    - apply session_inv_no_color; unfold coherent; congruence. }
  destruct (ai_sources (in_pieces (side_to_move b)) all_squares [] b)
    as [movable b1|b1] eqn:Es; cbn [state_of] in *.
  - destruct (random_choice pick movable) as [[m1 m2]|] eqn:Ech; cbn [state_of].
    + right.
      unfold random_choice in Ech. apply nth_error_In in Ech.
      destruct (Hmv movable b1 eq_refl (m1, m2) Ech) as [[] | [Hp Hm2]].
      eexists. exists m2. split; [|split; [|split; [|reflexivity]]].
      * apply (Hother _ m1); auto.
      * exact Hg.
      * apply in_all_squares. exact Hm2.
    + left. split; [exact Hg|].
      destruct Hsel as [[H1 Hb1] | (sq & H1 & Hb1 & Hp)].
      * apply (session_inv_same b); auto.
      * apply (Hother _ sq); auto.
  - left. split; [exact Hg|].
    destruct Hsel as [[H1 Hb1] | (sq & H1 & Hb1 & Hp)].
    + apply (session_inv_same b); auto.
    + apply (Hother _ sq); auto.
Qed.

Lemma random_ai_move_inv (pick : nat) (b : Board) :
  session_inv b -> session_inv (state_of (random_ai_move pick b)).
Proof.
  intros Hinv.
  destruct (random_ai_move_cases pick b Hinv)
    as [[_ H] | (b2 & m2 & Hi & _ & _ & ->)]; [exact H|].
  now apply select_piece_inv.
Qed.

(** ** Promotion dialogs, restart, and every event *)

Lemma find_first_upd_none (sqs : board) (img new : image) (q : square)
    (keys : list square) :
  new <> img -> find_first sqs img keys = None ->
  find_first (upd sqs q new) img keys = None.
Proof.
  intros Hne H. rewrite find_first_none in *. intros k Hk. unfold upd.
  destruct (sq_eqb k q); [exact Hne | now apply H].
Qed.

Lemma return_piece_inv (i : nat) (k : choice) (b : Board) :
  session_inv b -> session_inv (state_of (return_piece i k b)).
Proof.
  intros Hinv. pose proof Hinv as [Hco Hcas Hturn Hpawn].
  unfold return_piece.
  destruct (nth_error (promos b) i) as [[c|]|]; try exact Hinv.
  destruct (sq2 b) as [s2|]; [|exact Hinv]. cbn [state_of].
  split.
  - exact Hco.
  - exact Hcas.
  - exact Hturn.
  - intros c0 c' q Hbp Hpc Hq Himg Hne. cbn in *.
    unfold find_king. cbn. apply find_first_upd_none.
    + destruct k; discriminate.
    + unfold upd in Himg. destruct (sq_eqb q s2).
      * destruct k; discriminate.
      * exact (Hpawn c0 c' q Hbp Hpc Hq Himg Hne).
Qed.

Lemma restart_game_inv (b : Board) :
  session_inv b -> session_inv (restart_game b).
Proof.
  intros Hinv. apply session_inv_idle; [apply Hinv | reflexivity | reflexivity].
Qed.

Lemma step_inv (b : Board) (e : event) :
  session_inv b -> session_inv (step b e).
Proof.
  intros Hinv. unfold step, handle. destruct e.
  - now apply select_piece_inv.
  - now apply return_piece_inv.
  - cbn [state_of]. destruct Hinv as [Hc Hcas Ht Hp].
    split; [exact Hc | exact Hcas | exact Ht | exact Hp].
  - now apply random_ai_move_inv.
  - cbn [state_of]. now apply restart_game_inv.
Qed.

Lemma initial_board_inv : session_inv initial_board.
Proof. apply session_inv_idle; reflexivity. Qed.

Lemma reachable_inv (b : Board) : reachable b -> session_inv b.
Proof.
  induction 1; [exact initial_board_inv | now apply step_inv].
Qed.

Lemma run_inv (es : list event) (b : Board) :
  session_inv b -> session_inv (run es b).
Proof.
  revert b. induction es as [|e es IH]; intros b Hinv; cbn; [exact Hinv|].
  apply IH. now apply step_inv.
Qed.

Lemma reachable_run (es : list event) (b : Board) :
  reachable b -> Forall event_ok es -> reachable (run es b).
Proof.
  revert b. induction es as [|e es IH]; intros b Hb Hes; cbn; [exact Hb|].
  inversion Hes; subst. apply IH; [|assumption]. now constructor.
Qed.

(** ** Opening a promotion dialog *)

Lemma app_one_neq {A : Type} (l : list A) (x : A) : l <> l ++ [x].
Proof.
  intros H. apply (f_equal (@List.length A)) in H.
  rewrite length_app in H. cbn in H. lia.
Qed.

Lemma color_cases (c c' : color) : c' <> c -> c' = opposite c.
Proof. destruct c, c'; cbn; congruence. Qed.

Lemma second_click_promotion (button : square) (b b' : Board)
    (d : option color) :
  session_inv b -> on_board button = true -> buttons_pressed b = 1 ->
  second_click button b = Done tt b' -> promos b' = promos b ++ [d] ->
  buttons_pressed b' = 0 /\ turns b' = turns b + 1 /\
  sq2 b' = Some button /\
  exists pc,
    squares b' button = Img pc Pawn /\
    rank button = match pc with White => 8 | Black => 1 end /\
    forall c, d = Some c -> pc = c.
Proof.
  intros Hinv Hon Hbp1 Hsel Hpr.
  pose proof Hinv as [Hco Hcas Hturn Hpawn].
  unfold second_click in Hsel.
  set (b0 := set_sq2_button (Some button) (set_sq2 (Some button) b)) in *.
  change (sq1 b0) with (sq1 b) in Hsel.
  destruct (sq1 b) as [s1|] eqn:Hs1; [|discriminate].
  destruct (sq_eqb button s1) eqn:Eq;
    [injection Hsel as <-; now apply app_one_neq in Hpr|].
  apply sq_eqb_neq in Eq.
  destruct (allowed_and_not_friendly b0) as [[]| |]; try discriminate.
  2:{ injection Hsel as <-. now apply app_one_neq in Hpr. }
  assert (Hb1 : sq1_button b0 = Some s1) by (cbn; rewrite <- Hco; exact Hs1).
  destruct (try_move_cases s1 button b0 Hb1)
    as [(b1 & _ & Et) | [(b1 & _ & _ & Hg & _ & Et) | (b1 & Hg & _ & H2b & Hchk & Et)]];
    rewrite Et in Hsel; clear Et.
  - discriminate.
  - unfold undo_move in Hsel. injection Hsel as <-.
    apply game_fields in Hg. cbn in Hg. cbn in Hpr.
    destruct Hg as (_ & _ & _ & _ & _ & _ & _ & Hp). rewrite Hp in Hpr.
    now apply app_one_neq in Hpr.
  - destruct Hchk as [[-> Hchk] | Hc]; [|cbn in Hc; congruence].
    set (moved := put_image s1 Blank (put_image button (squares b0 s1) b0)) in *.
    destruct (complete_move_spec s1 (squares b0 s1) button moved)
      as (b2 & Hr & Hsq & Htu & Hbp & _ & _ & _ & H2 & _ & Hpc & _ & Hprom).
    assert (Hb' : b' = reset_state b2).
    { destruct Hr as [Hr|Hr]; rewrite Hr in Hsel; [|discriminate].
      now injection Hsel as <-. }
    subst b'. cbn [reset_state promos set_castled set_highlighted_squares
                     set_piece_color] in Hpr.
    destruct Hprom as [Hprom | (Hprom & bq & Hbq & Hpawn')].
    { rewrite Hprom in Hpr. cbn in Hpr. now apply app_one_neq in Hpr. }
    rewrite Hprom in Hpr. cbn in Hpr. apply app_inj_tail in Hpr.
    destruct Hpr as [_ Hd].
    cbn in Hbq. injection Hbq as <-.
    assert (Hmv : squares moved button = squares b s1).
    { cbn. rewrite upd_other by exact Eq. apply upd_same. }
    cbn [reset_state buttons_pressed turns sq2 squares set_castled
           set_highlighted_squares set_piece_color].
    split; [exact Hbp|]. split; [rewrite Htu; reflexivity|].
    split; [rewrite H2; reflexivity|].
    rewrite Hsq, Hmv. rewrite Hmv in Hpawn'.
    assert (Hex : exists pc, squares b s1 = Img pc Pawn /\
                   rank button = match pc with White => 8 | Black => 1 end).
    { destruct Hpawn' as [[Hi Hr8] | [Hi Hr1]]; eauto. }
    destruct Hex as (pc & Hi & Hrk). exists pc. split; [exact Hi|].
    split; [exact Hrk|]. intros c Hc. subst d. cbn in Hc.
    destruct (color_eqb pc c) eqn:Ecol;
      [destruct pc, c; cbn in Ecol; congruence|].
    exfalso.
    assert (Hne : pc <> c) by (intros ->; destruct c; discriminate).
    assert (Hk : find_king b (Img c King) = None).
    { apply (Hpawn c pc s1); auto; rewrite <- Hco; exact Hs1. }
    destruct (in_check_no_king moved c button) as (bx & Hx).
    + exact Hc.
    + unfold find_king in *. cbn. rewrite Hi.
      apply find_first_upd_none; [discriminate|].
      apply find_first_upd_none; [discriminate | exact Hk].
    + apply in_all_squares. exact Hon.
    + rewrite Hmv, Hi. cbn. rewrite (color_cases c pc Hne).
      destruct c; reflexivity.
    + congruence.
Qed.

(** A click opens a dialog only when it commits a pawn move onto the last
    rank, and the dialog is built for that pawn's colour. *)
Lemma promotion_opened (button : square) (b b' : Board) (d : option color) :
  session_inv b -> on_board button = true ->
  select_piece button b = Done tt b' -> promos b' = promos b ++ [d] ->
  buttons_pressed b' = 0 /\ turns b' = turns b + 1 /\
  sq2 b' = Some button /\
  exists pc,
    squares b' button = Img pc Pawn /\
    rank button = match pc with White => 8 | Black => 1 end /\
    forall c, d = Some c -> pc = c.
Proof.
  intros Hinv Hon Hsel Hpr.
  destruct (Z.eq_dec (buttons_pressed b) 0) as [H0|H0].
  { pose proof (first_click_frame button b H0) as Hp. rewrite Hsel in Hp.
    cbn [state_of] in Hp. apply position_fields in Hp.
    destruct Hp as (_ & _ & _ & _ & _ & Hp). rewrite Hp in Hpr.
    now apply app_one_neq in Hpr. }
  unfold select_piece in Hsel.
  change (buttons_pressed (clear_highlights b)) with (buttons_pressed b) in Hsel.
  apply Z.eqb_neq in H0. rewrite H0 in Hsel.
  destruct (buttons_pressed b =? 1) eqn:Hbp1;
    [|injection Hsel as <-; now apply app_one_neq in Hpr].
  apply Z.eqb_eq in Hbp1.
  apply (second_click_promotion button (clear_highlights b) b' d); auto.
  apply (session_inv_same b); auto.
Qed.

(** ** Open dialogs are never read *)

Lemma highlight_loop_dialogs (keys : list square) (b : Board) :
  outcome_without_dialogs (highlight_loop keys b)
  = outcome_without_dialogs (highlight_loop keys (without_dialogs b)).
Proof.
  revert b. induction keys as [|sq rest IH]; intros b; cbn [highlight_loop].
  - reflexivity.
  - change (allowed_and_not_friendly
              (set_sq2_button (Some sq) (set_sq2 (Some sq) (without_dialogs b))))
      with (allowed_and_not_friendly
              (set_sq2_button (Some sq) (set_sq2 (Some sq) b))).
    destruct (allowed_and_not_friendly _) as [[]| |]; try reflexivity.
    + rewrite IH. reflexivity.
    + rewrite IH. reflexivity.
Qed.

Lemma possible_moves_loop_dialogs (keys : list square) (acc : list square)
    (b : Board) :
  outcome_without_dialogs (possible_moves_loop keys acc b)
  = outcome_without_dialogs (possible_moves_loop keys acc (without_dialogs b)).
Proof.
  revert acc b. induction keys as [|sq rest IH]; intros acc b;
    cbn [possible_moves_loop].
  - reflexivity.
  - change (allowed_and_not_friendly
              (set_sq2_button (Some sq) (set_sq2 (Some sq) (without_dialogs b))))
      with (allowed_and_not_friendly
              (set_sq2_button (Some sq) (set_sq2 (Some sq) b))).
    destruct (allowed_and_not_friendly _) as [[]| |]; try reflexivity.
    + rewrite IH. reflexivity.
    + rewrite IH. reflexivity.
Qed.

Lemma in_check_loop_dialogs (pieces : image -> bool) (keys : list square)
    (b : Board) :
  outcome_without_dialogs (in_check_loop pieces keys b)
  = outcome_without_dialogs (in_check_loop pieces keys (without_dialogs b)).
Proof.
  revert b. induction keys as [|key rest IH]; intros b; cbn [in_check_loop].
  - reflexivity.
  - change (squares (set_sq1_button (Some key)
                       (set_sq1 (Some key) (without_dialogs b))) key)
      with (squares (set_sq1_button (Some key) (set_sq1 (Some key) b)) key).
    destruct (pieces _).
    + change (allowed_piece_move
                (set_sq1_button (Some key)
                   (set_sq1 (Some key) (without_dialogs b))))
        with (allowed_piece_move
                (set_sq1_button (Some key) (set_sq1 (Some key) b))).
      destruct (allowed_piece_move _) as [[]| |]; try reflexivity.
      rewrite IH. reflexivity.
    + rewrite IH. reflexivity.
Qed.

Lemma outcome_eq_cases {A : Type} (r1 r2 : res A) :
  outcome_without_dialogs r1 = outcome_without_dialogs r2 ->
  (exists a b1 b2, r1 = Done a b1 /\ r2 = Done a b2 /\
                   without_dialogs b1 = without_dialogs b2)
  \/ (exists b1 b2, r1 = Raised b1 /\ r2 = Raised b2 /\
                    without_dialogs b1 = without_dialogs b2).
Proof.
  destruct r1 as [a1 b1|b1], r2 as [a2 b2|b2];
    cbn [outcome_without_dialogs]; intros H; try discriminate.
  - left. exists a2, b1, b2. repeat split; congruence.
  - right. exists b1, b2. repeat split; congruence.
Qed.

Lemma in_check_dialogs (b : Board) :
  outcome_without_dialogs (in_check b)
  = outcome_without_dialogs (in_check (without_dialogs b)).
Proof.
  unfold in_check.
  change (piece_color (without_dialogs b)) with (piece_color b).
  change (sq1 (without_dialogs b)) with (sq1 b).
  change (sq1_button (without_dialogs b)) with (sq1_button b).
  change (sq2 (without_dialogs b)) with (sq2 b).
  change (sq2_button (without_dialogs b)) with (sq2_button b).
  assert (Hloop : forall pieces img c,
            piece_color b = Some c ->
            let r1 := in_check_loop pieces all_squares
                        (set_sq2 (find_king b img) b) in
            let r2 := in_check_loop pieces all_squares
                        (set_sq2 (find_king (without_dialogs b) img)
                           (without_dialogs b)) in
            (exists a b1 b2, r1 = Done a b1 /\ r2 = Done a b2 /\
                             without_dialogs b1 = without_dialogs b2 /\
                             piece_color b1 = Some c /\ piece_color b2 = Some c)
            \/ (exists b1 b2, r1 = Raised b1 /\ r2 = Raised b2 /\
                              without_dialogs b1 = without_dialogs b2)).
  { intros pieces img c Hpc r1 r2.
    pose proof (in_check_loop_dialogs pieces all_squares
                  (set_sq2 (find_king b img) b)) as H.
    apply outcome_eq_cases in H.
    destruct H as [(a & b1 & b2 & E1 & E2 & Hw) | (b1 & b2 & E1 & E2 & Hw)].
    - left. exists a, b1, b2. repeat split; auto.
      + pose proof (in_check_loop_frame pieces all_squares
                      (set_sq2 (find_king b img) b)) as Hf.
        rewrite E1 in Hf. apply but_sq1_fields in Hf. destruct Hf as (Hg & _).
        apply game_fields in Hg. cbn in Hg.
        destruct Hg as (_ & _ & _ & _ & _ & _ & -> & _). exact Hpc.
      + pose proof (in_check_loop_frame pieces all_squares
                      (without_dialogs (set_sq2 (find_king b img) b))) as Hf.
        rewrite E2 in Hf. apply but_sq1_fields in Hf. destruct Hf as (Hg & _).
        apply game_fields in Hg. cbn in Hg.
        destruct Hg as (_ & _ & _ & _ & _ & _ & -> & _). exact Hpc.
    - right. exists b1, b2. auto. }
  assert (Hrestore : forall b1 b2,
            without_dialogs b1 = without_dialogs b2 ->
            without_dialogs
              (set_sq2_button (sq2_button b)
                 (set_sq2 (sq2 b)
                    (set_sq1_button (sq1_button b) (set_sq1 (sq1 b) b1))))
            = without_dialogs
                (set_sq2_button (sq2_button b)
                   (set_sq2 (sq2 b)
                      (set_sq1_button (sq1_button b) (set_sq1 (sq1 b) b2))))).
  { intros b1 b2 Hw.
    change (set_sq2_button (sq2_button b)
              (set_sq2 (sq2 b)
                 (set_sq1_button (sq1_button b)
                    (set_sq1 (sq1 b) (without_dialogs b1))))
            = set_sq2_button (sq2_button b)
                (set_sq2 (sq2 b)
                   (set_sq1_button (sq1_button b)
                      (set_sq1 (sq1 b) (without_dialogs b2))))).
    now rewrite Hw. }
  destruct (piece_color b) as [[]|] eqn:Hpc.
  - destruct (Hloop black_pieces (Img White King) White eq_refl)
      as [(a & b1 & b2 & -> & -> & Hw & Hp1 & Hp2) | (b1 & b2 & -> & -> & Hw)].
    + destruct a as [r|]; cbv beta iota zeta.
      * cbn [outcome_without_dialogs]. now rewrite Hw.
      * rewrite Hp1, Hp2. cbn [outcome_without_dialogs]. f_equal.
        now apply Hrestore.
    + cbv beta iota zeta. cbn [outcome_without_dialogs]. now rewrite Hw.
  - cbv beta iota zeta.
    change (piece_color (without_dialogs b)) with (piece_color b).
    rewrite !Hpc.
    destruct (Hloop white_pieces (Img Black King) Black eq_refl)
      as [(a & b1 & b2 & -> & -> & Hw & Hp1 & Hp2) | (b1 & b2 & -> & -> & Hw)].
    + destruct a as [r|]; cbv beta iota zeta.
      * cbn [outcome_without_dialogs]. now rewrite Hw.
      * cbn [outcome_without_dialogs]. f_equal. now apply Hrestore.
    + cbv beta iota zeta. cbn [outcome_without_dialogs]. now rewrite Hw.
  - cbv beta iota zeta.
    change (piece_color (without_dialogs b)) with (piece_color b).
    rewrite !Hpc. reflexivity.
Qed.

Lemma complete_move_dialogs (p1 : square) (img : image) (p2 : square)
    (b : Board) :
  outcome_without_dialogs (complete_move p1 img p2 b)
  = outcome_without_dialogs (complete_move p1 img p2 (without_dialogs b)).
Proof.
  unfold complete_move.
  destruct (image_eqb img (Img White King)),
    (image_eqb img (Img Black King)),
    (image_eqb img (Img White Rook) && sq_eqb p1 (0, 1)),
    (image_eqb img (Img White Rook) && sq_eqb p1 (7, 1)),
    (image_eqb img (Img Black Rook) && sq_eqb p1 (0, 8)),
    (image_eqb img (Img Black Rook) && sq_eqb p1 (7, 8));
    cbn; destruct (sq2_button b); try reflexivity;
    match goal with
    | |- context [if ?c then _ else _] => destruct c
    end; reflexivity.
Qed.

Lemma related_outcomes {A : Type} (F : Board -> res A) :
  (forall b, outcome_without_dialogs (F b)
             = outcome_without_dialogs (F (without_dialogs b))) ->
  forall b1 b2, without_dialogs b1 = without_dialogs b2 ->
                outcome_without_dialogs (F b1) = outcome_without_dialogs (F b2).
Proof. intros H b1 b2 Hw. rewrite (H b1), (H b2), Hw. reflexivity. Qed.

Lemma try_move_dialogs (s1 button : square) (b : Board) :
  outcome_without_dialogs (try_move s1 button b)
  = outcome_without_dialogs (try_move s1 button (without_dialogs b)).
Proof.
  unfold try_move.
  change (sq1_button (without_dialogs b)) with (sq1_button b).
  destruct (sq1_button b) as [b1|]; [|reflexivity].
  change (squares (without_dialogs b)) with (squares b).
  set (moved := put_image s1 Blank (put_image button (squares b b1) b)).
  change (put_image s1 Blank
            (put_image button (squares b b1) (without_dialogs b)))
    with (without_dialogs moved).
  pose proof (in_check_dialogs moved) as H. apply outcome_eq_cases in H.
  destruct H as [(chk & x1 & x2 & -> & -> & Hw) | (x1 & x2 & -> & -> & Hw)].
  - assert (Hc : castled x1 = castled x2)
      by exact (f_equal castled Hw).
    rewrite Hc. destruct (chk && negb (castled x2)).
    + unfold undo_move. cbn [outcome_without_dialogs].
      change (Done (Some tt)
                (set_buttons_pressed 0
                   (put_image s1 (squares b b1)
                      (put_image button (squares b button)
                         (without_dialogs x1))))
              = Done (Some tt)
                  (set_buttons_pressed 0
                     (put_image s1 (squares b b1)
                        (put_image button (squares b button)
                           (without_dialogs x2))))).
      now rewrite Hw.
    + apply (related_outcomes
               (complete_move s1 (squares b b1) button)
               (complete_move_dialogs s1 (squares b b1) button)).
      exact Hw.
  - cbn [outcome_without_dialogs]. now rewrite Hw.
Qed.

Lemma second_click_dialogs (button : square) (b : Board) :
  outcome_without_dialogs (second_click button b)
  = outcome_without_dialogs (second_click button (without_dialogs b)).
Proof.
  unfold second_click.
  change (sq1 (set_sq2_button (Some button)
                 (set_sq2 (Some button) (without_dialogs b))))
    with (sq1 (set_sq2_button (Some button) (set_sq2 (Some button) b))).
  destruct (sq1 _) as [s1|]; [|reflexivity].
  destruct (sq_eqb button s1); [reflexivity|].
  change (allowed_and_not_friendly
            (set_sq2_button (Some button)
               (set_sq2 (Some button) (without_dialogs b))))
    with (allowed_and_not_friendly
            (set_sq2_button (Some button) (set_sq2 (Some button) b))).
  destruct (allowed_and_not_friendly _) as [[]| |]; try reflexivity.
  pose proof (try_move_dialogs s1 button
                (set_sq2_button (Some button) (set_sq2 (Some button) b)))
    as H.
  apply outcome_eq_cases in H.
  change (without_dialogs
            (set_sq2_button (Some button) (set_sq2 (Some button) b)))
    with (set_sq2_button (Some button)
            (set_sq2 (Some button) (without_dialogs b))) in H.
  destruct H as [(r & x1 & x2 & -> & -> & Hw) | (x1 & x2 & -> & -> & Hw)].
  - destruct r as [u|]; cbn [outcome_without_dialogs].
    + now rewrite Hw.
    + change (Done tt (reset_state (without_dialogs x1))
              = Done tt (reset_state (without_dialogs x2))).
      now rewrite Hw.
  - cbn [outcome_without_dialogs]. now rewrite Hw.
Qed.

Lemma highlight_legal_moves_dialogs (b : Board) :
  outcome_without_dialogs (highlight_legal_moves b)
  = outcome_without_dialogs (highlight_legal_moves (without_dialogs b)).
Proof.
  unfold highlight_legal_moves.
  change (sq1_button (clear_highlights (without_dialogs b)))
    with (sq1_button (clear_highlights b)).
  destruct (sq1_button (clear_highlights b)) as [btn|]; [|reflexivity].
  apply (highlight_loop_dialogs all_squares
           (set_sq1 (Some btn) (clear_highlights b))).
Qed.

Lemma select_piece_dialogs (button : square) (b : Board) :
  outcome_without_dialogs (select_piece button b)
  = outcome_without_dialogs (select_piece button (without_dialogs b)).
Proof.
  set (rest := fun x : Board =>
         match highlight_legal_moves x with
         | Raised b => Raised b
         | Done _ b =>
             match possible_moves_loop all_squares [] b with
             | Raised b => Raised b
             | Done _ b => Done tt b
             end
         end).
  assert (Hrest : forall x, outcome_without_dialogs (rest x)
                            = outcome_without_dialogs (rest (without_dialogs x))).
  { intros x. subst rest. cbv beta.
    pose proof (highlight_legal_moves_dialogs x) as H.
    apply outcome_eq_cases in H.
    destruct H as [(r & x1 & x2 & -> & -> & Hw) | (x1 & x2 & -> & -> & Hw)].
    - pose proof (related_outcomes (possible_moves_loop all_squares [])
                    (possible_moves_loop_dialogs all_squares []) x1 x2 Hw)
        as H.
      apply outcome_eq_cases in H.
      destruct H as [(r' & y1 & y2 & -> & -> & Hw') | (y1 & y2 & -> & -> & Hw')];
        cbn [outcome_without_dialogs]; now rewrite Hw'.
    - cbn [outcome_without_dialogs]. now rewrite Hw. }
  unfold select_piece.
  change (buttons_pressed (clear_highlights (without_dialogs b)))
    with (buttons_pressed (clear_highlights b)).
  change (squares (clear_highlights (without_dialogs b)))
    with (squares (clear_highlights b)).
  change (turns (clear_highlights (without_dialogs b)))
    with (turns (clear_highlights b)).
  destruct (buttons_pressed (clear_highlights b) =? 0).
  - match goal with
    | |- context [match ?sel with Some _ => _ | None => _ end] =>
        destruct sel as [c|]
    end; [|reflexivity].
    exact (Hrest (set_buttons_pressed 1
                    (set_sq1_button (Some button)
                       (set_sq1 (Some button)
                          (set_piece_color (Some c) (clear_highlights b)))))).
  - destruct (buttons_pressed (clear_highlights b) =? 1); [|reflexivity].
    apply (second_click_dialogs button (clear_highlights b)).
Qed.

(** ** Promotion *)

Lemma remove_nth_last {A : Type} (l : list A) (x : A) :
  remove_nth (List.length l) (l ++ [x]) = l.
Proof. induction l as [|y l IH]; cbn; [reflexivity | now rewrite IH]. Qed.

Lemma nth_error_last {A : Type} (l : list A) (x : A) :
  nth_error (l ++ [x]) (List.length l) = Some x.
Proof. induction l as [|y l IH]; cbn; [reflexivity | exact IH]. Qed.

Lemma remove_nth_length {A : Type} (i : nat) (l : list A) (x : A) :
  nth_error l i = Some x ->
  S (List.length (remove_nth i l)) = List.length l.
Proof.
  revert i. induction l as [|y l IH]; intros [|i]; cbn; try discriminate.
  - reflexivity.
  - intros H. now rewrite (IH i H).
Qed.

Lemma remove_nth_le {A : Type} (i : nat) (l : list A) :
  (List.length (remove_nth i l) <= List.length l)%nat.
Proof.
  revert i. induction l as [|y l IH]; intros [|i]; cbn; auto.
  apply le_n_S. apply IH.
Qed.

Lemma choice_kind_promotion (k : choice) : promotion_kind (choice_kind k).
Proof. unfold promotion_kind. destruct k; cbn; auto. Qed.

(** C4 (as amended).  When a click commits a pawn move onto the last rank
    and a dialog with buttons is opened, the move is committed, the
    session is idle and the pawn on the promotion square has the dialog's
    colour; a click made while the dialog is open does, up to the list of
    dialogs, exactly what it does when no dialog is open (nothing is
    rejected because of the dialog); and a choice made in the dialog
    before any other event replaces the pawn on the promotion square by
    the chosen kind in the dialog's colour, touches no other square,
    closes the dialog and leaves the session idle. *)
Theorem promotion_dialog_resolves (button : square) (b b' : Board)
    (c : color) :
  reachable b -> on_board button = true ->
  select_piece button b = Done tt b' -> promos b' = promos b ++ [Some c] ->
  (turns b' = turns b + 1 /\ buttons_pressed b' = 0 /\
   squares b' button = Img c Pawn /\
   rank button = match c with White => 8 | Black => 1 end) /\
  (forall next,
     outcome_without_dialogs (select_piece next b')
     = outcome_without_dialogs (select_piece next (without_dialogs b'))) /\
  (forall k, exists b'',
     return_piece (List.length (promos b)) k b' = Done tt b'' /\
     squares b'' button = Img c (choice_kind k) /\
     (forall q, q <> button -> squares b'' q = squares b' q) /\
     buttons_pressed b'' = 0 /\ turns b'' = turns b' /\
     promos b'' = promos b).
Proof.
  intros Hreach Hon Hsel Hpr.
  destruct (promotion_opened button b b' (Some c) (reachable_inv b Hreach)
              Hon Hsel Hpr)
    as (Hbp & Htu & H2 & pc & Hi & Hrk & Hc).
  rewrite (Hc c eq_refl) in Hi, Hrk.
  split; [auto|]. split; [intros next; apply select_piece_dialogs|].
  intros k. unfold return_piece. rewrite Hpr, nth_error_last, H2.
  eexists. split; [reflexivity|]. cbn. rewrite Hpr, remove_nth_last.
  repeat split; auto.
  - apply upd_same.
  - intros q Hq. now apply upd_other.
Qed.

Lemma select_piece_promos (button : square) (b : Board) :
  coherent b ->
  promos (state_of (select_piece button b)) = promos b
  \/ exists d, promos (state_of (select_piece button b)) = promos b ++ [d].
Proof.
  intros Hco.
  destruct (Z.eq_dec (buttons_pressed b) 0) as [H0|H0].
  { left. pose proof (first_click_frame button b H0) as Hp.
    apply position_fields in Hp. apply Hp. }
  unfold select_piece.
  change (buttons_pressed (clear_highlights b)) with (buttons_pressed b).
  apply Z.eqb_neq in H0. rewrite H0.
  destruct (buttons_pressed b =? 1); [|now left].
  unfold second_click.
  cbn [sq1 set_sq2 set_sq2_button clear_highlights set_highlighted_squares].
  destruct (sq1 b) as [s1|] eqn:Hs1; [|now left].
  destruct (sq_eqb button s1); [now left|].
  destruct (allowed_and_not_friendly _) as [[]| |]; try (now left).
  match goal with
  | |- context [try_move s1 button ?x] =>
      destruct (try_move_cases s1 button x) as
        [(b1 & Ein & Et) | [(b1 & _ & _ & Hg & _ & Et) | (b1 & Hg & _ & _ & _ & Et)]];
      [cbn; rewrite <- Hco; exact Hs1 | | | ]; rewrite Et; clear Et
  end.
  - apply in_check_raised in Ein.
    destruct Ein as (c & q & _ & _ & _ & _ & _ & _ & _ & Hg & _).
    apply game_fields in Hg. left. cbn [state_of]. apply Hg.
  - apply game_fields in Hg. left. cbn. apply Hg.
  - match goal with
    | |- context [complete_move ?a ?i ?x ?d] =>
        destruct (complete_move_spec a i x d)
          as (b2 & Hr & _ & _ & _ & _ & _ & _ & _ & _ & _ & _ & Hp)
    end.
    apply game_fields in Hg.
    destruct Hg as (_ & _ & _ & _ & _ & _ & _ & Hp1). cbn in Hp1.
    destruct Hr as [-> | ->]; cbn [state_of reset_state promos set_castled
      set_highlighted_squares set_piece_color];
      (destruct Hp as [-> | (-> & _)]; [left | right; eexists];
       rewrite Hp1; reflexivity).
Qed.

(** The list of open dialogs changes only by a dialog being opened at its
    end or by one dialog being closed. *)
Lemma dialogs_open_or_close (b : Board) (e : event) :
  session_inv b ->
  promos (step b e) = promos b
  \/ (exists d, promos (step b e) = promos b ++ [d])
  \/ (exists i, promos (step b e) = remove_nth i (promos b)).
Proof.
  intros Hinv. unfold step, handle. destruct e as [button|i k|i|pick|].
  - destruct (select_piece_promos button b (inv_coherent b Hinv)); auto.
  - unfold return_piece.
    destruct (nth_error (promos b) i) as [[c|]|]; auto.
    destruct (sq2 b); auto. right. right. now exists i.
  - right. right. now exists i.
  - destruct (random_ai_move_cases pick b Hinv)
      as [[Hg _] | (b2 & m2 & Hi2 & Hg & _ & ->)].
    + left. apply game_fields in Hg. apply Hg.
    + apply game_fields in Hg.
      destruct Hg as (_ & _ & _ & _ & _ & _ & _ & Hp). rewrite <- Hp.
      destruct (select_piece_promos m2 b2 (inv_coherent b2 Hi2)); auto.
  - now left.
Qed.

(** C10.  In every state a session can reach: a dialog that an event opens
    with buttons is built for the colour of the pawn that has just been
    moved to the last rank; pressing a button of an open dialog either
    leaves the board as it is or writes, on one square, a Knight, Bishop,
    Rook or Queen of the colour the dialog was built for; and between the
    two the dialog keeps its colour, since an event only opens a dialog
    at the end of the list or closes one. *)
Theorem promotion_installs_own_color (b : Board) :
  reachable b ->
  (forall e b' c,
     event_ok e -> handle e b = Done tt b' ->
     promos b' = promos b ++ [Some c] ->
     exists to, sq2 b' = Some to /\ squares b' to = Img c Pawn) /\
  (forall i k b',
     return_piece i k b = Done tt b' ->
     (forall q, squares b' q = squares b q)
     \/ exists c to,
          nth_error (promos b) i = Some (Some c) /\ sq2 b = Some to /\
          squares b' to = Img c (choice_kind k) /\
          promotion_kind (choice_kind k) /\
          forall q, q <> to -> squares b' q = squares b q) /\
  (forall e,
     promos (step b e) = promos b
     \/ (exists d, promos (step b e) = promos b ++ [d])
     \/ (exists i, promos (step b e) = remove_nth i (promos b))).
Proof.
  intros Hreach. pose proof (reachable_inv b Hreach) as Hinv.
  split; [|split].
  3:{ intros e. now apply dialogs_open_or_close. }
  - intros e b' c Hok He Hpr. destruct e as [button|i k|i|pick|]; cbn in He.
    + destruct (promotion_opened button b b' (Some c) Hinv Hok He Hpr)
        as (_ & _ & H2 & pc & Hi & _ & Hc).
      exists button. rewrite <- (Hc c eq_refl). auto.
    + exfalso. unfold return_piece in He.
      destruct (nth_error (promos b) i) as [[c0|]|] eqn:En;
        try (injection He as <-; now apply app_one_neq in Hpr).
      destruct (sq2 b); [|discriminate]. injection He as <-. cbn in Hpr.
      apply remove_nth_length in En. rewrite Hpr, length_app in En.
      cbn in En. lia.
    + exfalso. injection He as <-. cbn in Hpr.
      pose proof (remove_nth_le i (promos b)) as Hle.
      rewrite Hpr, length_app in Hle. cbn in Hle. lia.
    + destruct (random_ai_move_cases pick b Hinv)
        as [[Hg _] | (b2 & m2 & Hi2 & Hg & Hm2 & E)].
      * exfalso. rewrite He in Hg. cbn in Hg. apply game_fields in Hg.
        destruct Hg as (_ & _ & _ & _ & _ & _ & _ & Hp). rewrite Hp in Hpr.
        now apply app_one_neq in Hpr.
      * rewrite E in He. apply game_fields in Hg.
        destruct Hg as (_ & _ & _ & _ & _ & _ & _ & Hp). rewrite <- Hp in Hpr.
        destruct (promotion_opened m2 b2 b' (Some c) Hi2 Hm2 He Hpr)
          as (_ & _ & H2 & pc & Hi & _ & Hc).
        exists m2. rewrite <- (Hc c eq_refl). auto.
    + exfalso. injection He as <-. cbn in Hpr. now apply app_one_neq in Hpr.
  - intros i k b' He. unfold return_piece in He.
    destruct (nth_error (promos b) i) as [[c0|]|] eqn:En;
      try (injection He as <-; now left).
    destruct (sq2 b) as [to|] eqn:E2; [|discriminate]. injection He as <-.
    right. exists c0, to. cbn. repeat split; auto.
    + apply upd_same.
    + apply choice_kind_promotion.
    + intros q Hq. now apply upd_other.
Qed.

(** ** The check detector where it returns *)

Lemma clear_path_ext (b b' : Board) (piece : kind) :
  sq1 b' = sq1 b -> sq2 b' = sq2 b -> squares b' = squares b ->
  clear_path b' piece = clear_path b piece.
Proof. unfold clear_path. intros -> -> ->. reflexivity. Qed.

Lemma find_first_some (sqs : board) (img : image) (keys : list square)
    (q : square) :
  find_first sqs img keys = Some q -> In q keys /\ sqs q = img.
Proof.
  induction keys as [|key rest IH]; cbn; [discriminate|].
  destruct (image_eqb (sqs key) img) eqn:E.
  - intros H. injection H as <-. apply image_eqb_eq in E. auto.
  - intros H. destruct (IH H). auto.
Qed.

(** In [in_check] the button [sq2_button] is still the destination of the
    move, not the king's button.  Both show a piece of the mover's colour,
    and the engine asks no more of that image. *)
Lemma allowed_in_check_context (b : Board) (key ks d : square) (c : color)
    (k : kind) :
  sq1 b = Some key -> sq1_button b = Some key ->
  sq2 b = Some ks -> sq2_button b = Some d ->
  squares b ks = Img c King -> squares b d = Img c k ->
  allowed_piece_move b = isPseudoLegal (squares b) key ks.
Proof.
  intros H1 Hb1 H2 Hb2 Hks Hd.
  unfold isPseudoLegal, allowed_piece_move.
  rewrite !(clear_path_ext b (probe (squares b) key ks))
    by (cbn; auto).
  cbn [probe sq1 sq2 sq1_button sq2_button squares].
  rewrite H1, Hb1, H2, Hb2, Hks, Hd.
  destruct c; reflexivity.
Qed.

Lemma in_check_loop_spec (c : color) (keys : list square) (b : Board)
    (ks d : square) (k : kind) :
  sq2 b = Some ks -> sq2_button b = Some d ->
  squares b ks = Img c King -> squares b d = Img c k ->
  match in_check_loop (in_pieces (opposite c)) keys b with
  | Done (Some _) _ =>
      exists q, In q keys /\ in_pieces (opposite c) (squares b q) = true /\
                isPseudoLegal (squares b) q ks = Return true
  | Done None _ =>
      forall q, In q keys -> in_pieces (opposite c) (squares b q) = true ->
                isPseudoLegal (squares b) q ks = Return false
  | Raised _ =>
      exists q, In q keys /\ in_pieces (opposite c) (squares b q) = true /\
                isPseudoLegal (squares b) q ks = Raise
  end.
Proof.
  intros H2 Hb2 Hks Hd. revert b H2 Hb2 Hks Hd.
  induction keys as [|key rest IH]; intros b H2 Hb2 Hks Hd;
    cbn [in_check_loop].
  - intros q [].
  - cbn [squares set_sq1 set_sq1_button].
    set (b1 := set_sq1_button (Some key) (set_sq1 (Some key) b)).
    assert (Ha : allowed_piece_move b1 = isPseudoLegal (squares b) key ks)
      by (apply (allowed_in_check_context b1 key ks d c k); auto).
    specialize (IH b1 H2 Hb2 Hks Hd).
    change (squares b1) with (squares b) in IH.
    destruct (in_pieces (opposite c) (squares b key)) eqn:Ep.
    + rewrite Ha. destruct (isPseudoLegal (squares b) key ks) as [[]| |] eqn:E.
      * exists key. repeat split; auto. now left.
      * destruct (in_check_loop _ rest b1) as [[r|] bx|bx].
        -- destruct IH as (q & Hq & Hp & Hl). exists q. auto using in_cons.
        -- intros q [<-|Hq] Hp; auto.
        -- destruct IH as (q & Hq & Hp & Hl). exists q. auto using in_cons.
      * now apply allowed_not_next in Ha.
      * exists key. repeat split; auto. now left.
    + destruct (in_check_loop _ rest b1) as [[r|] bx|bx].
      * destruct IH as (q & Hq & Hp & Hl). exists q. auto using in_cons.
      * intros q [<-|Hq] Hp; [congruence | auto].
      * destruct IH as (q & Hq & Hp & Hl). exists q. auto using in_cons.
Qed.

Lemma in_check_unfold (b : Board) (c : color) :
  piece_color b = Some c ->
  in_check b =
  match in_check_loop (in_pieces (opposite c)) all_squares
          (set_sq2 (find_king b (Img c King)) b) with
  | Raised x => Raised x
  | Done (Some r) x => Done r x
  | Done None x =>
      Done false
        (set_sq2_button (sq2_button b)
           (set_sq2 (sq2 b)
              (set_sq1_button (sq1_button b) (set_sq1 (sq1 b) x))))
  end.
Proof.
  intros Hpc. unfold in_check. rewrite Hpc. destruct c; cbn [opposite].
  - fold black_pieces.
    pose proof (in_check_loop_frame black_pieces all_squares
                  (set_sq2 (find_king b (Img White King)) b)) as Hfr.
    destruct (in_check_loop black_pieces all_squares _) as [[r|] x|x];
      try reflexivity.
    cbn [state_of] in Hfr. apply but_sq1_fields in Hfr.
    destruct Hfr as (Hg & _). apply game_fields in Hg. cbn in Hg.
    destruct Hg as (_ & _ & _ & _ & _ & _ & Hp & _).
    rewrite Hp, Hpc. reflexivity.
  - rewrite Hpc. fold white_pieces.
    destruct (in_check_loop white_pieces all_squares _) as [[r|] x|x];
      reflexivity.
Qed.

(** Called as [select_piece] calls it (the mover's colour recorded, the
    button of the last click showing a piece of that colour, the mover's
    king on the board), [in_check] returns true only if the king is
    attacked, returns false only if it is not, and raises only if the
    engine raises for some piece of the other colour. *)
Lemma in_check_in_context (b : Board) (c : color) (ks d : square)
    (k : kind) :
  piece_color b = Some c -> find_king b (Img c King) = Some ks ->
  sq2_button b = Some d -> squares b d = Img c k ->
  match in_check b with
  | Done true _ => attacked (squares b) c
  | Done false _ => ~ attacked (squares b) c
  | Raised _ =>
      exists q, on_board q = true /\
                in_pieces (opposite c) (squares b q) = true /\
                isPseudoLegal (squares b) q ks = Raise
  end.
Proof.
  intros Hpc Hk Hb2 Hd.
  pose proof (find_first_some _ _ _ _ Hk) as [_ Hks].
  pose proof (in_check_loop_spec c all_squares
                (set_sq2 (Some ks) b) ks d k eq_refl Hb2 Hks Hd) as Hl.
  change (squares (set_sq2 (Some ks) b)) with (squares b) in Hl.
  rewrite (in_check_unfold b c Hpc), Hk.
  destruct (in_check_loop (in_pieces (opposite c)) all_squares _)
    as [[r|] x|x] eqn:E.
  - apply in_check_loop_result in E. subst r.
    destruct Hl as (q & Hq & Hp & Hlegal).
    exists ks, q. repeat split; auto. now apply in_all_squares.
  - intros (ks' & q & Hk' & Hon & Hp & Hlegal).
    unfold find_king in Hk. assert (ks' = ks) by congruence. subst ks'.
    rewrite (Hl q) in Hlegal; [discriminate | now apply in_all_squares | auto].
  - destruct Hl as (q & Hq & Hp & Hlegal).
    exists q. repeat split; auto. now apply in_all_squares.
Qed.

(** The self-check test does its work as long as the colour recorded at
    the first click is still there: a click that commits a move of a
    piece of the recorded colour never leaves that colour's king
    attacked.  The path on which [piece_color] has been reset while the
    piece stayed selected is not covered. *)
Lemma commit_with_color_keeps_king_safe (button s1 : square) (b b' : Board)
    (c : color) :
  coherent b -> castled b = false -> buttons_pressed b = 1 ->
  piece_color b = Some c -> sq1 b = Some s1 ->
  in_pieces c (squares b s1) = true ->
  select_piece button b = Done tt b' -> turns b' = turns b + 1 ->
  ~ attacked (squares b') c.
Proof.
  intros Hco Hcas Hbp Hpc Hs1 Hown Hsel Hturn.
  unfold select_piece in Hsel.
  change (buttons_pressed (clear_highlights b)) with (buttons_pressed b) in Hsel.
  rewrite Hbp in Hsel. cbn [Z.eqb] in Hsel.
  unfold second_click in Hsel.
  cbn [sq1 set_sq2 set_sq2_button clear_highlights set_highlighted_squares]
    in Hsel.
  rewrite Hs1 in Hsel.
  destruct (sq_eqb button s1) eqn:Eq;
    [injection Hsel as <-; cbn in Hturn; lia|].
  apply sq_eqb_neq in Eq.
  destruct (allowed_and_not_friendly _) as [[]| |]; try discriminate.
  2:{ injection Hsel as <-. cbn in Hturn; lia. }
  match type of Hsel with
  | context [try_move s1 button ?x] =>
      destruct (try_move_cases s1 button x) as
        [(b1 & _ & Et) | [(b1 & _ & _ & Hg & _ & Et) | (b1 & Hg & _ & _ & Hchk & Et)]];
      [cbn; rewrite <- Hco; exact Hs1 | | | ]; rewrite Et in Hsel; clear Et
  end; [discriminate | | ].
  - unfold undo_move in Hsel. injection Hsel as <-.
    apply game_fields in Hg. cbn in Hg. cbn in Hturn. lia.
  - destruct Hchk as [[-> Hchk] | Hc]; [|cbn in Hc; congruence].
    match type of Hchk with
    | in_check ?m = _ => set (moved := m) in *
    end.
    assert (Hsq : squares b' = squares moved).
    { match type of Hsel with
      | context [complete_move ?a ?i ?x ?d] =>
          pose proof (complete_move_turns a i x d) as (_ & Hsq & _);
          destruct (complete_move a i x d) as [[u|] b2|b2]
      end; try discriminate; injection Hsel as <-; exact Hsq. }
    rewrite Hsq.
    apply in_pieces_iff in Hown. destruct Hown as [k Hk].
    destruct (find_king moved (Img c King)) as [ks|] eqn:Eks.
    + pose proof (in_check_in_context moved c ks button k Hpc Eks eq_refl)
        as Hctx.
      rewrite Hchk in Hctx. apply Hctx.
      cbn. rewrite upd_other by exact Eq. rewrite upd_same. exact Hk.
    + intros (ks & q & Hfk & _). unfold find_king in Eks. congruence.
Qed.

(** * The pattern engine, piece by piece *)

(** ** The scan of a list of keys *)

Lemma straight_loop_outcome (sqs : board) (keys : list square) :
  (straight_loop sqs keys = Next <->
     forall k, In k keys -> on_board k = true /\ sqs k = Blank) /\
  (straight_loop sqs keys = Raise <->
     exists i k, nth_error keys i = Some k /\ on_board k = false /\
       forall j p, (j < i)%nat -> nth_error keys j = Some p ->
                   on_board p = true /\ sqs p = Blank) /\
  straight_loop sqs keys <> Return true.
Proof.
  induction keys as [|key rest (IHn & IHr & IHt)]; cbn [straight_loop].
  - split; [|split]; try discriminate.
    + split; [intros _ k [] | reflexivity].
    + split; [discriminate|]. intros ([|i] & k & H & _); discriminate.
  - unfold lookup. destruct (on_board key) eqn:Eon.
    + destruct (image_eqb (sqs key) Blank) eqn:Eb; cbn [negb].
      * apply image_eqb_eq in Eb. split; [|split]; [| |exact IHt].
        -- rewrite IHn. split.
           ++ intros H k [<-|Hk]; auto.
           ++ intros H k Hk. apply H. now right.
        -- rewrite IHr. split.
           ++ intros (i & k & Hi & Hk & Hpre). exists (S i), k.
              split; [exact Hi|]. split; [exact Hk|].
              intros [|j] p Hj Hp; cbn in Hp.
              ** injection Hp as <-. auto.
              ** apply (Hpre j); [lia | exact Hp].
           ++ intros ([|i] & k & Hi & Hk & Hpre); cbn in Hi.
              ** injection Hi as <-. congruence.
              ** exists i, k. split; [exact Hi|]. split; [exact Hk|].
                 intros j p Hj Hp. apply (Hpre (S j)); [lia | exact Hp].
      * apply image_eqb_false in Eb. split; [|split]; try discriminate.
        -- split; [discriminate|]. intros H.
           destruct (H key (or_introl eq_refl)) as [_ Hb]. contradiction.
        -- split; [discriminate|].
           intros ([|i] & k & Hi & Hk & Hpre); cbn in Hi.
           ++ injection Hi as <-. congruence.
           ++ destruct (Hpre 0%nat key) as [_ Hb]; [lia | reflexivity |].
              contradiction.
    + split; [|split]; try discriminate.
      * split; [discriminate|]. intros H.
        destruct (H key (or_introl eq_refl)) as [Hon _]. congruence.
      * split; [intros _ | reflexivity]. exists 0%nat, key.
        split; [reflexivity|]. split; [exact Eon|]. intros j p Hj. lia.
Qed.

(** The diagonal scan reads the keys of its walk one after the other, as
    the straight scan does. *)
Lemma diag_loop_keys (sqs : board) (a sx : Z) (s n : nat) (y dy : Z) :
  diag_loop sqs (map (fun i => a + sx * Z.of_nat i) (seq s n)) y dy
  = straight_loop sqs
      (map (fun i => (a + sx * Z.of_nat i,
                      y + (Z.of_nat i - Z.of_nat s + 1) * dy))
         (seq s n)).
Proof.
  revert s y. induction n as [|n IH]; intros s y; [reflexivity|].
  cbn [seq map diag_loop straight_loop].
  replace (y + (Z.of_nat s - Z.of_nat s + 1) * dy) with (y + dy) by ring.
  destruct (lookup sqs (a + sx * Z.of_nat s, y + dy)) as [img|]; [|reflexivity].
  destruct (negb (image_eqb img Blank)); [reflexivity|].
  rewrite IH. f_equal. apply map_ext. intros i. f_equal.
  rewrite Nat2Z.inj_succ. ring.
Qed.

Lemma range_from_one (n : Z) :
  range 1 n = map (fun i => Z.of_nat i) (seq 1 (Z.to_nat (n - 1))).
Proof.
  unfold range. rewrite <- seq_shift, map_map. apply map_ext.
  intros i. lia.
Qed.

Lemma diag_walk_up (sqs : board) (x1 x2 y1 dy : Z) :
  diag_loop sqs (range (x1 + 1) x2) y1 dy
  = straight_loop sqs
      (map (fun k => (x1 + k, y1 + k * dy)) (range 1 (x2 - x1))).
Proof.
  rewrite range_from_one, map_map.
  replace (range (x1 + 1) x2)
    with (map (fun i => x1 + 1 * Z.of_nat i) (seq 1 (Z.to_nat (x2 - x1 - 1)))).
  - rewrite diag_loop_keys. f_equal. apply map_ext. intros i. f_equal; lia.
  - unfold range. rewrite <- seq_shift, map_map.
    replace (x2 - (x1 + 1)) with (x2 - x1 - 1) by lia.
    apply map_ext. intros i. lia.
Qed.

Lemma diag_walk_down (sqs : board) (x1 x2 y1 dy : Z) :
  diag_loop sqs (range_down (x1 - 1) x2) y1 dy
  = straight_loop sqs
      (map (fun k => (x1 - k, y1 + k * dy)) (range 1 (x1 - x2))).
Proof.
  rewrite range_from_one, map_map.
  replace (range_down (x1 - 1) x2)
    with (map (fun i => x1 + (-1) * Z.of_nat i)
            (seq 1 (Z.to_nat (x1 - x2 - 1)))).
  - rewrite diag_loop_keys. f_equal. apply map_ext. intros i. f_equal; lia.
  - unfold range_down. rewrite <- seq_shift, map_map.
    replace (x1 - 1 - x2) with (x1 - x2 - 1) by lia.
    apply map_ext. intros i. lia.
Qed.

(** ** The diagonal scan of [clear_path] *)

Lemma clear_path_bishop_walk (sqs : board) (from to : square) :
  clear_path (probe sqs from to) Bishop =
  ((if rank from =? rank to then Next
    else straight_loop sqs
           (map (diagonal_step from to)
              (range 1 (Z.abs (file to - file from))))) ;;; Return true).
Proof.
  unfold clear_path. cbn [kind_eqb orb probe sq1 sq2 squares].
  assert (Hup : forall dy, file from < file to ->
            Z.sgn (rank to - rank from) = dy ->
            diag_loop sqs (range (file from + 1) (file to)) (rank from) dy
            = straight_loop sqs
                (map (diagonal_step from to)
                   (range 1 (Z.abs (file to - file from))))).
  { intros dy Hlt Hdy. rewrite diag_walk_up.
    rewrite Z.abs_eq by lia. f_equal. apply map_ext. intros k.
    unfold diagonal_step. rewrite Hdy, Z.sgn_pos by lia. f_equal; lia. }
  assert (Hdown : forall dy, file to < file from ->
            Z.sgn (rank to - rank from) = dy ->
            diag_loop sqs (range_down (file from - 1) (file to)) (rank from) dy
            = straight_loop sqs
                (map (diagonal_step from to)
                   (range 1 (Z.abs (file to - file from))))).
  { intros dy Hlt Hdy. rewrite diag_walk_down.
    replace (Z.abs (file to - file from)) with (file from - file to) by lia.
    f_equal. apply map_ext. intros k.
    unfold diagonal_step. rewrite Hdy, Z.sgn_neg by lia. f_equal; lia. }
  assert (Hsame : file from = file to ->
            straight_loop sqs
              (map (diagonal_step from to)
                 (range 1 (Z.abs (file to - file from)))) = Next).
  { intros ->. rewrite Z.sub_diag. reflexivity. }
  destruct (rank from <? rank to) eqn:E1.
  - apply Z.ltb_lt in E1.
    replace (rank from =? rank to) with false by (symmetry; apply Z.eqb_neq; lia).
    destruct (file from <? file to) eqn:E2.
    + apply Z.ltb_lt in E2. rewrite (Hup 1); [reflexivity | lia |].
      apply Z.sgn_pos. lia.
    + apply Z.ltb_ge in E2. destruct (file from >? file to) eqn:E3.
      * rewrite Z.gtb_ltb in E3. apply Z.ltb_lt in E3.
        rewrite (Hdown 1); [reflexivity | lia |]. apply Z.sgn_pos. lia.
      * rewrite Z.gtb_ltb in E3. apply Z.ltb_ge in E3.
        rewrite Hsame by lia. reflexivity.
  - apply Z.ltb_ge in E1. destruct (rank from >? rank to) eqn:E4.
    + rewrite Z.gtb_ltb in E4. apply Z.ltb_lt in E4.
      replace (rank from =? rank to) with false
        by (symmetry; apply Z.eqb_neq; lia).
      destruct (file from <? file to) eqn:E2.
      * apply Z.ltb_lt in E2.
        replace (file from >? file to) with false
          by (symmetry; rewrite Z.gtb_ltb; apply Z.ltb_ge; lia).
        rewrite (Hup (-1)); [|lia|apply Z.sgn_neg; lia].
        now destruct (straight_loop _ _).
      * apply Z.ltb_ge in E2. destruct (file from >? file to) eqn:E3.
        -- rewrite Z.gtb_ltb in E3. apply Z.ltb_lt in E3.
           rewrite (Hdown (-1)); [reflexivity | lia |]. apply Z.sgn_neg. lia.
        -- rewrite Z.gtb_ltb in E3. apply Z.ltb_ge in E3.
           rewrite Hsame by lia. reflexivity.
    + rewrite Z.gtb_ltb in E4. apply Z.ltb_ge in E4.
      replace (rank from =? rank to) with true
        by (symmetry; apply Z.eqb_eq; lia).
      reflexivity.
Qed.

Lemma nth_error_range_one (n : Z) (i : nat) (k : Z) :
  nth_error (range 1 n) i = Some k <-> k = Z.of_nat i + 1 /\ 0 < k < n.
Proof.
  unfold range. split.
  - intros H. assert (Hlen : (i < Z.to_nat (n - 1))%nat).
    { assert (Hx : nth_error (map (fun i => 1 + Z.of_nat i)
                               (seq 0 (Z.to_nat (n - 1)))) i <> None)
        by (rewrite H; discriminate).
      apply nth_error_Some in Hx. now rewrite length_map, length_seq in Hx. }
    rewrite nth_error_map, nth_error_seq in H.
    destruct (Nat.ltb_spec i (Z.to_nat (n - 1))); [|lia].
    unfold option_map in H.
    assert (Hk : k = 1 + Z.of_nat (0 + i)) by congruence. lia.
  - intros [-> Hk]. rewrite nth_error_map, nth_error_seq.
    destruct (Nat.ltb_spec i (Z.to_nat (n - 1))); [|lia].
    unfold option_map. f_equal. lia.
Qed.

(** The three outcomes of the scan of the walk from [from] towards [to]. *)
Lemma walk_outcome (sqs : board) (from to : square) :
  let walk :=
    straight_loop sqs
      (map (diagonal_step from to) (range 1 (Z.abs (file to - file from)))) in
  (walk = Next <->
     forall k, 0 < k < Z.abs (file to - file from) ->
       on_board (diagonal_step from to k) = true /\
       sqs (diagonal_step from to k) = Blank) /\
  (walk = Raise <->
     exists k, 0 < k < Z.abs (file to - file from) /\
       on_board (diagonal_step from to k) = false /\
       forall j, 0 < j < k ->
         on_board (diagonal_step from to j) = true /\
         sqs (diagonal_step from to j) = Blank) /\
  walk <> Return true.
Proof.
  cbv zeta.
  destruct (straight_loop_outcome sqs
    (map (diagonal_step from to) (range 1 (Z.abs (file to - file from)))))
    as (Hn & Hr & Ht).
  split; [|split]; [| |exact Ht].
  - rewrite Hn. split.
    + intros H k Hk. apply H. apply in_map. apply in_range. lia.
    + intros H q Hq. apply in_map_iff in Hq. destruct Hq as (k & <- & Hk).
      apply in_range in Hk. apply H. lia.
  - rewrite Hr. split.
    + intros (i & q & Hi & Hoff & Hpre).
      rewrite nth_error_map in Hi.
      destruct (nth_error (range 1 _) i) as [k|] eqn:Ek; [|discriminate].
      cbn in Hi. injection Hi as <-.
      apply nth_error_range_one in Ek. destruct Ek as [Ek Hk].
      exists k. split; [exact Hk|]. split; [exact Hoff|].
      intros j Hj. apply (Hpre (Z.to_nat (j - 1))); [lia|].
      rewrite nth_error_map.
      replace (nth_error (range 1 _) (Z.to_nat (j - 1))) with (Some j);
        [reflexivity|].
      symmetry. apply nth_error_range_one. lia.
    + intros (k & Hk & Hoff & Hpre).
      exists (Z.to_nat (k - 1)), (diagonal_step from to k).
      split.
      * rewrite nth_error_map.
        replace (nth_error (range 1 _) (Z.to_nat (k - 1))) with (Some k);
          [reflexivity|].
        symmetry. apply nth_error_range_one. lia.
      * split; [exact Hoff|]. intros j p Hj Hp.
        rewrite nth_error_map in Hp.
        destruct (nth_error (range 1 _) j) as [k'|] eqn:Ek'; [|discriminate].
        cbn in Hp. injection Hp as <-.
        apply nth_error_range_one in Ek'. apply Hpre. lia.
Qed.

Lemma diagonal_on_board (from to : square) (k : Z) :
  on_board from = true -> on_board to = true -> on_diagonal from to ->
  0 < k < Z.abs (file to - file from) ->
  on_board (diagonal_step from to k) = true.
Proof.
  intros Hf Ht Hd Hk. apply on_board_iff in Hf, Ht. apply on_board_iff.
  unfold on_diagonal in Hd. unfold diagonal_step. cbn [file rank fst snd].
  destruct (Z.sgn_spec (file to - file from)) as [[? ->]|[[? ->]|[? ->]]];
    destruct (Z.sgn_spec (rank to - rank from)) as [[? ->]|[[? ->]|[? ->]]];
    lia.
Qed.

Lemma flow_bool_cases (f : flow bool) :
  f = Return true \/ f = Return false \/ f = Next \/ f = Raise.
Proof. destruct f as [[]| |]; auto. Qed.

Lemma bishop_dispatch (sqs : board) (from to : square) (c : color) :
  sqs from = Img c Bishop ->
  isPseudoLegal sqs from to =
    ((call cp := clear_path (probe sqs from to) Bishop in
      if cp then
        if Z.abs (rank from - rank to) =? Z.abs (file from - file to)
        then Return true else Next
      else Next) ;;; Return false).
Proof.
  intros H. unfold isPseudoLegal, allowed_piece_move.
  cbn [probe sq1 sq2 sq1_button sq2_button squares]. rewrite H.
  destruct c; reflexivity.
Qed.

(** The outcome of the diagonal scan, in the terms of the statements. *)
Lemma clear_path_bishop_outcome (sqs : board) (from to : square) :
  on_board from = true -> on_board to = true ->
  (clear_path (probe sqs from to) Bishop = Return true
   \/ clear_path (probe sqs from to) Bishop = Return false
   \/ clear_path (probe sqs from to) Bishop = Raise) /\
  (clear_path (probe sqs from to) Bishop = Raise <->
     walk_leaves_board sqs from to) /\
  (on_diagonal from to ->
     (clear_path (probe sqs from to) Bishop = Return true <->
        forall q, diagonal_between from to q -> sqs q = Blank) /\
     clear_path (probe sqs from to) Bishop <> Raise).
Proof.
  intros Hf Ht. rewrite clear_path_bishop_walk.
  destruct (walk_outcome sqs from to) as (Hn & Hr & Htrue). cbv zeta in *.
  unfold walk_leaves_board.
  destruct (rank from =? rank to) eqn:Er.
  - apply Z.eqb_eq in Er. split; [now left|]. split.
    + split; [discriminate | intros [Hne _]; contradiction].
    + intros Hd. split; [|discriminate]. split; [|reflexivity].
      intros _ q (k & Hk & _). unfold on_diagonal in Hd. lia.
  - apply Z.eqb_neq in Er.
    destruct (flow_bool_cases
      (straight_loop sqs
         (map (diagonal_step from to)
            (range 1 (Z.abs (file to - file from))))))
      as [E|[E|[E|E]]]; [contradiction| | |]; rewrite E in *.
    + split; [right; now left|]. split.
      * split; [discriminate|]. intros [_ H]. apply Hr in H. discriminate.
      * intros Hd. split; [|discriminate]. split; [discriminate|].
        intros Hall. assert (X : @Return bool false = Next); [|discriminate].
        apply Hn. intros k Hk. split.
        -- now apply diagonal_on_board.
        -- apply Hall. now exists k.
    + split; [now left|]. split.
      * split; [discriminate|]. intros [_ H]. apply Hr in H. discriminate.
      * intros Hd. split; [|discriminate]. split; [|reflexivity].
        intros _ q (k & Hk & ->). apply Hn; [exact eq_refl | exact Hk].
    + split; [right; now right|]. split.
      * split; [|reflexivity]. intros _. split; [exact Er|].
        now apply Hr.
      * intros Hd. exfalso.
        destruct (proj1 Hr eq_refl) as (k & Hk & Hoff & _).
        rewrite (diagonal_on_board from to k Hf Ht Hd Hk) in Hoff.
        discriminate.
Qed.

(** ** Bishop *)

(** For a bishop of either colour on a square of the board and every target
    square of the board, [allowed_piece_move] returns true exactly when
    the two squares are on one diagonal and every square strictly between
    them is empty (the bishop's own square included: no square lies
    between); it raises exactly when its scan, which is run before the
    diagonal test, walks off the board over empty squares, which cannot
    happen for two squares of one diagonal; in every other case it
    returns false. *)
Theorem bishop_pseudo_legal (sqs : board) (from to : square) (c : color) :
  on_board from = true -> on_board to = true -> sqs from = Img c Bishop ->
  (isPseudoLegal sqs from to = Return true <->
     on_diagonal from to /\
     forall q, diagonal_between from to q -> sqs q = Blank) /\
  (isPseudoLegal sqs from to = Raise <-> walk_leaves_board sqs from to) /\
  (on_diagonal from to -> isPseudoLegal sqs from to <> Raise) /\
  (isPseudoLegal sqs from to = Return true
   \/ isPseudoLegal sqs from to = Return false
   \/ isPseudoLegal sqs from to = Raise).
Proof.
  intros Hf Ht Himg. rewrite (bishop_dispatch sqs from to c Himg).
  destruct (clear_path_bishop_outcome sqs from to Hf Ht) as (Hc & Hr & Hd).
  unfold on_diagonal in *.
  destruct Hc as [E|[E|E]]; rewrite E in *.
  - destruct (Z.abs (rank from - rank to) =? Z.abs (file from - file to))
      eqn:Ed.
    + apply Z.eqb_eq in Ed. destruct (Hd Ed) as [Hall _].
      split; [|split; [|split; [|auto]]].
      * split; [intros _; split; [exact Ed | now apply Hall] | reflexivity].
      * split; [discriminate|]. intros H. apply Hr in H. discriminate.
      * intros _. discriminate.
    + apply Z.eqb_neq in Ed. split; [|split; [|split; [|auto]]].
      * split; [discriminate | intros [H _]; contradiction].
      * split; [discriminate|]. intros H. apply Hr in H. discriminate.
      * intros _. discriminate.
  - split; [|split; [|split; [|auto]]].
    + split; [discriminate|]. intros [Hdiag Hall].
      destruct (Hd Hdiag) as [Hiff _]. apply Hiff in Hall. discriminate.
    + split; [discriminate|]. intros H. apply Hr in H. discriminate.
    + intros _. discriminate.
  - split; [|split; [|split; [|auto]]].
    + split; [discriminate|]. intros [Hdiag _].
      destruct (Hd Hdiag) as [_ Hne]. now elim Hne.
    + split; [intros _; now apply Hr | reflexivity].
    + intros Hdiag. destruct (Hd Hdiag) as [_ Hne]. now elim Hne.
Qed.

(** ** Queen *)

Lemma queen_dispatch (sqs : board) (from to : square) (c : color) :
  sqs from = Img c Queen ->
  isPseudoLegal sqs from to =
    ((call cp := clear_path (probe sqs from to) Queen in
      if cp then
        (if (rank from =? rank to) || (file from =? file to)
         then Return true else Next) ;;;
        (if Z.abs (rank from - rank to) =? Z.abs (file from - file to)
         then Return true else Next)
      else Next) ;;; Return false).
Proof.
  intros H. unfold isPseudoLegal, allowed_piece_move.
  cbn [probe sq1 sq2 sq1_button sq2_button squares]. rewrite H.
  destruct c; reflexivity.
Qed.

(** The scan for a queen is the scan for a rook followed by the scan for
    a bishop. *)
Lemma clear_path_queen_split (sqs : board) (from to : square) :
  clear_path (probe sqs from to) Queen =
  match clear_path (probe sqs from to) Rook with
  | Return true => clear_path (probe sqs from to) Bishop
  | r => r
  end.
Proof.
  unfold clear_path. cbn [kind_eqb orb probe sq1 sq2 squares].
  destruct (file from =? file to).
  - match goal with
    | |- context [straight_loop sqs ?keys] =>
        destruct (straight_loop_outcome sqs keys) as (_ & _ & Htrue);
        destruct (straight_loop sqs keys) as [[]| |]
    end; try reflexivity. now elim Htrue.
  - destruct (rank from =? rank to); [|reflexivity].
    match goal with
    | |- context [straight_loop sqs ?keys] =>
        destruct (straight_loop_outcome sqs keys) as (_ & _ & Htrue);
        destruct (straight_loop sqs keys) as [[]| |]
    end; try reflexivity. now elim Htrue.
Qed.

Lemma clear_path_bishop_on_line (sqs : board) (from to : square) :
  file from = file to \/ rank from = rank to ->
  clear_path (probe sqs from to) Bishop = Return true.
Proof.
  intros H. rewrite clear_path_bishop_walk.
  destruct (rank from =? rank to) eqn:Er; [reflexivity|].
  apply Z.eqb_neq in Er. destruct H as [H|H]; [|contradiction].
  rewrite H, Z.sub_diag. reflexivity.
Qed.

Lemma clear_path_rook_off_line (sqs : board) (from to : square) :
  file from <> file to -> rank from <> rank to ->
  clear_path (probe sqs from to) Rook = Return true.
Proof.
  intros Hf Hr. unfold clear_path. cbn [kind_eqb orb probe sq1 sq2 squares].
  apply Z.eqb_neq in Hf, Hr. now rewrite Hf, Hr.
Qed.

(** For a queen of either colour on a square of the board and every target
    square of the board, [allowed_piece_move] returns true exactly when
    the two squares share a file or a rank with only empty squares
    strictly between them, or are on one diagonal with only empty squares
    strictly between them; it raises exactly when the diagonal scan walks
    off the board over empty squares, which happens only for two squares
    that are on no common line; in every other case it returns false. *)
Theorem queen_pseudo_legal (sqs : board) (from to : square) (c : color) :
  on_board from = true -> on_board to = true -> sqs from = Img c Queen ->
  (isPseudoLegal sqs from to = Return true <->
     ((file from = file to \/ rank from = rank to) /\
      forall q, strictly_between from to q -> sqs q = Blank)
     \/ (on_diagonal from to /\
         forall q, diagonal_between from to q -> sqs q = Blank)) /\
  (isPseudoLegal sqs from to = Raise <-> walk_leaves_board sqs from to) /\
  (file from = file to \/ rank from = rank to \/ on_diagonal from to ->
   isPseudoLegal sqs from to <> Raise) /\
  (isPseudoLegal sqs from to = Return true
   \/ isPseudoLegal sqs from to = Return false
   \/ isPseudoLegal sqs from to = Raise).
Proof.
  intros Hf Ht Himg. rewrite (queen_dispatch sqs from to c Himg).
  rewrite clear_path_queen_split.
  destruct (clear_path_bishop_outcome sqs from to Hf Ht) as (Hc & Hr & Hd).
  assert (Hline : file from = file to \/ rank from = rank to ->
                  ~ walk_leaves_board sqs from to).
  { intros H Hw. apply Hr in Hw.
    rewrite (clear_path_bishop_on_line sqs from to H) in Hw. discriminate. }
  assert (Hdiag : on_diagonal from to -> ~ walk_leaves_board sqs from to).
  { intros H Hw. apply Hr in Hw. now apply (Hd H). }
  destruct (Z.eq_dec (file from) (file to)) as [Ef|Ef];
    [|destruct (Z.eq_dec (rank from) (rank to)) as [Er|Er]].
  - (* one file *)
    rewrite (clear_path_bishop_on_line sqs from to (or_introl Ef)) in *.
    replace (file from =? file to) with true by (symmetry; now apply Z.eqb_eq).
    rewrite orb_true_r.
    destruct (clear_path_rook sqs from to Hf Ht)
      as [[-> Hall] | [-> (q & Hq & Hne)]].
    + split; [|split; [|split; [|auto]]].
      * split; [intros _; left; split; [now left | exact Hall] | reflexivity].
      * split; [discriminate|]. intros Hw. now elim (Hline (or_introl Ef)).
      * intros _. discriminate.
    + split; [|split; [|split; [|auto]]].
      * split; [discriminate|].
        intros [[_ Hall] | [Hdg Hall]].
        -- elim Hne. now apply Hall.
        -- exfalso. unfold on_diagonal in Hdg.
           destruct Hq as [(_ & _ & Hq) | (_ & _ & Hq)]; lia.
      * split; [discriminate|]. intros Hw. now elim (Hline (or_introl Ef)).
      * intros _. discriminate.
  - (* one rank *)
    rewrite (clear_path_bishop_on_line sqs from to (or_intror Er)) in *.
    replace (rank from =? rank to) with true by (symmetry; now apply Z.eqb_eq).
    rewrite orb_true_l.
    destruct (clear_path_rook sqs from to Hf Ht)
      as [[-> Hall] | [-> (q & Hq & Hne)]].
    + split; [|split; [|split; [|auto]]].
      * split; [intros _; left; split; [now right | exact Hall] | reflexivity].
      * split; [discriminate|]. intros Hw. now elim (Hline (or_intror Er)).
      * intros _. discriminate.
    + split; [|split; [|split; [|auto]]].
      * split; [discriminate|].
        intros [[_ Hall] | [Hdg Hall]].
        -- elim Hne. now apply Hall.
        -- exfalso. unfold on_diagonal in Hdg. lia.
      * split; [discriminate|]. intros Hw. now elim (Hline (or_intror Er)).
      * intros _. discriminate.
  - (* no common file or rank *)
    rewrite (clear_path_rook_off_line sqs from to Ef Er).
    replace (file from =? file to) with false
      by (symmetry; now apply Z.eqb_neq).
    replace (rank from =? rank to) with false
      by (symmetry; now apply Z.eqb_neq).
    cbn [orb]. unfold on_diagonal in *.
    destruct Hc as [E|[E|E]]; rewrite E in *.
    + destruct (Z.abs (rank from - rank to) =? Z.abs (file from - file to))
        eqn:Ed.
      * apply Z.eqb_eq in Ed. destruct (Hd Ed) as [Hall _].
        split; [|split; [|split; [|auto]]].
        -- split; [|reflexivity]. intros _. right.
           split; [exact Ed | now apply Hall].
        -- split; [discriminate|]. intros H. apply Hr in H. discriminate.
        -- intros _. discriminate.
      * apply Z.eqb_neq in Ed. split; [|split; [|split; [|auto]]].
        -- split; [discriminate|]. intros [[[?|?] _] | [? _]]; contradiction.
        -- split; [discriminate|]. intros H. apply Hr in H. discriminate.
        -- intros _. discriminate.
    + split; [|split; [|split; [|auto]]].
      * split; [discriminate|]. intros [[[?|?] _] | [Hdg Hall]];
          try contradiction.
        destruct (Hd Hdg) as [Hiff _]. apply Hiff in Hall. discriminate.
      * split; [discriminate|]. intros H. apply Hr in H. discriminate.
      * intros _. discriminate.
    + split; [|split; [|split; [|auto]]].
      * split; [discriminate|]. intros [[[?|?] _] | [Hdg _]];
          try contradiction.
        now elim (Hdiag Hdg); apply Hr.
      * split; [intros _; now apply Hr | reflexivity].
      * intros [?|[?|Hdg]]; try contradiction.
        now elim (Hdiag Hdg); apply Hr.
Qed.

(** ** Knight and king *)

Lemma knight_dispatch (b : Board) (s1 s2 : square) (c : color) :
  sq1 b = Some s1 -> sq1_button b = Some s1 -> sq2 b = Some s2 ->
  squares b s1 = Img c Knight ->
  allowed_piece_move b =
    Return (((Z.abs (rank s1 - rank s2) =? 2)
             && (Z.abs (file s1 - file s2) =? 1))
            || ((Z.abs (rank s1 - rank s2) =? 1)
                && (Z.abs (file s1 - file s2) =? 2))).
Proof.
  intros H1 Hb1 H2 Himg. unfold allowed_piece_move.
  rewrite H1, Hb1, H2, Himg.
  destruct c; cbn [image_eqb color_eqb kind_eqb andb orb];
    now destruct (_ || _).
Qed.

Lemma king_dispatch (b : Board) (s1 s2 : square) (c : color) :
  sq1 b = Some s1 -> sq1_button b = Some s1 -> sq2 b = Some s2 ->
  squares b s1 = Img c King ->
  allowed_piece_move b =
    Return ((Z.abs (rank s1 - rank s2) <? 2)
            && (Z.abs (file s1 - file s2) <? 2)).
Proof.
  intros H1 Hb1 H2 Himg. unfold allowed_piece_move.
  rewrite H1, Hb1, H2, Himg.
  destruct c; cbn [image_eqb color_eqb kind_eqb andb orb castle];
    now destruct (_ && _).
Qed.

(** With a knight selected, [allowed_piece_move] returns, in every state
    of the board object, and the answer is true exactly for the eight
    jumps of a knight (two ranks and one file, or one rank and two
    files): nothing on the board, the target square included, has any
    influence. *)
Theorem knight_pseudo_legal (b : Board) (s1 s2 : square) (c : color) :
  sq1 b = Some s1 -> sq1_button b = Some s1 -> sq2 b = Some s2 ->
  squares b s1 = Img c Knight ->
  (allowed_piece_move b = Return true <-> knight_jump s1 s2) /\
  (allowed_piece_move b = Return true \/ allowed_piece_move b = Return false).
Proof.
  intros H1 Hb1 H2 Himg.
  rewrite (knight_dispatch b s1 s2 c H1 Hb1 H2 Himg). unfold knight_jump.
  split.
  - split.
    + intros H. injection H as H. apply orb_true_iff in H.
      rewrite !andb_true_iff, !Z.eqb_eq in H. exact H.
    + intros H. f_equal. apply orb_true_iff.
      rewrite !andb_true_iff, !Z.eqb_eq. exact H.
  - destruct (_ || _); auto.
Qed.

(** With a king selected, [allowed_piece_move] returns, in every state of
    the board object, and the answer is true exactly when the target is
    at most one rank and at most one file away (the king's own square
    included).  [castle] always answers no: whatever the six castling
    flags say, a king is never allowed to move two files. *)
Theorem king_pseudo_legal (b : Board) (s1 s2 : square) (c : color) :
  sq1 b = Some s1 -> sq1_button b = Some s1 -> sq2 b = Some s2 ->
  squares b s1 = Img c King ->
  (allowed_piece_move b = Return true <-> king_step s1 s2) /\
  (allowed_piece_move b = Return true \/ allowed_piece_move b = Return false) /\
  (2 <= Z.abs (file s1 - file s2) -> allowed_piece_move b = Return false).
Proof.
  intros H1 Hb1 H2 Himg.
  rewrite (king_dispatch b s1 s2 c H1 Hb1 H2 Himg). unfold king_step.
  split; [|split].
  - split.
    + intros H. injection H as H.
      rewrite andb_true_iff, !Z.ltb_lt in H. exact H.
    + intros H. f_equal. rewrite andb_true_iff, !Z.ltb_lt. exact H.
  - destruct (_ && _); auto.
  - intros H. f_equal. apply andb_false_iff. right. apply Z.ltb_ge. exact H.
Qed.

(** ** Black pawn *)

Lemma black_pawn_dispatch (sqs : board) (from to : square) :
  sqs from = Img Black Pawn ->
  isPseudoLegal sqs from to =
    (((if rank from =? 7 then
        if ((rank to =? 6) || (rank to =? 5)) && (file from =? file to) then
          if image_eqb (sqs to) Blank then
            if rank to =? 5 then
              get in_front := lookup sqs (file from, 6) in
              if image_eqb in_front Blank then Return true else Next
            else Return true
          else Next
        else Next
      else Next) ;;;
     (if (rank to =? rank from - 1) && (file from =? file to) then
        if image_eqb (sqs to) Blank then Return true else Next
      else Next) ;;;
     (if (rank to =? rank from - 1)
         && (Z.abs (file from - file to) =? 1) then
        if white_pieces (sqs to) then Return true else Next
      else Next)) ;;; Return false).
Proof.
  intros H. unfold isPseudoLegal, allowed_piece_move.
  cbn [probe sq1 sq2 sq1_button sq2_button squares]. rewrite H.
  reflexivity.
Qed.

Lemma white_pieces_iff (i : image) :
  white_pieces i = true <-> exists k, i = Img White k.
Proof. apply in_pieces_iff. Qed.

(** For a Black pawn on a square of the board, [allowed_piece_move]
    returns true exactly when exactly one of the three patterns holds: one
    square down the file onto an empty square, two squares down from rank
    7 over an empty square onto an empty square, or one square diagonally
    down onto a White piece; it never raises; and a move along the file
    onto an occupied square is never allowed. *)
Theorem black_pawn_pseudo_legal (sqs : board) (from to : square) :
  on_board from = true -> sqs from = Img Black Pawn ->
  (isPseudoLegal sqs from to = Return true <->
     exactly_one (black_single_push sqs from to)
                 (black_double_push sqs from to)
                 (black_diagonal_capture sqs from to)) /\
  (isPseudoLegal sqs from to = Return true \/
   isPseudoLegal sqs from to = Return false) /\
  (file to = file from -> sqs to <> Blank ->
   isPseudoLegal sqs from to = Return false).
Proof.
  intros Hf Himg. rewrite (black_pawn_dispatch sqs from to Himg).
  rewrite (lookup_on_board sqs (file from, 6)).
  2:{ apply on_board_iff in Hf. apply on_board_iff. cbn. lia. }
  assert (Hexcl : forall A B C : Prop,
            ~ (A /\ B) -> ~ (A /\ C) -> ~ (B /\ C) ->
            (A \/ B \/ C <-> exactly_one A B C))
    by (unfold exactly_one; tauto).
  rewrite <- Hexcl.
  2:{ unfold black_single_push, black_double_push. lia. }
  2:{ unfold black_single_push, black_diagonal_capture. lia. }
  2:{ unfold black_double_push, black_diagonal_capture. lia. }
  unfold black_single_push, black_double_push, black_diagonal_capture.
  rewrite <- white_pieces_iff.
  split; [split|split].
  - split_ifs; try discriminate; intros _; bool_to_prop; try tauto;
      try (right; left; repeat split; (lia || congruence));
      try (left; repeat split; (lia || congruence)).
  - intros [(H1 & H2 & H3) | [(H1 & H2 & H3 & H4 & H5) | (H1 & H2 & H3)]];
      split_ifs; try reflexivity; exfalso; bool_to_prop;
      rewrite ?image_eqb_false in *;
      repeat match goal with H : _ \/ _ |- _ => destruct H end;
      bool_to_prop; try lia; try congruence.
  - split_ifs; auto.
  - intros Hsame Hocc. split_ifs; try reflexivity; exfalso; bool_to_prop;
      try congruence; try lia.
Qed.

(** ** Where the pattern engine raises *)

Lemma walk_leaves_board_far (sqs : board) (from to : square) :
  on_board from = true -> on_board to = true ->
  walk_leaves_board sqs from to ->
  1 <= Z.abs (rank from - rank to) /\
  Z.abs (rank from - rank to) + 2 <= Z.abs (file from - file to).
Proof.
  intros Hf Ht (Hne & k & Hk & Hoff & _).
  apply on_board_iff in Hf, Ht.
  assert (Hnot : ~ (0 <= file (diagonal_step from to k) <= 7 /\
                    1 <= rank (diagonal_step from to k) <= 8)).
  { intros H. apply on_board_iff in H. congruence. }
  unfold diagonal_step in Hnot. cbn [file rank fst snd] in Hnot.
  destruct (Z.sgn_spec (file to - file from)) as [[? E1]|[[? E1]|[? E1]]];
    destruct (Z.sgn_spec (rank to - rank from)) as [[? E2]|[[? E2]|[? E2]]];
    rewrite E1, E2 in Hnot; lia.
Qed.

(** For two squares of the board, [allowed_piece_move] raises only with a
    bishop or a queen on the first square, and only when the diagonal scan
    walks off the board: the target is then on another rank and at least
    two files further away than it is ranks away.  For an empty square, a
    pawn, a knight, a rook and a king the engine always returns. *)
Theorem pattern_engine_raises_only_off_line (sqs : board) (from to : square) :
  on_board from = true -> on_board to = true ->
  isPseudoLegal sqs from to = Raise ->
  (exists c, sqs from = Img c Bishop \/ sqs from = Img c Queen) /\
  walk_leaves_board sqs from to /\
  1 <= Z.abs (rank from - rank to) /\
  Z.abs (rank from - rank to) + 2 <= Z.abs (file from - file to).
Proof.
  intros Hf Ht Hraise.
  destruct (clear_path_bishop_outcome sqs from to Hf Ht) as (Hc & Hr & _).
  assert (Hw : (exists c, sqs from = Img c Bishop \/ sqs from = Img c Queen)
               /\ walk_leaves_board sqs from to).
  { destruct (sqs from) as [|c k] eqn:Himg.
    - exfalso. unfold isPseudoLegal, allowed_piece_move in Hraise.
      cbn [probe sq1 sq2 sq1_button sq2_button squares] in Hraise.
      rewrite Himg in Hraise. discriminate.
    - destruct k.
      + exfalso. unfold isPseudoLegal in Hraise.
        rewrite (king_dispatch _ from to c) in Hraise;
          [discriminate | reflexivity | reflexivity | reflexivity | exact Himg].
      + split; [exists c; now right|]. apply Hr.
        rewrite (queen_dispatch sqs from to c Himg) in Hraise.
        rewrite clear_path_queen_split in Hraise.
        destruct (clear_path_rook sqs from to Hf Ht) as [[Ek _] | [Ek _]];
          rewrite Ek in Hraise; [|discriminate].
        destruct Hc as [E|[E|E]]; rewrite E in *; try reflexivity;
          exfalso; revert Hraise; split_ifs; cbv beta iota; discriminate.
      + exfalso. rewrite (rook_dispatch sqs from to c Himg) in Hraise.
        destruct (clear_path_rook sqs from to Hf Ht) as [[E _] | [E _]];
          rewrite E in Hraise; revert Hraise; split_ifs; cbv beta iota; discriminate.
      + split; [exists c; now left|]. apply Hr.
        rewrite (bishop_dispatch sqs from to c Himg) in Hraise.
        destruct Hc as [E|[E|E]]; rewrite E in *; try reflexivity;
          exfalso; revert Hraise; split_ifs; cbv beta iota; discriminate.
      + exfalso. unfold isPseudoLegal in Hraise.
        rewrite (knight_dispatch _ from to c) in Hraise;
          [discriminate | reflexivity | reflexivity | reflexivity | exact Himg].
      + exfalso.
        apply (allowed_pawn_returns (probe sqs from to) from to from to c);
          try reflexivity; assumption. }
  destruct Hw as [Hp Hw]. split; [exact Hp|]. split; [exact Hw|].
  now apply walk_leaves_board_far with (sqs := sqs).
Qed.

(** * Clicks *)

(** ** What the pattern engine reads *)

Lemma allowed_piece_move_ext (b b' : Board) :
  squares b' = squares b -> sq1 b' = sq1 b -> sq1_button b' = sq1_button b ->
  sq2 b' = sq2 b -> sq2_button b' = sq2_button b ->
  allowed_piece_move b' = allowed_piece_move b.
Proof.
  intros H1 H2 H3 H4 H5. unfold allowed_piece_move.
  rewrite (clear_path_ext b b' Bishop), (clear_path_ext b b' Queen),
    (clear_path_ext b b' Rook) by assumption.
  unfold castle. rewrite H1, H2, H3, H4, H5. reflexivity.
Qed.

Lemma allowed_as_probe (b : Board) (s1 s2 : square) :
  sq1 b = Some s1 -> sq1_button b = Some s1 ->
  sq2 b = Some s2 -> sq2_button b = Some s2 ->
  allowed_piece_move b = isPseudoLegal (squares b) s1 s2.
Proof.
  intros H1 H2 H3 H4. unfold isPseudoLegal. symmetry.
  apply allowed_piece_move_ext; cbn; congruence.
Qed.

Lemma friendly_fire_color (b : Board) (s2 : square) (c : color) :
  sq2_button b = Some s2 -> piece_color b = Some c ->
  friendly_fire b = Return (in_pieces c (squares b s2)).
Proof.
  intros H2 Hc. unfold friendly_fire. rewrite H2, Hc.
  unfold white_pieces, black_pieces.
  destruct c; cbn [andb]; destruct (squares b s2) as [|[] k]; reflexivity.
Qed.

Lemma friendly_fire_no_color (b : Board) (s2 : square) :
  sq2_button b = Some s2 -> piece_color b = None ->
  friendly_fire b = Return false.
Proof. intros H2 Hc. unfold friendly_fire. now rewrite H2, Hc. Qed.

Lemma friendly_fire_returns (b : Board) (s2 : square) :
  sq2_button b = Some s2 ->
  friendly_fire b =
    Return match piece_color b with
           | Some c => in_pieces c (squares b s2)
           | None => false
           end.
Proof.
  intros H2. destruct (piece_color b) as [c|] eqn:Hc.
  - now apply friendly_fire_color.
  - now apply (friendly_fire_no_color b s2).
Qed.

Lemma allowed_and_not_friendly_target (b : Board) (s1 s2 : square) :
  sq1 b = Some s1 -> sq1_button b = Some s1 ->
  sq2 b = Some s2 -> sq2_button b = Some s2 ->
  allowed_and_not_friendly b =
    match isPseudoLegal (squares b) s1 s2 with
    | Return _ => Return (legal_target (squares b) (piece_color b) s1 s2)
    | _ => Raise
    end.
Proof.
  intros H1 Hb1 H2 Hb2. unfold allowed_and_not_friendly, legal_target.
  rewrite (allowed_as_probe b s1 s2 H1 Hb1 H2 Hb2).
  rewrite (friendly_fire_returns b s2 Hb2).
  destruct (isPseudoLegal (squares b) s1 s2) as [[]| |]; try reflexivity.
  now destruct (piece_color b).
Qed.

(** ** The first click *)

Lemma highlight_loop_targets (keys : list square) (b b' : Board)
    (s1 : square) :
  sq1 b = Some s1 -> sq1_button b = Some s1 ->
  highlight_loop keys b = Done tt b' ->
  highlighted_squares b'
  = (highlighted_squares b
     ++ filter (legal_target (squares b) (piece_color b) s1) keys)%list.
Proof.
  revert b. induction keys as [|sq rest IH]; intros b H1 Hb1 Hrun.
  - cbn in Hrun. injection Hrun as <-. cbn. now rewrite app_nil_r.
  - cbn [highlight_loop] in Hrun.
    rewrite (allowed_and_not_friendly_target _ s1 sq) in Hrun
      by (cbn; first [assumption | reflexivity]).
    cbn [squares piece_color set_sq2 set_sq2_button] in Hrun. cbn [filter].
    destruct (isPseudoLegal (squares b) s1 sq) as [r| |]; try discriminate.
    destruct (legal_target (squares b) (piece_color b) s1 sq).
    + apply IH in Hrun; [|assumption..].
      rewrite Hrun. cbn. now rewrite <- app_assoc.
    + apply IH in Hrun; [|assumption..]. exact Hrun.
Qed.

Lemma possible_moves_loop_highlights (keys : list square) (acc : list square)
    (b : Board) :
  highlighted_squares (state_of (possible_moves_loop keys acc b))
  = highlighted_squares b /\
  piece_color (state_of (possible_moves_loop keys acc b)) = piece_color b.
Proof.
  revert acc b. induction keys as [|sq rest IH]; intros acc b; [now cbn|].
  cbn [possible_moves_loop].
  destruct (allowed_and_not_friendly _) as [[]| |]; cbn [state_of];
    try (destruct (IH acc (set_sq2_button (Some sq) (set_sq2 (Some sq) b)))
           as [-> ->]; now cbn);
    try (destruct (IH (acc ++ [sq])%list
                     (set_sq2_button (Some sq) (set_sq2 (Some sq) b)))
           as [-> ->]; now cbn);
    now cbn.
Qed.

Lemma selected_color (b : Board) (button : square) :
  (if white_pieces (squares b button) && (turns b mod 2 =? 0)
   then Some White
   else if black_pieces (squares b button) && (turns b mod 2 =? 1)
   then Some Black
   else None)
  = if in_pieces (side_to_move b) (squares b button)
    then Some (side_to_move b) else None.
Proof.
  unfold side_to_move, white_pieces, black_pieces.
  pose proof (Z.mod_pos_bound (turns b) 2 eq_refl) as Hm.
  destruct (turns b mod 2 =? 0) eqn:E0.
  - apply Z.eqb_eq in E0. rewrite E0. cbn [Z.eqb].
    rewrite andb_true_r, andb_false_r.
    now destruct (in_pieces White _).
  - apply Z.eqb_neq in E0.
    replace (turns b mod 2 =? 1) with true by (symmetry; apply Z.eqb_eq; lia).
    rewrite andb_true_r, andb_false_r. reflexivity.
Qed.

Lemma highlight_legal_moves_selected (b : Board) (s : square) :
  sq1_button b = Some s ->
  highlight_legal_moves b
  = highlight_loop all_squares (set_sq1 (Some s) (clear_highlights b)).
Proof.
  intros H. unfold highlight_legal_moves.
  change (sq1_button (clear_highlights b)) with (sq1_button b).
  now rewrite H.
Qed.

Lemma first_click_own_piece (button : square) (b : Board) :
  buttons_pressed b = 0 ->
  in_pieces (side_to_move b) (squares b button) = true ->
  exists b1,
    select_piece button b =
      match highlight_loop all_squares b1 with
      | Raised x => Raised x
      | Done _ b3 =>
          match possible_moves_loop all_squares [] b3 with
          | Raised x => Raised x
          | Done _ b4 => Done tt b4
          end
      end /\
    game b1 = game (set_buttons_pressed 1
                      (set_piece_color (Some (side_to_move b)) b)) /\
    sq1 b1 = Some button /\ sq1_button b1 = Some button /\
    highlighted_squares b1 = [].
Proof.
  intros Hbp Hown. eexists. split.
  - unfold select_piece.
    change (buttons_pressed (clear_highlights b)) with (buttons_pressed b).
    change (squares (clear_highlights b)) with (squares b).
    change (turns (clear_highlights b)) with (turns b).
    rewrite Hbp. cbn [Z.eqb]. rewrite selected_color, Hown.
    rewrite (highlight_legal_moves_selected _ button) by reflexivity.
    reflexivity.
  - repeat split.
Qed.

Lemma first_click_own_piece_result (button : square) (b b' : Board) :
  buttons_pressed b = 0 ->
  in_pieces (side_to_move b) (squares b button) = true ->
  select_piece button b = Done tt b' ->
  buttons_pressed b' = 1 /\ sq1 b' = Some button /\
  sq1_button b' = Some button /\
  piece_color b' = Some (side_to_move b) /\
  highlighted_squares b'
  = filter (legal_target (squares b) (Some (side_to_move b)) button)
      all_squares /\
  position b' = position b.
Proof.
  intros Hbp Hown Hsel.
  pose proof (first_click_frame button b Hbp) as Hpos.
  rewrite Hsel in Hpos. cbn [state_of] in Hpos.
  destruct (first_click_own_piece button b Hbp Hown)
    as (b1 & Esel & Hg1 & Hs1 & Hb1 & Hh1).
  rewrite Esel in Hsel. clear Esel.
  apply game_fields in Hg1.
  destruct Hg1 as (Hsq1 & Hbp1 & _ & _ & _ & _ & Hpc1 & _).
  cbn in Hsq1, Hbp1, Hpc1.
  destruct (highlight_loop all_squares b1) as [[] b3|b3] eqn:Eh;
    [|discriminate].
  pose proof (highlight_loop_targets all_squares b1 b3 button
                Hs1 Hb1 Eh) as Hhl.
  rewrite Hh1, Hsq1, Hpc1 in Hhl. cbn [app] in Hhl.
  pose proof (highlight_loop_frame all_squares b1) as (Hg3 & Hs3 & Hb3).
  rewrite Eh in Hg3, Hs3, Hb3. cbn [state_of] in Hg3, Hs3, Hb3.
  pose proof (possible_moves_loop_frame all_squares [] b3)
    as (Hg4 & Hs4 & Hb4).
  pose proof (possible_moves_loop_highlights all_squares [] b3) as (Hh4 & _).
  destruct (possible_moves_loop all_squares [] b3) as [pm b4|b4];
    [|discriminate].
  injection Hsel as <-. cbn [state_of] in *.
  assert (Hg : game b4 = game b1) by congruence.
  apply game_fields in Hg.
  destruct Hg as (Hsq & Hbp4 & Htu & Hcr & Hca & Hmh & Hpc4 & Hpr).
  split; [congruence|]. split; [congruence|]. split; [congruence|].
  split; [congruence|]. split; [congruence|].
  exact Hpos.
Qed.

Lemma first_click_other_square (button : square) (b : Board) :
  buttons_pressed b = 0 ->
  in_pieces (side_to_move b) (squares b button) = false ->
  select_piece button b = Done tt (clear_highlights b).
Proof.
  intros Hbp Hown. unfold select_piece.
  change (buttons_pressed (clear_highlights b)) with (buttons_pressed b).
  change (squares (clear_highlights b)) with (squares b).
  change (turns (clear_highlights b)) with (turns b).
  rewrite Hbp. cbn [Z.eqb]. rewrite selected_color, Hown. reflexivity.
Qed.

(** The first click of a move ([buttons_pressed] is 0).  On a square that
    does not show a piece of the side to move, [select_piece] only clears
    the highlights.  On a piece of the side to move, if the call returns,
    the piece is selected for that side, the position is untouched, and
    the highlighted squares are, in the order of the board, exactly the
    squares for which the pattern engine allows the move and which do not
    show a piece of the mover's colour. *)
Theorem first_click_selects_and_highlights (button : square) (b : Board) :
  buttons_pressed b = 0 ->
  (in_pieces (side_to_move b) (squares b button) = false ->
   select_piece button b = Done tt (clear_highlights b)) /\
  (in_pieces (side_to_move b) (squares b button) = true ->
   forall b', select_piece button b = Done tt b' ->
     buttons_pressed b' = 1 /\ sq1 b' = Some button /\
     sq1_button b' = Some button /\
     piece_color b' = Some (side_to_move b) /\
     highlighted_squares b'
     = filter (legal_target (squares b) (Some (side_to_move b)) button)
         all_squares /\
     position b' = position b).
Proof.
  intros Hbp. split.
  - now apply first_click_other_square.
  - intros Hown b'. now apply first_click_own_piece_result.
Qed.

(** ** The second click *)

Lemma complete_move_flags (p1 : square) (img : image) (p2 : square)
    (b : Board) :
  castling_rights (state_of (complete_move p1 img p2 b)) =
  [wk_moved b || image_eqb img (Img White King);
   wr1_moved b || (image_eqb img (Img White Rook) && sq_eqb p1 (0, 1));
   wr2_moved b || (image_eqb img (Img White Rook) && sq_eqb p1 (7, 1));
   bk_moved b || image_eqb img (Img Black King);
   br1_moved b || (image_eqb img (Img Black Rook) && sq_eqb p1 (0, 8));
   br2_moved b || (image_eqb img (Img Black Rook) && sq_eqb p1 (7, 8))].
Proof.
  unfold complete_move, castling_rights.
  destruct (image_eqb img (Img White King)),
    (image_eqb img (Img Black King)),
    (image_eqb img (Img White Rook) && sq_eqb p1 (0, 1)),
    (image_eqb img (Img White Rook) && sq_eqb p1 (7, 1)),
    (image_eqb img (Img Black Rook) && sq_eqb p1 (0, 8)),
    (image_eqb img (Img Black Rook) && sq_eqb p1 (7, 8));
    cbv zeta;
    cbn [sq2_button set_move_history set_turns set_buttons_pressed
         set_wk_moved set_bk_moved set_wr1_moved set_wr2_moved
         set_br1_moved set_br2_moved];
    (destruct (sq2_button b); [split_ifs|]);
    cbn; rewrite ?orb_true_r, ?orb_false_r; reflexivity.
Qed.

Lemma complete_move_promos (p1 : square) (img : image) (p2 b2 : square)
    (b : Board) :
  sq2_button b = Some b2 ->
  (exists b', complete_move p1 img p2 b = Done None b') /\
  promos (state_of (complete_move p1 img p2 b)) =
    if (image_eqb (squares b b2) (Img White Pawn) && (rank p2 =? 8))
       || (image_eqb (squares b b2) (Img Black Pawn) && (rank p2 =? 1))
    then (promos b ++ [piece_color b])%list else promos b.
Proof.
  intros Hb2. unfold complete_move.
  destruct (image_eqb img (Img White King)),
    (image_eqb img (Img Black King)),
    (image_eqb img (Img White Rook) && sq_eqb p1 (0, 1)),
    (image_eqb img (Img White Rook) && sq_eqb p1 (7, 1)),
    (image_eqb img (Img Black Rook) && sq_eqb p1 (0, 8)),
    (image_eqb img (Img Black Rook) && sq_eqb p1 (7, 8));
    cbv zeta;
    cbn [sq2_button squares piece_color promos
         set_move_history set_turns set_buttons_pressed
         set_wk_moved set_bk_moved set_wr1_moved set_wr2_moved
         set_br1_moved set_br2_moved];
    rewrite Hb2;
    match goal with
    | |- context [if ?c then Done _ _ else _] => destruct c
    end; (split; [eexists; reflexivity | reflexivity]).
Qed.

(** What a call of [select_piece] that advances the turn counter has
    done. *)
Lemma select_piece_commit (button : square) (b b' : Board) :
  coherent b -> select_piece button b = Done tt b' ->
  turns b' = turns b + 1 ->
  exists s1,
    sq1 b = Some s1 /\ s1 <> button /\ buttons_pressed b = 1 /\
    allowed_and_not_friendly
      (set_sq2_button (Some button)
         (set_sq2 (Some button) (clear_highlights b))) = Return true /\
    move_history b'
    = (move_history b ++ [(s1, button, get_piece_name (squares b s1))])%list /\
    castling_rights b' =
      [wk_moved b || image_eqb (squares b s1) (Img White King);
       wr1_moved b
       || (image_eqb (squares b s1) (Img White Rook) && sq_eqb s1 (0, 1));
       wr2_moved b
       || (image_eqb (squares b s1) (Img White Rook) && sq_eqb s1 (7, 1));
       bk_moved b || image_eqb (squares b s1) (Img Black King);
       br1_moved b
       || (image_eqb (squares b s1) (Img Black Rook) && sq_eqb s1 (0, 8));
       br2_moved b
       || (image_eqb (squares b s1) (Img Black Rook) && sq_eqb s1 (7, 8))] /\
    buttons_pressed b' = 0 /\ piece_color b' = None /\
    highlighted_squares b' = [] /\ castled b' = false /\
    promos b' =
      if (image_eqb (squares b s1) (Img White Pawn) && (rank button =? 8))
         || (image_eqb (squares b s1) (Img Black Pawn) && (rank button =? 1))
      then (promos b ++ [piece_color b])%list else promos b.
Proof.
  intros Hco Hsel Hturn.
  destruct (Z.eq_dec (buttons_pressed b) 0) as [H0|H0].
  { pose proof (first_click_frame button b H0) as Hp. rewrite Hsel in Hp.
    cbn [state_of] in Hp. apply position_fields in Hp.
    destruct Hp as (_ & Ht & _). lia. }
  unfold select_piece in Hsel.
  change (buttons_pressed (clear_highlights b)) with (buttons_pressed b) in Hsel.
  apply Z.eqb_neq in H0. rewrite H0 in Hsel.
  destruct (buttons_pressed b =? 1) eqn:Ebp;
    [|injection Hsel as <-; cbn in Hturn; lia].
  apply Z.eqb_eq in Ebp.
  unfold second_click in Hsel.
  cbn [sq1 set_sq2 set_sq2_button clear_highlights set_highlighted_squares] in Hsel.
  destruct (sq1 b) as [s1|] eqn:Hs1; [|discriminate].
  destruct (sq_eqb button s1) eqn:Eq;
    [injection Hsel as <-; cbn in Hturn; lia|].
  apply sq_eqb_neq in Eq.
  destruct (allowed_and_not_friendly _) as [[]| |] eqn:Eallowed;
    try discriminate.
  2:{ injection Hsel as <-. cbn in Hturn; lia. }
  match type of Hsel with
  | context [try_move s1 button ?x] =>
      destruct (try_move_cases s1 button x) as
        [(b1 & _ & Et) | [(b1 & _ & _ & Hg & _ & Et)
                         | (b1 & Hg & _ & Hb2 & _ & Et)]];
      [cbn; rewrite <- Hco; exact Hs1 | | | ]; rewrite Et in Hsel; clear Et
  end; [discriminate | | ].
  - unfold undo_move in Hsel. injection Hsel as <-.
    apply game_fields in Hg. cbn in Hg. cbn in Hturn. lia.
  - exists s1. split; [reflexivity|]. split; [congruence|].
    split; [exact Ebp|]. split; [reflexivity|].
    apply game_fields in Hg. cbn in Hg.
    destruct Hg as (Hsq & _ & _ & Hcr & _ & Hmh & Hpc & Hpr).
    unfold castling_rights in Hcr.
    match type of Hsel with
    | context [complete_move ?a ?i ?c ?d] =>
        pose proof (complete_move_flags a i c d) as Hfl;
        pose proof (complete_move_promos a i c button d Hb2) as [_ Hpm];
        destruct (complete_move_spec a i c d)
          as (b2 & Hr & _ & _ & Hbp2 & _ & _ & _ & H22 & _ & _ & Hmh2 & _)
    end.
    cbn [squares set_sq2 set_sq2_button set_highlighted_squares] in *.
    injection Hcr as E1 E2 E3 E4 E5 E6.
    rewrite E1, E2, E3, E4, E5, E6 in Hfl. rewrite Hmh in Hmh2.
    rewrite Hsq, Hpc, Hpr in Hpm.
    rewrite upd_other, upd_same in Hpm by exact Eq.
    destruct Hr as [Hr|Hr]; rewrite Hr in Hsel, Hfl, Hpm; [|discriminate].
    injection Hsel as <-. cbn [state_of] in Hfl, Hpm.
    split; [exact Hmh2|]. split; [exact Hfl|].
    cbn. repeat split; try assumption.
Qed.

(** Every move that is committed is recorded: the history grows by the
    triple of the selected square, the clicked square and the name of the
    piece that stood on the selected square, and the selection state is
    reset (nothing selected, no colour recorded, no highlight). *)
Theorem committed_move_is_recorded (button : square) (b b' : Board) :
  coherent b -> select_piece button b = Done tt b' ->
  turns b' = turns b + 1 ->
  exists from,
    sq1 b = Some from /\
    move_history b'
    = (move_history b
       ++ [(from, button, get_piece_name (squares b from))])%list /\
    buttons_pressed b' = 0 /\ piece_color b' = None /\
    highlighted_squares b' = [].
Proof.
  intros Hco Hsel Hturn.
  destruct (select_piece_commit button b b' Hco Hsel Hturn)
    as (s1 & H1 & _ & _ & _ & Hmh & _ & Hbp & Hpc & Hhl & _).
  exists s1. auto.
Qed.

(** A committed move sets the castling flags by the image that stood on
    the selected square and by that square's name: the king's flag for a
    king, a rook's flag for a rook of that colour leaving that rook's
    corner.  A flag that is set stays set, and no other flag changes. *)
Theorem committed_move_sets_castling_flags (button : square) (b b' : Board) :
  coherent b -> select_piece button b = Done tt b' ->
  turns b' = turns b + 1 ->
  exists from,
    sq1 b = Some from /\
    wk_moved b' = wk_moved b || image_eqb (squares b from) (Img White King) /\
    bk_moved b' = bk_moved b || image_eqb (squares b from) (Img Black King) /\
    wr1_moved b'
    = wr1_moved b
      || (image_eqb (squares b from) (Img White Rook)
          && sq_eqb from (named "a1")) /\
    wr2_moved b'
    = wr2_moved b
      || (image_eqb (squares b from) (Img White Rook)
          && sq_eqb from (named "h1")) /\
    br1_moved b'
    = br1_moved b
      || (image_eqb (squares b from) (Img Black Rook)
          && sq_eqb from (named "a8")) /\
    br2_moved b'
    = br2_moved b
      || (image_eqb (squares b from) (Img Black Rook)
          && sq_eqb from (named "h8")).
Proof.
  intros Hco Hsel Hturn.
  destruct (select_piece_commit button b b' Hco Hsel Hturn)
    as (s1 & H1 & _ & _ & _ & _ & Hfl & _).
  exists s1. split; [exact H1|].
  unfold castling_rights in Hfl.
  injection Hfl as E1 E2 E3 E4 E5 E6.
  change (named "a1") with (0, 1). change (named "h1") with (7, 1).
  change (named "a8") with (0, 8). change (named "h8") with (7, 8).
  repeat split; assumption.
Qed.

(** Every move that is committed has passed the pattern engine: from the
    selected square to the clicked square [allowed_piece_move] answers
    true on the position before the move; and when a colour is recorded
    for the selection, the clicked square does not show a piece of that
    colour. *)
Theorem committed_move_is_pattern_legal (button : square) (b b' : Board) :
  coherent b -> select_piece button b = Done tt b' ->
  turns b' = turns b + 1 ->
  exists from,
    sq1 b = Some from /\ from <> button /\
    isPseudoLegal (squares b) from button = Return true /\
    forall c, piece_color b = Some c ->
              in_pieces c (squares b button) = false.
Proof.
  intros Hco Hsel Hturn.
  destruct (select_piece_commit button b b' Hco Hsel Hturn)
    as (s1 & H1 & Hne & _ & Hal & _).
  exists s1. split; [exact H1|]. split; [exact Hne|].
  unfold allowed_and_not_friendly in Hal.
  rewrite (allowed_as_probe _ s1 button) in Hal;
    [| exact H1 | cbn; rewrite <- Hco; exact H1 | reflexivity | reflexivity].
  change (squares (set_sq2_button _ _)) with (squares b) in Hal.
  destruct (isPseudoLegal (squares b) s1 button) as [[]| |];
    try discriminate.
  split; [reflexivity|]. intros c Hc.
  rewrite (friendly_fire_color _ button c) in Hal; [|reflexivity|exact Hc].
  change (squares (set_sq2_button _ _)) with (squares b) in Hal.
  destruct (in_pieces c (squares b button)); [discriminate|reflexivity].
Qed.

(** ** The counters of a session *)

Lemma first_click_buttons (button : square) (b : Board) :
  buttons_pressed b = 0 ->
  buttons_pressed (state_of (select_piece button b)) = 0
  \/ buttons_pressed (state_of (select_piece button b)) = 1.
Proof.
  intros Hbp. unfold select_piece.
  cbn [buttons_pressed clear_highlights set_highlighted_squares squares turns].
  rewrite Hbp. cbn [Z.eqb].
  match goal with
  | |- context [match ?sel with Some _ => _ | None => _ end] =>
      destruct sel as [c|]
  end; [|now left].
  right.
  match goal with
  | |- context [highlight_legal_moves ?x] =>
      pose proof (highlight_legal_moves_frame x) as (Hg & _ & _);
      destruct (highlight_legal_moves x) as [u b1|b1]
  end; cbn [state_of] in *.
  - pose proof (possible_moves_loop_frame all_squares [] b1) as (Hg2 & _ & _).
    destruct (possible_moves_loop all_squares [] b1) as [u2 b2|b2];
      cbn [state_of] in *; apply game_fields in Hg, Hg2;
      destruct Hg as (_ & Hb & _), Hg2 as (_ & Hb2 & _);
      rewrite Hb2, Hb; reflexivity.
  - apply game_fields in Hg. destruct Hg as (_ & Hb & _).
    rewrite Hb. reflexivity.
Qed.

Lemma select_piece_counters (button : square) (b : Board) :
  coherent b ->
  ((turns (state_of (select_piece button b)) = turns b /\
    move_history (state_of (select_piece button b)) = move_history b)
   \/ (turns (state_of (select_piece button b)) = turns b + 1 /\
       exists e, move_history (state_of (select_piece button b))
                 = (move_history b ++ [e])%list)) /\
  (buttons_pressed (state_of (select_piece button b)) = 0
   \/ buttons_pressed (state_of (select_piece button b)) = 1).
Proof.
  intros Hco.
  destruct (Z.eq_dec (buttons_pressed b) 0) as [H0|H0].
  { split; [|now apply first_click_buttons].
    pose proof (first_click_frame button b H0) as Hp.
    apply position_fields in Hp. left. split; apply Hp. }
  unfold select_piece.
  change (buttons_pressed (clear_highlights b)) with (buttons_pressed b).
  apply Z.eqb_neq in H0. rewrite H0.
  destruct (buttons_pressed b =? 1) eqn:Ebp; [|cbn; auto].
  apply Z.eqb_eq in Ebp.
  unfold second_click.
  cbn [sq1 set_sq2 set_sq2_button clear_highlights set_highlighted_squares].
  destruct (sq1 b) as [s1|] eqn:Hs1; [|cbn; auto].
  destruct (sq_eqb button s1); [cbn; auto|].
  destruct (allowed_and_not_friendly _) as [[]| |]; try (cbn; now auto).
  match goal with
  | |- context [try_move s1 button ?x] =>
      destruct (try_move_cases s1 button x) as
        [(b1 & Ein & Et) | [(b1 & _ & _ & Hg & _ & Et)
                           | (b1 & Hg & _ & _ & _ & Et)]];
      [cbn; rewrite <- Hco; exact Hs1 | | | ]; rewrite Et; clear Et
  end.
  - apply in_check_raised in Ein.
    destruct Ein as (c & q & _ & _ & _ & _ & _ & _ & _ & Hg & _).
    apply game_fields in Hg. cbn in Hg.
    destruct Hg as (_ & Hb & Ht & _ & _ & Hm & _).
    cbn [state_of]. rewrite Hb, Ht, Hm. auto.
  - apply game_fields in Hg. cbn in Hg.
    destruct Hg as (_ & Hb & Ht & _ & _ & Hm & _).
    cbn. rewrite Ht, Hm. auto.
  - match goal with
    | |- context [complete_move ?a ?i ?x ?d] =>
        destruct (complete_move_spec a i x d)
          as (b2 & Hr & _ & Ht2 & Hb2 & _ & _ & _ & _ & _ & _ & Hm2 & _)
    end.
    apply game_fields in Hg. cbn in Hg.
    destruct Hg as (_ & _ & Ht & _ & _ & Hm & _).
    rewrite Ht in Ht2. rewrite Hm in Hm2.
    destruct Hr as [-> | ->]; cbn; (split; [right; split; [exact Ht2|]|auto]);
      eexists; exact Hm2.
Qed.

Lemma step_counters (b : Board) (e : event) :
  session_inv b ->
  (turns (step b e) = 0 /\ move_history (step b e) = []
   \/ (turns (step b e) = turns b /\ move_history (step b e) = move_history b)
   \/ (turns (step b e) = turns b + 1 /\
       exists x, move_history (step b e) = (move_history b ++ [x])%list)) /\
  (buttons_pressed b = 0 \/ buttons_pressed b = 1 ->
   buttons_pressed (step b e) = 0 \/ buttons_pressed (step b e) = 1).
Proof.
  intros Hinv. unfold step, handle. destruct e as [button|i k|i|pick|].
  - destruct (select_piece_counters button b (inv_coherent b Hinv))
      as [Hc Hb]. split; [right; exact Hc | intros _; exact Hb].
  - unfold return_piece.
    destruct (nth_error (promos b) i) as [[c|]|]; cbn; auto.
    destruct (sq2 b); cbn; auto.
  - cbn. auto.
  - destruct (random_ai_move_cases pick b Hinv)
      as [[Hg _] | (b2 & m2 & Hi2 & Hg & _ & ->)].
    + apply game_fields in Hg.
      destruct Hg as (_ & Hb & Ht & _ & _ & Hm & _).
      rewrite Hb, Ht, Hm. auto.
    + apply game_fields in Hg.
      destruct Hg as (_ & Hb & Ht & _ & _ & Hm & _).
      destruct (select_piece_counters m2 b2 (inv_coherent b2 Hi2))
        as [Hc Hbb]. rewrite Ht, Hm in Hc.
      split; [right; exact Hc | intros _; exact Hbb].
  - cbn. auto.
Qed.

(** In every state a session can reach, the turn counter is the number of
    moves in the history (so it is never negative, and the side to move
    is White exactly after an even number of recorded moves). *)
Theorem turn_counter_counts_history (b : Board) :
  reachable b -> turns b = Z.of_nat (List.length (move_history b)).
Proof.
  induction 1 as [|b e Hr IH Hok]; [reflexivity|].
  destruct (step_counters b e (reachable_inv b Hr))
    as [[[-> ->] | [[-> ->] | [-> [x ->]]]] _].
  - reflexivity.
  - exact IH.
  - rewrite length_app, Nat2Z.inj_add, IH. reflexivity.
Qed.

(** In every state a session can reach, [buttons_pressed] is 0 or 1: the
    fallback branch of [select_piece] is never taken. *)
Theorem buttons_pressed_is_zero_or_one (b : Board) :
  reachable b -> buttons_pressed b = 0 \/ buttons_pressed b = 1.
Proof.
  induction 1 as [|b e Hr IH Hok]; [now left|].
  now apply (step_counters b e (reachable_inv b Hr)).
Qed.

(** * The check detector, the king, the names *)

(** [in_check], called as [select_piece] calls it (the mover's colour is
    recorded, the mover's king is on the board, and the button of the last
    click shows a piece of the mover's colour, the piece that has just
    been moved there): an answer True means that the king is attacked,
    an answer False means that it is not, and then the four cursor fields
    are restored, so the state is exactly the one before the call; and an
    exception means that the pattern engine raised for a piece of the
    other side.  In no case is the game touched. *)
Theorem in_check_answers_are_sound (b : Board) (c : color) (ks d : square)
    (k : kind) :
  piece_color b = Some c -> find_king b (Img c King) = Some ks ->
  sq2_button b = Some d -> squares b d = Img c k ->
  (forall b', in_check b = Done true b' ->
     attacked (squares b) c /\ game b' = game b) /\
  (forall b', in_check b = Done false b' ->
     ~ attacked (squares b) c /\ b' = b) /\
  (forall b', in_check b = Raised b' ->
     (exists q, on_board q = true /\
                in_pieces (opposite c) (squares b q) = true /\
                isPseudoLegal (squares b) q ks = Raise) /\
     game b' = game b).
Proof.
  intros Hpc Hks Hd Himg.
  pose proof (in_check_in_context b c ks d k Hpc Hks Hd Himg) as Hctx.
  destruct (in_check_cases b)
    as [E | [(b1 & E & Hg & _) | (b1 & E & Hg & _)]];
    rewrite E in Hctx; rewrite E;
    (split; [|split]); intros b' Hb'; try discriminate;
    injection Hb' as <-; auto.
Qed.

(** When the king of the recorded colour is not on the board, [find_king]
    returns [None], and [in_check] raises as soon as it tests a piece of
    the other side: with such a piece on the board it never returns, and
    the game is as it was when the exception leaves. *)
Theorem in_check_without_king_raises (b : Board) (c : color) (q : square) :
  piece_color b = Some c -> find_king b (Img c King) = None ->
  on_board q = true -> in_pieces (opposite c) (squares b q) = true ->
  exists b', in_check b = Raised b' /\ game b' = game b.
Proof.
  intros Hpc Hk Hq Hopp. apply in_all_squares in Hq.
  destruct (in_check_no_king b c q Hpc Hk Hq Hopp) as (b' & E).
  exists b'. split; [exact E|].
  destruct (in_check_cases b)
    as [E' | [(b1 & E' & Hg & _) | (b1 & E' & Hg & _)]];
    rewrite E' in E; try discriminate.
  injection E as <-. exact Hg.
Qed.


(** [find_king] returns the name of a square of the board that shows the
    image it was asked for; it returns [None], and raises nothing, exactly
    when no square of the board shows that image. *)
Theorem find_king_finds_the_image (b : Board) (img : image) :
  (find_king b img = None <->
     forall q, on_board q = true -> squares b q <> img) /\
  (forall q, find_king b img = Some q ->
     on_board q = true /\ squares b q = img).
Proof.
  unfold find_king. split.
  - rewrite find_first_none. split.
    + intros H q Hq. apply H. now apply in_all_squares.
    + intros H q Hq. apply H. now apply in_all_squares.
  - intros q Hq.
    destruct (find_first_some _ _ _ _ Hq) as [Hin Himg].
    split; [now apply in_all_squares | exact Himg].
Qed.

(** [get_piece_name] tells the thirteen images apart: two images with the
    same name are the same image, and the name is "Unknown" exactly for
    the blank image.  So an entry of the history identifies the piece that
    moved. *)
Theorem get_piece_name_identifies_the_image (i j : image) :
  (get_piece_name i = get_piece_name j -> i = j) /\
  (get_piece_name i = "Unknown"%string <-> i = Blank).
Proof.
  split.
  - destruct i as [|[] []], j as [|[] []]; cbn; intros H;
      first [reflexivity | discriminate H].
  - destruct i as [|[] []]; cbn; split; intros H;
      first [reflexivity | discriminate H].
Qed.

(** ** The starting position *)

Lemma on_board_cases (q : square) :
  on_board q = true ->
  In (file q) [0; 1; 2; 3; 4; 5; 6; 7] /\ In (rank q) [1; 2; 3; 4; 5; 6; 7; 8].
Proof. intros H. apply on_board_iff in H. cbn. lia. Qed.

(** [set_pieces] writes every square of the board: whatever was on the
    board before, each of the 64 squares shows afterwards what it shows
    in a new game.  (The loop of [restart_game] that blanks the board
    first changes nothing.) *)
Theorem set_pieces_resets_every_square (sqs : board) (q : square) :
  on_board q = true -> set_pieces sqs q = squares initial_board q.
Proof.
  intros H. destruct q as [f r].
  destruct (on_board_cases (f, r) H) as [Hf Hr]. cbn [file rank fst snd] in *.
  cbn [In] in Hf, Hr.
  repeat (destruct Hf as [<-|Hf]; [|]); try contradiction;
    repeat (destruct Hr as [<-|Hr]; [|]); try contradiction;
    vm_compute; reflexivity.
Qed.

(** * The colours of the squares *)

Lemma config_bg_loop_other {A : Type} (pos : A -> square) (col : A -> string)
    (l : list A) (bg : colors) (q : square) :
  (forall x, In x l -> pos x <> q) ->
  fold_left (fun bg x => config_bg (pos x) (col x) bg) l bg q = bg q.
Proof.
  revert bg. induction l as [|x l IH]; intros bg H; [reflexivity|].
  cbn [fold_left]. rewrite IH by (intros y Hy; apply H; now right).
  unfold config_bg. replace (sq_eqb q (pos x)) with false; [reflexivity|].
  symmetry. apply sq_eqb_neq. intros ->. now apply (H x); [left|].
Qed.

Lemma loop_other {A : Type} (F : colors -> A -> colors) (l : list A)
    (bg : colors) (q : square) :
  (forall x bg, In x l -> F bg x q = bg q) ->
  fold_left F l bg q = bg q.
Proof.
  revert bg. induction l as [|x l IH]; intros bg H; [reflexivity|].
  cbn [fold_left]. rewrite IH by (intros y bg' Hy; apply H; now right).
  apply H. now left.
Qed.

Lemma off_board_not_painted (q : square) (x y : Z) :
  on_board q = false -> In x (range 0 8) -> In y (range 0 8) ->
  (y, x + 1) <> q /\ (y, 8 - x) <> q.
Proof.
  intros Hoff Hx Hy. apply in_range in Hx, Hy.
  split; intros <-.
  - assert (on_board (y, x + 1) = true) by (apply on_board_iff; cbn [file rank fst snd]; lia).
    congruence.
  - assert (on_board (y, 8 - x) = true) by (apply on_board_iff; cbn [file rank fst snd]; lia).
    congruence.
Qed.

(** [change_theme] repaints every square of the board, and nothing else:
    a square whose file index and rank have an even sum gets the second
    colour of the theme (dark), the others the first (light); so a1 is a
    light square.  What the squares looked like before has no
    influence. *)
Theorem change_theme_paints_by_parity (theme : string * string)
    (bg : colors) (q : square) :
  change_theme theme bg q =
    if on_board q then
      if (file q + rank q) mod 2 =? 0 then snd theme else fst theme
    else bg q.
Proof.
  destruct theme as [light dark]. cbn [fst snd].
  destruct (on_board q) eqn:Hon.
  - destruct q as [f r].
    destruct (on_board_cases (f, r) Hon) as [Hf Hr].
    cbn [file rank fst snd] in *. cbn [In] in Hf, Hr.
    repeat (destruct Hf as [<-|Hf]; [|]); try contradiction;
      repeat (destruct Hr as [<-|Hr]; [|]); try contradiction;
      vm_compute; reflexivity.
  - unfold change_theme. apply loop_other. intros x bg' Hx.
    apply config_bg_loop_other. intros y Hy.
    now apply (off_board_not_painted q x y).
Qed.

(** [set_squares] gives the dark colour, tan4, to the squares whose file
    index and rank have an odd sum, and burlywood1 to the others: a1 is a
    dark square.  This is the wood theme with its two colours
    exchanged. *)
Theorem set_squares_paints_by_parity (bg : colors) (q : square) :
  on_board q = true ->
  set_squares q
  = (if (file q + rank q) mod 2 =? 0
     then "burlywood1"%string else "tan4"%string) /\
  set_squares q = change_theme (snd theme_wood, fst theme_wood) bg q /\
  set_squares q <> change_theme theme_wood bg q.
Proof.
  intros Hon. destruct q as [f r].
  destruct (on_board_cases (f, r) Hon) as [Hf Hr].
  cbn [file rank fst snd] in *. cbn [In] in Hf, Hr.
  repeat (destruct Hf as [<-|Hf]; [|]); try contradiction;
    repeat (destruct Hr as [<-|Hr]; [|]); try contradiction;
    (split; [vm_compute; reflexivity|]);
    (split; [vm_compute; reflexivity|]);
    vm_compute; discriminate.
Qed.

Lemma repaint_loop (col : square -> string) (hs : list square) (bg : colors)
    (q : square) :
  fold_left (fun bg sq => config_bg sq (col sq) bg) hs bg q
  = if existsb (sq_eqb q) hs then col q else bg q.
Proof.
  revert bg. induction hs as [|sq hs IH]; intros bg; [reflexivity|].
  cbn [fold_left existsb]. rewrite IH. unfold config_bg.
  destruct (sq_eqb q sq) eqn:E; cbn [orb].
  - apply sq_eqb_eq in E. subst sq. now destruct (existsb _ hs).
  - reflexivity.
Qed.

(** [clear_highlights] gives a square that was highlighted the colour the
    wood theme gives it, whatever theme the board has at that time; this
    is not the colour [set_squares] gave that square at the start, but
    the other one.  The squares that were not highlighted keep their
    colour. *)
Theorem clear_highlights_repaints_in_wood (b : Board) (bg : colors)
    (q : square) :
  on_board q = true ->
  (In q (highlighted_squares b) ->
   clear_highlights_bg b bg q = change_theme theme_wood bg q /\
   clear_highlights_bg b bg q <> set_squares q) /\
  (~ In q (highlighted_squares b) -> clear_highlights_bg b bg q = bg q).
Proof.
  intros Hon. unfold clear_highlights_bg.
  rewrite (repaint_loop
             (fun sq => if (8 - rank sq + file sq) mod 2 =? 0
                        then "tan4"%string else "burlywood1"%string)).
  split.
  - intros Hin.
    replace (existsb (sq_eqb q) (highlighted_squares b)) with true.
    2:{ symmetry. apply existsb_exists. exists q.
        split; [exact Hin | apply sq_eqb_refl]. }
    destruct q as [f r].
    destruct (on_board_cases (f, r) Hon) as [Hf Hr].
    cbn [file rank fst snd] in *. cbn [In] in Hf, Hr.
    clear Hin Hon.
    repeat (destruct Hf as [<-|Hf]; [|]); try contradiction;
      repeat (destruct Hr as [<-|Hr]; [|]); try contradiction;
      (split; [vm_compute; reflexivity | vm_compute; discriminate]).
  - intros Hnot.
    replace (existsb (sq_eqb q) (highlighted_squares b)) with false;
      [reflexivity|].
    symmetry. apply not_true_is_false. intros H.
    apply existsb_exists in H. destruct H as (x & Hx & E).
    apply sq_eqb_eq in E. now subst x.
Qed.

(** * Cancelling a selection, and the random mover *)

Lemma second_click_same_square (button : square) (b : Board) :
  buttons_pressed b = 1 -> sq1 b = Some button ->
  select_piece button b
  = Done tt (set_buttons_pressed 0
               (set_sq2_button (Some button)
                  (set_sq2 (Some button) (clear_highlights b)))).
Proof.
  intros Hbp Hs1. unfold select_piece.
  change (buttons_pressed (clear_highlights b)) with (buttons_pressed b).
  rewrite Hbp. cbn [Z.eqb]. unfold second_click.
  cbn [sq1 set_sq2 set_sq2_button clear_highlights set_highlighted_squares].
  rewrite Hs1, sq_eqb_refl. reflexivity.
Qed.

(** Selecting a piece and clicking it again: when the first click has
    selected the piece, the second click on the same square returns, and
    afterwards nothing is selected, nothing is highlighted and the
    position, the counters, the flags and the history are those from
    before the first click.  The colour recorded by the first click is
    not reset. *)
Theorem select_then_cancel (button : square) (b b1 : Board) :
  buttons_pressed b = 0 -> select_piece button b = Done tt b1 ->
  buttons_pressed b1 = 1 ->
  exists b2,
    select_piece button b1 = Done tt b2 /\
    buttons_pressed b2 = 0 /\ position b2 = position b /\
    highlighted_squares b2 = [] /\
    piece_color b2 = Some (side_to_move b).
Proof.
  intros Hbp Hsel Hbp1.
  destruct (in_pieces (side_to_move b) (squares b button)) eqn:Hown.
  - destruct (first_click_own_piece_result button b b1 Hbp Hown Hsel)
      as (_ & Hs1 & _ & Hpc & _ & Hpos).
    eexists. split; [now apply second_click_same_square|].
    split; [reflexivity|]. split; [|split; [reflexivity | exact Hpc]].
    rewrite <- Hpos. reflexivity.
  - rewrite (first_click_other_square button b Hbp Hown) in Hsel.
    injection Hsel as <-. cbn in Hbp1. lia.
Qed.

Lemma ai_targets_list (sq : square) (targets : list square)
    (acc movable : list (square * square)) (b b' : Board) :
  sq1 b = Some sq -> sq1_button b = Some sq ->
  ai_targets sq targets acc b = Done movable b' ->
  movable
  = (acc ++ map (pair sq)
              (filter (legal_target (squares b) (piece_color b) sq) targets))
    %list.
Proof.
  revert acc b. induction targets as [|t rest IH]; intros acc b H1 Hb1 Hrun.
  - cbn in Hrun. injection Hrun as <- _. cbn. now rewrite app_nil_r.
  - cbn [ai_targets] in Hrun.
    rewrite (allowed_and_not_friendly_target _ sq t) in Hrun
      by (cbn; first [assumption | reflexivity]).
    cbn [squares piece_color set_sq2 set_sq2_button] in Hrun. cbn [filter].
    destruct (isPseudoLegal (squares b) sq t) as [r| |]; try discriminate.
    destruct (legal_target (squares b) (piece_color b) sq t).
    + apply IH in Hrun; [|assumption..].
      rewrite Hrun. cbn. now rewrite <- app_assoc.
    + apply IH in Hrun; [|assumption..]. exact Hrun.
Qed.

Lemma ai_sources_list (pieces : image -> bool) (keys : list square)
    (acc movable : list (square * square)) (b b' : Board) :
  ai_sources pieces keys acc b = Done movable b' ->
  movable
  = (acc ++ flat_map
              (fun sq =>
                 if pieces (squares b sq)
                 then map (pair sq)
                        (filter (legal_target (squares b) (piece_color b) sq)
                           all_squares)
                 else [])
              keys)%list.
Proof.
  revert acc b. induction keys as [|sq rest IH]; intros acc b Hrun.
  - cbn in Hrun. injection Hrun as <- _. cbn. now rewrite app_nil_r.
  - cbn [ai_sources] in Hrun. cbn [flat_map].
    destruct (pieces (squares b sq)).
    + pose proof (ai_targets_frame sq all_squares acc
                    (set_sq1_button (Some sq) (set_sq1 (Some sq) b)))
        as (Hg & _ & _).
      destruct (ai_targets sq all_squares acc _) as [mv b1|b1] eqn:Et;
        [|discriminate].
      apply ai_targets_list in Et; [|reflexivity..].
      cbn [squares piece_color set_sq1 set_sq1_button state_of] in Et, Hg.
      apply game_fields in Hg. destruct Hg as (Hsq & _ & _ & _ & _ & _ & Hpc & _).
      cbn [squares piece_color set_sq1 set_sq1_button] in Hsq, Hpc.
      apply IH in Hrun. rewrite Hsq, Hpc in Hrun.
      rewrite Hrun, Et. now rewrite <- app_assoc.
    + apply IH in Hrun. exact Hrun.
Qed.

Lemma random_ai_move_unfold (pick : nat) (b : Board) :
  random_ai_move pick b =
  match ai_sources (in_pieces (side_to_move b)) all_squares [] b with
  | Raised b1 => Raised b1
  | Done movable b1 =>
      match random_choice pick movable with
      | None => Done tt b1
      | Some (m1, m2) =>
          select_piece m2
            (set_sq2_button (Some m2)
               (set_sq1_button (Some m1)
                  (set_sq2 (Some m2) (set_sq1 (Some m1) b1))))
      end
  end.
Proof.
  unfold random_ai_move. rewrite <- side_pieces.
  now destruct (turns b mod 2 =? 1).
Qed.

(** What [random_ai_move] does when its enumeration returns: the list it
    chooses from holds, for every piece of the side to move, the targets
    the pattern engine allows, less those showing a piece of the colour
    that happens to be recorded in [piece_color]; there is no test for
    check.  With an empty list nothing happens.  Otherwise the pair at
    the chosen index is written into the cursor fields and the call ends
    with [select_piece] on the button of the target, in the state the
    board object is in: the game itself has not been touched by the
    enumeration. *)
Theorem random_mover_chooses_among_candidates (pick : nat) (b b1 : Board)
    (movable : list (square * square)) :
  ai_sources (in_pieces (side_to_move b)) all_squares [] b = Done movable b1 ->
  movable = candidates b /\ game b1 = game b /\
  (candidates b = [] -> random_ai_move pick b = Done tt b1) /\
  (forall from to,
     nth_error (candidates b) (Nat.modulo pick (List.length (candidates b)))
     = Some (from, to) ->
     random_ai_move pick b =
       select_piece to
         (set_sq2_button (Some to)
            (set_sq1_button (Some from)
               (set_sq2 (Some to) (set_sq1 (Some from) b1))))).
Proof.
  intros Hrun. pose proof (ai_sources_list _ _ _ _ _ _ Hrun) as Hl.
  cbn [app] in Hl. fold (candidates b) in Hl.
  destruct (ai_sources_spec (in_pieces (side_to_move b)) all_squares [] b)
    as (Hg & _ & _).
  rewrite Hrun in Hg. cbn [state_of] in Hg.
  split; [exact Hl|]. split; [exact Hg|].
  rewrite random_ai_move_unfold, Hrun. unfold random_choice. rewrite Hl.
  split.
  - intros ->.
    now destruct (Nat.modulo pick (List.length (@nil (square * square)))).
  - intros from to ->. reflexivity.
Qed.

(** * Promotion dialogs and exceptions *)

(** A committed move opens a promotion dialog exactly when the piece that
    moved is a White pawn arriving on rank 8 or a Black pawn arriving on
    rank 1.  The dialog is built for whatever [piece_color] holds at that
    time: when no colour is recorded, [promotion_menu] gets [None] and
    the dialog has no button. *)
Theorem promotion_dialog_follows_recorded_color (button : square)
    (b b' : Board) :
  coherent b -> select_piece button b = Done tt b' ->
  turns b' = turns b + 1 ->
  exists from,
    sq1 b = Some from /\
    promos b' =
      if (image_eqb (squares b from) (Img White Pawn) && (rank button =? 8))
         || (image_eqb (squares b from) (Img Black Pawn)
             && (rank button =? 1))
      then (promos b ++ [piece_color b])%list else promos b.
Proof.
  intros Hco Hsel Hturn.
  destruct (select_piece_commit button b b' Hco Hsel Hturn)
    as (s1 & H1 & _ & _ & _ & _ & _ & _ & _ & _ & _ & Hpm).
  exists s1. auto.
Qed.

(** ** When a click raises *)

Lemma probe_not_next (sqs : board) (from to : square) :
  isPseudoLegal sqs from to <> Next.
Proof. apply allowed_not_next. Qed.

Lemma highlight_loop_outcome (keys : list square) (b : Board) (s1 : square) :
  sq1 b = Some s1 -> sq1_button b = Some s1 ->
  match highlight_loop keys b with
  | Done _ _ =>
      forall t, In t keys -> isPseudoLegal (squares b) s1 t <> Raise
  | Raised _ =>
      exists t, In t keys /\ isPseudoLegal (squares b) s1 t = Raise
  end.
Proof.
  revert b. induction keys as [|sq rest IH]; intros b H1 Hb1.
  - cbn. intros t [].
  - cbn [highlight_loop].
    rewrite (allowed_and_not_friendly_target _ s1 sq)
      by (cbn; first [assumption | reflexivity]).
    cbn [squares piece_color set_sq2 set_sq2_button].
    pose proof (probe_not_next (squares b) s1 sq) as Hnn.
    destruct (isPseudoLegal (squares b) s1 sq) as [r| |] eqn:Ep;
      [| contradiction | exists sq; split; [now left | exact Ep]].
    destruct (legal_target (squares b) (piece_color b) s1 sq).
    + match goal with
      | |- context [highlight_loop rest ?x] =>
          specialize (IH x H1 Hb1);
          destruct (highlight_loop rest x)
      end; cbn [squares set_highlighted_squares set_sq2 set_sq2_button] in IH.
      * intros t [<-|Ht]; [congruence | now apply IH].
      * destruct IH as (t & Ht & E). exists t. split; [now right | exact E].
    + match goal with
      | |- context [highlight_loop rest ?x] =>
          specialize (IH x H1 Hb1);
          destruct (highlight_loop rest x)
      end; cbn [squares set_highlighted_squares set_sq2 set_sq2_button] in IH.
      * intros t [<-|Ht]; [congruence | now apply IH].
      * destruct IH as (t & Ht & E). exists t. split; [now right | exact E].
Qed.

Lemma possible_moves_loop_outcome (keys : list square) (acc : list square)
    (b : Board) (s1 : square) :
  sq1 b = Some s1 -> sq1_button b = Some s1 ->
  match possible_moves_loop keys acc b with
  | Done _ _ =>
      forall t, In t keys -> isPseudoLegal (squares b) s1 t <> Raise
  | Raised _ =>
      exists t, In t keys /\ isPseudoLegal (squares b) s1 t = Raise
  end.
Proof.
  revert acc b. induction keys as [|sq rest IH]; intros acc b H1 Hb1.
  - cbn. intros t [].
  - cbn [possible_moves_loop].
    rewrite (allowed_and_not_friendly_target _ s1 sq)
      by (cbn; first [assumption | reflexivity]).
    cbn [squares piece_color set_sq2 set_sq2_button].
    pose proof (probe_not_next (squares b) s1 sq) as Hnn.
    destruct (isPseudoLegal (squares b) s1 sq) as [r| |] eqn:Ep;
      [| contradiction | exists sq; split; [now left | exact Ep]].
    destruct (legal_target (squares b) (piece_color b) s1 sq).
    + match goal with
      | |- context [possible_moves_loop rest ?a ?x] =>
          specialize (IH a x H1 Hb1);
          destruct (possible_moves_loop rest a x)
      end; cbn [squares set_sq2 set_sq2_button] in IH.
      * intros t [<-|Ht]; [congruence | now apply IH].
      * destruct IH as (t & Ht & E). exists t. split; [now right | exact E].
    + match goal with
      | |- context [possible_moves_loop rest ?a ?x] =>
          specialize (IH a x H1 Hb1);
          destruct (possible_moves_loop rest a x)
      end; cbn [squares set_sq2 set_sq2_button] in IH.
      * intros t [<-|Ht]; [congruence | now apply IH].
      * destruct IH as (t & Ht & E). exists t. split; [now right | exact E].
Qed.

(** The first click on a piece of the side to move raises exactly when
    the pattern engine raises for that piece and some square of the
    board (so only for a bishop or a queen with a walk that leaves the
    board).  The exception leaves the piece selected and the position
    untouched. *)
Theorem first_click_raises_with_the_engine (button : square) (b : Board) :
  buttons_pressed b = 0 ->
  in_pieces (side_to_move b) (squares b button) = true ->
  ((exists b', select_piece button b = Raised b') <->
   exists t, on_board t = true /\
             isPseudoLegal (squares b) button t = Raise) /\
  (forall b', select_piece button b = Raised b' ->
     buttons_pressed b' = 1 /\ sq1 b' = Some button /\
     position b' = position b).
Proof.
  intros Hbp Hown.
  pose proof (first_click_frame button b Hbp) as Hpos.
  destruct (first_click_own_piece button b Hbp Hown)
    as (b1 & Esel & Hg1 & Hs1 & Hb1 & Hh1).
  rewrite Esel in *. clear Esel.
  apply game_fields in Hg1.
  destruct Hg1 as (Hsq1 & Hbp1 & _). cbn in Hsq1, Hbp1.
  pose proof (highlight_loop_outcome all_squares b1 button Hs1 Hb1) as Hho.
  pose proof (highlight_loop_frame all_squares b1) as (Hg3 & Hs3 & Hb3).
  destruct (highlight_loop all_squares b1) as [[] b3|b3];
    cbn [state_of] in *.
  - rewrite Hs1 in Hs3. rewrite Hb1 in Hb3.
    pose proof (possible_moves_loop_outcome all_squares [] b3 button Hs3 Hb3)
      as Hpo.
    pose proof (possible_moves_loop_frame all_squares [] b3)
      as (Hg4 & Hs4 & Hb4).
    apply game_fields in Hg3. destruct Hg3 as (Hsq3 & Hbp3 & _).
    rewrite Hsq3, Hsq1 in Hpo.
    destruct (possible_moves_loop all_squares [] b3) as [pm b4|b4];
      cbn [state_of] in *.
    + split.
      * split; [intros (b' & E); discriminate|].
        intros (t & Ht & E). exfalso.
        apply (Hpo t); [now apply in_all_squares | exact E].
      * intros b' E. discriminate.
    + split.
      * split; [intros _ | intros _; now exists b4].
        destruct Hpo as (t & Ht & E). exists t.
        split; [now apply in_all_squares | exact E].
      * intros b' E. injection E as <-.
        apply game_fields in Hg4. destruct Hg4 as (_ & Hbp4 & _).
        split; [congruence|]. split; [congruence | exact Hpos].
  - rewrite Hsq1 in Hho. split.
    + split; [intros _ | intros _; now exists b3].
      destruct Hho as (t & Ht & E). exists t.
      split; [now apply in_all_squares | exact E].
    + intros b' E. injection E as <-.
      apply game_fields in Hg3. destruct Hg3 as (_ & Hbp3 & _).
      split; [congruence|]. split; [congruence | exact Hpos].
Qed.

(** A second click that raises (a piece is selected, and the handler ends
    by an exception) never advances the turn, records nothing and keeps
    the piece selected.  Either the pattern engine raised for the selected
    piece and the clicked square, and the position is untouched; or the
    move had passed the pattern test and [in_check] raised for a piece of
    the other side: then the piece has been moved to the clicked square
    and stays there, and the cursor [sq1] is left on the piece for which
    the engine raised. *)
Theorem second_click_exception_effects (button s1 : square) (b b' : Board) :
  coherent b -> buttons_pressed b = 1 -> sq1 b = Some s1 ->
  select_piece button b = Raised b' ->
  turns b' = turns b /\ move_history b' = move_history b /\
  castling_rights b' = castling_rights b /\ buttons_pressed b' = 1 /\
  ((isPseudoLegal (squares b) s1 button = Raise /\ squares b' = squares b)
   \/ (isPseudoLegal (squares b) s1 button = Return true /\
       squares b' = upd (upd (squares b) button (squares b s1)) s1 Blank /\
       exists c q,
         piece_color b = Some c /\ on_board q = true /\
         in_pieces (opposite c) (squares b' q) = true /\
         sq1 b' = Some q /\ allowed_piece_move b' = Raise)).
Proof.
  intros Hco Hbp Hs1 Hsel.
  unfold select_piece in Hsel.
  change (buttons_pressed (clear_highlights b)) with (buttons_pressed b) in Hsel.
  rewrite Hbp in Hsel.
  change (1 =? 0) with false in Hsel. change (1 =? 1) with true in Hsel.
  cbv iota in Hsel. unfold second_click in Hsel.
  cbn [sq1 set_sq2 set_sq2_button clear_highlights set_highlighted_squares]
    in Hsel.
  rewrite Hs1 in Hsel.
  destruct (sq_eqb button s1) eqn:Eq; [discriminate|].
  apply sq_eqb_neq in Eq.
  match type of Hsel with
  | context [allowed_and_not_friendly ?x] =>
      pose proof (allowed_and_not_friendly_target x s1 button) as Ha
  end.
  rewrite Ha in Hsel
    by first [exact Hs1 | reflexivity | cbn; rewrite <- Hco; exact Hs1].
  clear Ha.
  cbn [squares piece_color set_sq2 set_sq2_button set_highlighted_squares
       clear_highlights] in Hsel.
  pose proof (probe_not_next (squares b) s1 button) as Hnn.
  destruct (isPseudoLegal (squares b) s1 button) as [r| |] eqn:Ep;
    [| contradiction |].
  2:{ injection Hsel as <-. cbn. rewrite Hbp. repeat split; auto. }
  unfold legal_target in Hsel. rewrite Ep in Hsel.
  destruct r; [|discriminate].
  match type of Hsel with
  | context [if ?c then _ else _] => destruct c
  end; [|discriminate].
  match type of Hsel with
  | context [try_move s1 button ?x] =>
      destruct (try_move_cases s1 button x) as
        [(b1 & Ein & Et) | [(b1 & _ & _ & _ & _ & Et)
                           | (b1 & _ & _ & Hb2 & _ & Et)]];
      [cbn; rewrite <- Hco; exact Hs1 | | | ]; rewrite Et in Hsel; clear Et
  end.
  - injection Hsel as <-.
    apply in_check_raised in Ein.
    destruct Ein as (c & q & Hpc & Hq & Hq1 & _ & Hopp & _ & Hal & Hg & _).
    apply game_fields in Hg. cbn in Hg.
    destruct Hg as (Hsq & Hb & Ht & Hcr & _ & Hm & _).
    split; [exact Ht|]. split; [exact Hm|]. split; [exact Hcr|].
    split; [congruence|]. right. split; [reflexivity|].
    split; [exact Hsq|]. exists c, q.
    split; [exact Hpc|]. split; [now apply in_all_squares|].
    split; [|split; [exact Hq1 | exact Hal]].
    rewrite Hsq. exact Hopp.
  - discriminate.
  - exfalso.
    match type of Hsel with
    | context [complete_move ?a ?i ?c ?d] =>
        destruct (complete_move_promos a i c button d Hb2) as [(bx & E) _]
    end.
    rewrite E in Hsel. discriminate.
Qed.

(** In every state a session can reach, [castled] is False: nothing ever
    sets it, so the test [not self.castled] after [in_check] is always
    true. *)
Theorem castled_is_never_set (b : Board) : reachable b -> castled b = false.
Proof. intros H. apply inv_castled. now apply reachable_inv. Qed.

(** ** Restart *)

Lemma return_piece_open (i : nat) (k : choice) (b : Board) (c : color)
    (to : square) :
  nth_error (promos b) i = Some (Some c) -> sq2 b = Some to ->
  return_piece i k b
  = Done tt (set_promos (remove_nth i (promos b))
               (put_image to (Img c (choice_kind k)) b)).
Proof.
  intros Hi Hto. unfold return_piece. rewrite Hi, Hto. reflexivity.
Qed.

(** [restart_game] puts the position, the turn counter, the flags and the
    history back to those of a new game and cancels the selection, from
    any state; but it leaves the recorded colour, the cursor, the list of
    highlighted squares and the open promotion dialogs as they are.  So a
    dialog that was open before the restart is still open afterwards, and
    pressing one of its buttons writes a piece of the dialog's colour on
    the board of the new game, at the square the cursor [sq2] was left
    on. *)
Theorem restart_keeps_open_dialogs (b : Board) :
  (squares (restart_game b) = squares initial_board /\
   turns (restart_game b) = 0 /\ move_history (restart_game b) = [] /\
   castling_rights (restart_game b) = castling_rights initial_board /\
   buttons_pressed (restart_game b) = 0) /\
  (piece_color (restart_game b) = piece_color b /\
   sq2 (restart_game b) = sq2 b /\
   highlighted_squares (restart_game b) = highlighted_squares b /\
   promos (restart_game b) = promos b) /\
  (forall i k c to,
     nth_error (promos b) i = Some (Some c) -> sq2 b = Some to ->
     exists b',
       return_piece i k (restart_game b) = Done tt b' /\
       squares b' to = Img c (choice_kind k) /\
       forall q, q <> to -> squares b' q = squares initial_board q).
Proof.
  split; [|split].
  - split; [reflexivity|]. split; [reflexivity|]. split; [reflexivity|].
    split; reflexivity.
  - split; [reflexivity|]. split; [reflexivity|]. split; reflexivity.
  - intros i k c to Hi Hto. eexists.
    split; [apply (return_piece_open i k (restart_game b) c to Hi Hto)|].
    split.
    + apply upd_same.
    + intros q Hq. apply upd_other. exact Hq.
Qed.

(** ** The random mover in the idle state *)

Lemma random_ai_move_idle (pick : nat) (b : Board) :
  buttons_pressed b = 0 ->
  position (state_of (random_ai_move pick b)) = position b.
Proof.
  intros Hbp. unfold random_ai_move.
  match goal with
  | |- context [ai_sources ?p all_squares [] b] =>
      destruct (ai_sources_spec p all_squares [] b) as (Hg & _ & _);
      destruct (ai_sources p all_squares [] b) as [movable b1|b1]
  end; cbn [state_of] in *.
  - destruct (random_choice pick movable) as [[m1 m2]|]; cbn [state_of].
    + rewrite first_click_frame.
      * apply game_position in Hg. exact Hg.
      * apply game_fields in Hg. cbn. destruct Hg as (_ & -> & _). exact Hbp.
    + now apply game_position.
  - now apply game_position.
Qed.

(** * Sessions played from the initial position *)

Ltac by_computation :=
  cbv zeta;
  repeat match goal with
         | |- _ /\ _ => split
         | |- attacked _ _ => idtac
         | |- _ = _ => vm_compute; reflexivity
         end.

Local Open Scope string_scope.

(** C1 fails on the code.  After 1. e4 f5 2. Qh5+ Black is in check.
    Black selects the pawn a7, tries the illegal a7-a4 (rejected, but the
    pawn stays selected and [piece_color] is reset) and then clicks a6:
    the move a7-a6 is committed although the queen on h5 still attacks
    the king on e8.  The same two clicks a7, a6 without the illegal
    attempt in between are rejected. *)
Lemma self_check_commit_after_illegal_attempt :
  let b := run check_on_black initial_board in
  let b' := run (clicks ["a7"; "a4"; "a6"]) b in
  let b'' := run (clicks ["a7"; "a6"]) b in
  all_return (check_on_black ++ clicks ["a7"; "a4"; "a6"])%list initial_board
  = true /\
  turns b = 3 /\ side_to_move b = Black /\ attacked (squares b) Black /\
  turns b' = 4 /\
  move_history b' = (move_history b ++ [(named "a7", named "a6", "Black P")])%list /\
  squares b' (named "a6") = Img Black Pawn /\
  attacked (squares b') Black /\
  turns b'' = 3 /\ squares b'' (named "a6") = Blank.
Proof.
  by_computation.
  - exists (named "e8"), (named "h5"). by_computation.
  - exists (named "e8"), (named "h5"). by_computation.
Qed.

(** C3 fails on the code.  In the initial position White selects e2 and
    clicks e5: the attempt is rejected, but e2 stays selected
    ([buttons_pressed] is still 1).  The next click is therefore not a
    first click: on e3 it moves the pawn at once; and with the king
    selected, after the rejected e1-e3, a click on e2 lets the king
    capture its own pawn, which a fresh selection would never do. *)
Lemma illegal_attempt_keeps_selection :
  let b := run (clicks ["e2"; "e5"]) initial_board in
  let b' := step b (Click (named "e3")) in
  let k := run (clicks ["e1"; "e3"; "e2"]) initial_board in
  position b = position initial_board /\
  buttons_pressed b = 1 /\ sq1 b = Some (named "e2") /\
  piece_color b = None /\
  turns b' = 1 /\ squares b' (named "e3") = Img White Pawn /\
  turns k = 1 /\ squares k (named "e2") = Img White King.
Proof.
  by_computation.
Qed.

(** C4, as stated, fails.  5. axb8 puts a White pawn on the last rank and
    opens the dialog.  With the dialog open Black plays h5-h4: the move is
    committed and the board changes.  A choice made in the dialog after
    that move writes the queen on h4, the destination of the last click,
    and the pawn stays on b8. *)
Lemma promotion_pending_does_not_block :
  let b := run (before_promotion ++ clicks ["b8"])%list initial_board in
  let b' := run (clicks ["h5"; "h4"]) b in
  let b'' := step b' (Promote 0 Queen_) in
  all_return (before_promotion ++ clicks ["b8"; "h5"; "h4"])%list
    initial_board = true /\
  promos b = [Some White] /\ squares b (named "b8") = Img White Pawn /\
  turns b = 9 /\ squares b (named "h4") = Blank /\
  promos b' = [Some White] /\ turns b' = 10 /\
  squares b' (named "h4") = Img Black Pawn /\
  squares b'' (named "h4") = Img White Queen /\
  squares b'' (named "b8") = Img White Pawn.
Proof. by_computation. Qed.

(** C5 fails on the code.  Requested in the idle state, from the initial
    position and for every index the random choice can return, the mover
    changes neither the board nor the turn counter nor the history: its
    call of [select_piece] is taken as a first click.  The list it
    chooses from has 46 pairs and contains a1-a2, a capture of White's own
    pawn, and a1-a1. *)
Lemma random_mover_idle_does_not_move :
  (forall pick,
     position (state_of (random_ai_move pick initial_board))
     = position initial_board) /\
  exists movable b1,
    ai_sources white_pieces all_squares [] initial_board = Done movable b1 /\
    List.length movable = 46%nat /\
    In (named "a1", named "a2") movable /\
    In (named "a1", named "a1") movable.
Proof.
  split.
  - intros pick. now apply random_ai_move_idle.
  - eexists. eexists. split; [vm_compute; reflexivity|].
    split; [reflexivity|]. split.
    + right. right. left. reflexivity.
    + left. reflexivity.
Qed.

(** C8 fails on the code.  After 1. f3 e6 2. d3 Qh4+ 3. g3 g6 4. Bd2 Bg7
    5. a3 Kf8 6. h3 Bxb2 (no handler has raised so far) White selects g3
    and clicks g4.  The pawn is moved and [in_check] is called; the first
    Black piece it tests is the bishop on b2, whose diagonal scan towards
    e1 reads c1 and then the name d0, which is not a key: the handler
    ends by an exception.  In the state it leaves, the queen on h4 is
    allowed to move to the king's square e1, so the king is attacked, yet
    [in_check] does not return true, it raises; the pawn stays on g4 and
    no move is committed. *)
Lemma in_check_raises_on_attacked_king :
  let b0 := run bishop_on_b2 initial_board in
  let b := run (clicks ["g3"; "g4"]) b0 in
  all_return bishop_on_b2 initial_board = true /\
  turns b0 = 12 /\ piece_color b = Some White /\
  find_king b (Img White King) = Some (named "e1") /\
  squares b (named "h4") = Img Black Queen /\
  isPseudoLegal (squares b) (named "h4") (named "e1") = Return true /\
  attacked (squares b) White /\
  squares b (named "b2") = Img Black Bishop /\
  isPseudoLegal (squares b) (named "b2") (named "e1") = Raise /\
  in_check b = Raised b /\
  squares b0 (named "g3") = Img White Pawn /\ squares b (named "g3") = Blank /\
  squares b (named "g4") = Img White Pawn /\
  turns b = 12 /\ move_history b = move_history b0.
Proof.
  by_computation. exists (named "e1"), (named "h4"). by_computation.
Qed.

(** ** Instances of the general statements *)

Ltac events_ok :=
  repeat (apply Forall_cons; [reflexivity|]); apply Forall_nil.


Lemma committed_move_frame_witness :
  let b := run (clicks ["e2"]) initial_board in
  let b' := state_of (select_piece (named "e4") b) in
  coherent b /\ select_piece (named "e4") b = Done tt b' /\
  turns b' = turns b + 1 /\
  exists from,
    sq1 b = Some from /\ from <> named "e4" /\
    squares b' from = Blank /\
    squares b' (named "e4") = squares b from /\
    forall q, q <> from -> q <> named "e4" -> squares b' q = squares b q.
Proof.
  cbv zeta.
  assert (Hc : coherent (run (clicks ["e2"]) initial_board))
    by (vm_compute; reflexivity).
  assert (Hs : select_piece (named "e4") (run (clicks ["e2"]) initial_board)
               = Done tt (state_of (select_piece (named "e4")
                                      (run (clicks ["e2"]) initial_board))))
    by (vm_compute; reflexivity).
  assert (Ht : turns (state_of (select_piece (named "e4")
                                  (run (clicks ["e2"]) initial_board)))
               = turns (run (clicks ["e2"]) initial_board) + 1)
    by (vm_compute; reflexivity).
  split; [exact Hc|]. split; [exact Hs|]. split; [exact Ht|].
  exact (committed_move_frame _ _ _ Hc Hs Ht).
Defined.

Lemma promotion_dialog_resolves_witness :
  let b := run before_promotion initial_board in
  let b' := state_of (select_piece (named "b8") b) in
  reachable b /\ on_board (named "b8") = true /\
  select_piece (named "b8") b = Done tt b' /\
  promos b' = (promos b ++ [Some White])%list /\
  forall k, exists b'',
    return_piece (List.length (promos b)) k b' = Done tt b'' /\
    squares b'' (named "b8") = Img White (choice_kind k) /\
    (forall q, q <> named "b8" -> squares b'' q = squares b' q) /\
    buttons_pressed b'' = 0 /\ turns b'' = turns b' /\
    promos b'' = promos b.
Proof.
  cbv zeta.
  assert (Hr : reachable (run before_promotion initial_board))
    by (apply reachable_run; [apply reach_init | events_ok]).
  assert (Hon : on_board (named "b8") = true) by reflexivity.
  assert (Hs : select_piece (named "b8") (run before_promotion initial_board)
               = Done tt (state_of (select_piece (named "b8")
                                      (run before_promotion initial_board))))
    by (vm_compute; reflexivity).
  assert (Hp : promos (state_of (select_piece (named "b8")
                                   (run before_promotion initial_board)))
               = (promos (run before_promotion initial_board)
                    ++ [Some White])%list)
    by (vm_compute; reflexivity).
  split; [exact Hr|]. split; [exact Hon|]. split; [exact Hs|].
  split; [exact Hp|].
  exact (proj2 (proj2 (promotion_dialog_resolves _ _ _ _ Hr Hon Hs Hp))).
Defined.

Lemma promotion_installs_own_color_witness :
  let b := run before_promotion initial_board in
  reachable b /\
  forall b',
    handle (Click (named "b8")) b = Done tt b' ->
    promos b' = (promos b ++ [Some White])%list ->
    exists to, sq2 b' = Some to /\ squares b' to = Img White Pawn.
Proof.
  cbv zeta.
  assert (Hr : reachable (run before_promotion initial_board))
    by (apply reachable_run; [apply reach_init | events_ok]).
  split; [exact Hr|].
  intros b'.
  exact (proj1 (promotion_installs_own_color _ Hr)
           (Click (named "b8")) b' White eq_refl).
Defined.

(** ** Further instances of the general statements *)

Lemma bishop_pseudo_legal_witness :
  let sqs := squares initial_board in
  on_board (named "c1") = true /\ on_board (named "a3") = true /\
  sqs (named "c1") = Img White Bishop /\
  (isPseudoLegal sqs (named "c1") (named "a3") = Return true <->
     on_diagonal (named "c1") (named "a3") /\
     forall q, diagonal_between (named "c1") (named "a3") q -> sqs q = Blank).
Proof.
  cbv zeta. split; [reflexivity|]. split; [reflexivity|].
  split; [reflexivity|].
  exact (proj1 (bishop_pseudo_legal (squares initial_board) (named "c1")
                  (named "a3") White eq_refl eq_refl eq_refl)).
Defined.

Lemma queen_pseudo_legal_witness :
  let sqs := squares initial_board in
  on_board (named "d1") = true /\ on_board (named "d3") = true /\
  sqs (named "d1") = Img White Queen /\
  (isPseudoLegal sqs (named "d1") (named "d3") = Raise <->
     walk_leaves_board sqs (named "d1") (named "d3")).
Proof.
  cbv zeta. split; [reflexivity|]. split; [reflexivity|].
  split; [reflexivity|].
  exact (proj1 (proj2 (queen_pseudo_legal (squares initial_board)
                         (named "d1") (named "d3") White
                         eq_refl eq_refl eq_refl))).
Defined.

Lemma knight_pseudo_legal_witness :
  let b := probe (squares initial_board) (named "g1") (named "f3") in
  sq1 b = Some (named "g1") /\ sq1_button b = Some (named "g1") /\
  sq2 b = Some (named "f3") /\ squares b (named "g1") = Img White Knight /\
  (allowed_piece_move b = Return true <->
     knight_jump (named "g1") (named "f3")).
Proof.
  cbv zeta. split; [reflexivity|]. split; [reflexivity|].
  split; [reflexivity|]. split; [reflexivity|].
  exact (proj1 (knight_pseudo_legal
                  (probe (squares initial_board) (named "g1") (named "f3"))
                  (named "g1") (named "f3") White
                  eq_refl eq_refl eq_refl eq_refl)).
Defined.

Lemma king_pseudo_legal_witness :
  let b := probe (squares initial_board) (named "e1") (named "g1") in
  sq1 b = Some (named "e1") /\ sq1_button b = Some (named "e1") /\
  sq2 b = Some (named "g1") /\ squares b (named "e1") = Img White King /\
  2 <= Z.abs (file (named "e1") - file (named "g1")) /\
  allowed_piece_move b = Return false.
Proof.
  cbv zeta. split; [reflexivity|]. split; [reflexivity|].
  split; [reflexivity|]. split; [reflexivity|].
  assert (H : 2 <= Z.abs (file (named "e1") - file (named "g1")))
    by (vm_compute; discriminate).
  split; [exact H|].
  exact (proj2 (proj2 (king_pseudo_legal
                         (probe (squares initial_board) (named "e1")
                            (named "g1"))
                         (named "e1") (named "g1") White
                         eq_refl eq_refl eq_refl eq_refl)) H).
Defined.

Lemma black_pawn_pseudo_legal_witness :
  let sqs := squares initial_board in
  on_board (named "e7") = true /\ sqs (named "e7") = Img Black Pawn /\
  (isPseudoLegal sqs (named "e7") (named "e5") = Return true <->
     exactly_one (black_single_push sqs (named "e7") (named "e5"))
                 (black_double_push sqs (named "e7") (named "e5"))
                 (black_diagonal_capture sqs (named "e7") (named "e5"))).
Proof.
  cbv zeta. split; [reflexivity|]. split; [reflexivity|].
  exact (proj1 (black_pawn_pseudo_legal (squares initial_board)
                  (named "e7") (named "e5") eq_refl eq_refl)).
Defined.

Lemma pattern_engine_raises_only_off_line_witness :
  let sqs := squares (run bishop_on_b2 initial_board) in
  on_board (named "b2") = true /\ on_board (named "e1") = true /\
  isPseudoLegal sqs (named "b2") (named "e1") = Raise /\
  (exists c, sqs (named "b2") = Img c Bishop
             \/ sqs (named "b2") = Img c Queen) /\
  walk_leaves_board sqs (named "b2") (named "e1").
Proof.
  cbv zeta.
  assert (Hr : isPseudoLegal (squares (run bishop_on_b2 initial_board))
                 (named "b2") (named "e1") = Raise)
    by (vm_compute; reflexivity).
  split; [reflexivity|]. split; [reflexivity|]. split; [exact Hr|].
  destruct (pattern_engine_raises_only_off_line
              (squares (run bishop_on_b2 initial_board))
              (named "b2") (named "e1") eq_refl eq_refl Hr)
    as (Hp & Hw & _).
  split; [exact Hp | exact Hw].
Defined.

Lemma first_click_selects_and_highlights_witness :
  buttons_pressed initial_board = 0 /\
  (in_pieces (side_to_move initial_board)
     (squares initial_board (named "e5")) = false ->
   select_piece (named "e5") initial_board
   = Done tt (clear_highlights initial_board)).
Proof.
  split; [reflexivity|].
  exact (proj1 (first_click_selects_and_highlights (named "e5")
                  initial_board eq_refl)).
Defined.

Lemma committed_move_is_recorded_witness :
  let b := run (clicks ["e2"]) initial_board in
  let b' := state_of (select_piece (named "e4") b) in
  coherent b /\ select_piece (named "e4") b = Done tt b' /\
  turns b' = turns b + 1 /\
  exists from,
    sq1 b = Some from /\
    move_history b'
    = (move_history b
       ++ [(from, named "e4", get_piece_name (squares b from))])%list /\
    buttons_pressed b' = 0 /\ piece_color b' = None /\
    highlighted_squares b' = [].
Proof.
  cbv zeta.
  assert (Hc : coherent (run (clicks ["e2"]) initial_board))
    by (vm_compute; reflexivity).
  assert (Hs : select_piece (named "e4") (run (clicks ["e2"]) initial_board)
               = Done tt (state_of (select_piece (named "e4")
                                      (run (clicks ["e2"]) initial_board))))
    by (vm_compute; reflexivity).
  assert (Ht : turns (state_of (select_piece (named "e4")
                                  (run (clicks ["e2"]) initial_board)))
               = turns (run (clicks ["e2"]) initial_board) + 1)
    by (vm_compute; reflexivity).
  split; [exact Hc|]. split; [exact Hs|]. split; [exact Ht|].
  exact (committed_move_is_recorded _ _ _ Hc Hs Ht).
Defined.

Lemma committed_move_sets_castling_flags_witness :
  let b := run (clicks ["e2"; "e4"; "e7"; "e5"; "e1"]) initial_board in
  let b' := state_of (select_piece (named "e2") b) in
  coherent b /\ select_piece (named "e2") b = Done tt b' /\
  turns b' = turns b + 1 /\
  exists from,
    sq1 b = Some from /\
    wk_moved b' = wk_moved b || image_eqb (squares b from) (Img White King).
Proof.
  cbv zeta.
  assert (Hc : coherent
                 (run (clicks ["e2"; "e4"; "e7"; "e5"; "e1"]) initial_board))
    by (vm_compute; reflexivity).
  assert (Hs : select_piece (named "e2")
                 (run (clicks ["e2"; "e4"; "e7"; "e5"; "e1"]) initial_board)
               = Done tt
                   (state_of
                      (select_piece (named "e2")
                         (run (clicks ["e2"; "e4"; "e7"; "e5"; "e1"])
                            initial_board))))
    by (vm_compute; reflexivity).
  assert (Ht : turns
                 (state_of
                    (select_piece (named "e2")
                       (run (clicks ["e2"; "e4"; "e7"; "e5"; "e1"])
                          initial_board)))
               = turns (run (clicks ["e2"; "e4"; "e7"; "e5"; "e1"])
                          initial_board) + 1)
    by (vm_compute; reflexivity).
  split; [exact Hc|]. split; [exact Hs|]. split; [exact Ht|].
  destruct (committed_move_sets_castling_flags _ _ _ Hc Hs Ht)
    as (from & H1 & Hwk & _).
  exists from. split; [exact H1 | exact Hwk].
Defined.

Lemma committed_move_is_pattern_legal_witness :
  let b := run (clicks ["e2"]) initial_board in
  let b' := state_of (select_piece (named "e4") b) in
  coherent b /\ select_piece (named "e4") b = Done tt b' /\
  turns b' = turns b + 1 /\
  exists from,
    sq1 b = Some from /\ from <> named "e4" /\
    isPseudoLegal (squares b) from (named "e4") = Return true /\
    forall c, piece_color b = Some c ->
              in_pieces c (squares b (named "e4")) = false.
Proof.
  cbv zeta.
  assert (Hc : coherent (run (clicks ["e2"]) initial_board))
    by (vm_compute; reflexivity).
  assert (Hs : select_piece (named "e4") (run (clicks ["e2"]) initial_board)
               = Done tt (state_of (select_piece (named "e4")
                                      (run (clicks ["e2"]) initial_board))))
    by (vm_compute; reflexivity).
  assert (Ht : turns (state_of (select_piece (named "e4")
                                  (run (clicks ["e2"]) initial_board)))
               = turns (run (clicks ["e2"]) initial_board) + 1)
    by (vm_compute; reflexivity).
  split; [exact Hc|]. split; [exact Hs|]. split; [exact Ht|].
  exact (committed_move_is_pattern_legal _ _ _ Hc Hs Ht).
Defined.

Lemma turn_counter_counts_history_witness :
  let b := run check_on_black initial_board in
  reachable b /\ turns b = Z.of_nat (List.length (move_history b)).
Proof.
  cbv zeta.
  assert (Hr : reachable (run check_on_black initial_board))
    by (apply reachable_run; [apply reach_init | events_ok]).
  split; [exact Hr | exact (turn_counter_counts_history _ Hr)].
Defined.

Lemma buttons_pressed_is_zero_or_one_witness :
  let b := run (check_on_black ++ clicks ["a7"; "a4"]) initial_board in
  reachable b /\ (buttons_pressed b = 0 \/ buttons_pressed b = 1).
Proof.
  cbv zeta.
  assert (Hr : reachable
                 (run (check_on_black ++ clicks ["a7"; "a4"]) initial_board))
    by (apply reachable_run; [apply reach_init | events_ok]).
  split; [exact Hr | exact (buttons_pressed_is_zero_or_one _ Hr)].
Defined.

Lemma castled_is_never_set_witness :
  let b := run bishop_on_b2 initial_board in
  reachable b /\ castled b = false.
Proof.
  cbv zeta.
  assert (Hr : reachable (run bishop_on_b2 initial_board))
    by (apply reachable_run; [apply reach_init | events_ok]).
  split; [exact Hr | exact (castled_is_never_set _ Hr)].
Defined.

Lemma in_check_answers_are_sound_witness :
  let b :=
    put_image (named "e2") Blank
      (put_image (named "e4") (Img White Pawn)
         (set_sq2_button (Some (named "e4"))
            (set_sq2 (Some (named "e4"))
               (run (clicks ["e2"]) initial_board)))) in
  piece_color b = Some White /\
  find_king b (Img White King) = Some (named "e1") /\
  sq2_button b = Some (named "e4") /\
  squares b (named "e4") = Img White Pawn /\
  forall b', in_check b = Done false b' ->
             ~ attacked (squares b) White /\ b' = b.
Proof.
  cbv zeta. split; [vm_compute; reflexivity|].
  split; [vm_compute; reflexivity|]. split; [vm_compute; reflexivity|].
  split; [vm_compute; reflexivity|].
  refine (proj1 (proj2 (in_check_answers_are_sound _ White (named "e1")
                          (named "e4") Pawn _ _ _ _)));
    vm_compute; reflexivity.
Defined.

Lemma in_check_without_king_raises_witness :
  let b :=
    set_piece_color (Some White)
      (put_image (named "e1") Blank initial_board) in
  piece_color b = Some White /\ find_king b (Img White King) = None /\
  on_board (named "a8") = true /\
  in_pieces (opposite White) (squares b (named "a8")) = true /\
  exists b', in_check b = Raised b' /\ game b' = game b.
Proof.
  cbv zeta. split; [reflexivity|]. split; [vm_compute; reflexivity|].
  split; [reflexivity|]. split; [vm_compute; reflexivity|].
  refine (in_check_without_king_raises _ White (named "a8") _ _ _ _);
    vm_compute; reflexivity.
Defined.

Lemma set_pieces_resets_every_square_witness :
  on_board (named "e4") = true /\
  forall sqs, set_pieces sqs (named "e4") = squares initial_board (named "e4").
Proof.
  split; [reflexivity|]. intros sqs.
  exact (set_pieces_resets_every_square sqs (named "e4") eq_refl).
Defined.

Lemma set_squares_paints_by_parity_witness :
  on_board (named "a1") = true /\
  forall bg, set_squares (named "a1")
             <> change_theme theme_wood bg (named "a1").
Proof.
  split; [reflexivity|]. intros bg.
  exact (proj2 (proj2 (set_squares_paints_by_parity bg (named "a1")
                         eq_refl))).
Defined.

Lemma clear_highlights_repaints_in_wood_witness :
  let b := run (clicks ["e2"]) initial_board in
  on_board (named "e3") = true /\ In (named "e3") (highlighted_squares b) /\
  forall bg,
    clear_highlights_bg b bg (named "e3")
    = change_theme theme_wood bg (named "e3") /\
    clear_highlights_bg b bg (named "e3") <> set_squares (named "e3").
Proof.
  cbv zeta.
  assert (Hin : In (named "e3")
                  (highlighted_squares (run (clicks ["e2"]) initial_board)))
    by (vm_compute; left; reflexivity).
  split; [reflexivity|]. split; [exact Hin|]. intros bg.
  exact (proj1 (clear_highlights_repaints_in_wood
                  (run (clicks ["e2"]) initial_board) bg (named "e3")
                  eq_refl) Hin).
Defined.

Lemma select_then_cancel_witness :
  let b1 := state_of (select_piece (named "e2") initial_board) in
  buttons_pressed initial_board = 0 /\
  select_piece (named "e2") initial_board = Done tt b1 /\
  buttons_pressed b1 = 1 /\
  exists b2,
    select_piece (named "e2") b1 = Done tt b2 /\
    buttons_pressed b2 = 0 /\ position b2 = position initial_board /\
    highlighted_squares b2 = [] /\
    piece_color b2 = Some (side_to_move initial_board).
Proof.
  cbv zeta.
  assert (Hs : select_piece (named "e2") initial_board
               = Done tt (state_of (select_piece (named "e2") initial_board)))
    by (vm_compute; reflexivity).
  assert (Hb : buttons_pressed
                 (state_of (select_piece (named "e2") initial_board)) = 1)
    by (vm_compute; reflexivity).
  split; [reflexivity|]. split; [exact Hs|]. split; [exact Hb|].
  exact (select_then_cancel (named "e2") initial_board _ eq_refl Hs Hb).
Defined.

Lemma random_mover_chooses_among_candidates_witness :
  let b := initial_board in
  let r := ai_sources (in_pieces (side_to_move b)) all_squares [] b in
  r = Done (candidates b) (state_of r) /\
  forall pick from to,
    nth_error (candidates b) (Nat.modulo pick (List.length (candidates b)))
    = Some (from, to) ->
    random_ai_move pick b =
      select_piece to
        (set_sq2_button (Some to)
           (set_sq1_button (Some from)
              (set_sq2 (Some to) (set_sq1 (Some from) (state_of r))))).
Proof.
  cbv zeta.
  assert (Hr : ai_sources (in_pieces (side_to_move initial_board))
                 all_squares [] initial_board
               = Done (candidates initial_board)
                   (state_of
                      (ai_sources (in_pieces (side_to_move initial_board))
                         all_squares [] initial_board)))
    by (vm_compute; reflexivity).
  split; [exact Hr|]. intros pick.
  exact (proj2 (proj2 (proj2 (random_mover_chooses_among_candidates pick
                                initial_board _ _ Hr)))).
Defined.

Lemma promotion_dialog_follows_recorded_color_witness :
  let b := run before_promotion initial_board in
  let b' := state_of (select_piece (named "b8") b) in
  coherent b /\ select_piece (named "b8") b = Done tt b' /\
  turns b' = turns b + 1 /\
  exists from,
    sq1 b = Some from /\
    promos b' =
      if (image_eqb (squares b from) (Img White Pawn)
          && (rank (named "b8") =? 8)%Z)
         || (image_eqb (squares b from) (Img Black Pawn)
             && (rank (named "b8") =? 1)%Z)
      then (promos b ++ [piece_color b])%list else promos b.
Proof.
  cbv zeta.
  assert (Hc : coherent (run before_promotion initial_board))
    by (vm_compute; reflexivity).
  assert (Hs : select_piece (named "b8") (run before_promotion initial_board)
               = Done tt (state_of (select_piece (named "b8")
                                      (run before_promotion initial_board))))
    by (vm_compute; reflexivity).
  assert (Ht : turns (state_of (select_piece (named "b8")
                                  (run before_promotion initial_board)))
               = turns (run before_promotion initial_board) + 1)
    by (vm_compute; reflexivity).
  split; [exact Hc|]. split; [exact Hs|]. split; [exact Ht|].
  exact (promotion_dialog_follows_recorded_color _ _ _ Hc Hs Ht).
Defined.

Lemma first_click_raises_with_the_engine_witness :
  buttons_pressed initial_board = 0 /\
  in_pieces (side_to_move initial_board)
    (squares initial_board (named "c1")) = true /\
  ((exists b', select_piece (named "c1") initial_board = Raised b') <->
   exists t, on_board t = true /\
             isPseudoLegal (squares initial_board) (named "c1") t = Raise).
Proof.
  split; [reflexivity|]. split; [reflexivity|].
  exact (proj1 (first_click_raises_with_the_engine (named "c1")
                  initial_board eq_refl eq_refl)).
Defined.

Lemma second_click_exception_effects_witness :
  let b := run (bishop_on_b2 ++ clicks ["g3"]) initial_board in
  let b' := state_of (select_piece (named "g4") b) in
  coherent b /\ buttons_pressed b = 1 /\ sq1 b = Some (named "g3") /\
  select_piece (named "g4") b = Raised b' /\
  turns b' = turns b /\ move_history b' = move_history b /\
  castling_rights b' = castling_rights b /\ buttons_pressed b' = 1.
Proof.
  cbv zeta.
  assert (Hc : coherent
                 (run (bishop_on_b2 ++ clicks ["g3"]) initial_board))
    by (vm_compute; reflexivity).
  assert (Hb : buttons_pressed
                 (run (bishop_on_b2 ++ clicks ["g3"]) initial_board) = 1)
    by (vm_compute; reflexivity).
  assert (H1 : sq1 (run (bishop_on_b2 ++ clicks ["g3"]) initial_board)
               = Some (named "g3"))
    by (vm_compute; reflexivity).
  assert (Hs : select_piece (named "g4")
                 (run (bishop_on_b2 ++ clicks ["g3"]) initial_board)
               = Raised
                   (state_of
                      (select_piece (named "g4")
                         (run (bishop_on_b2 ++ clicks ["g3"])
                            initial_board))))
    by (vm_compute; reflexivity).
  split; [exact Hc|]. split; [exact Hb|]. split; [exact H1|].
  split; [exact Hs|].
  destruct (second_click_exception_effects _ _ _ _ Hc Hb H1 Hs)
    as (Ht & Hm & Hcr & Hbp & _).
  split; [exact Ht|]. split; [exact Hm|]. split; [exact Hcr | exact Hbp].
Defined.

Lemma commit_with_color_keeps_king_safe_witness :
  let b := run (check_on_black ++ clicks ["g7"]) initial_board in
  let b' := state_of (select_piece (named "g6") b) in
  coherent b /\ castled b = false /\ buttons_pressed b = 1 /\
  piece_color b = Some Black /\ sq1 b = Some (named "g7") /\
  in_pieces Black (squares b (named "g7")) = true /\
  select_piece (named "g6") b = Done tt b' /\ turns b' = turns b + 1 /\
  ~ attacked (squares b') Black.
Proof.
  cbv zeta.
  assert (Hc : coherent (run (check_on_black ++ clicks ["g7"]) initial_board))
    by (vm_compute; reflexivity).
  assert (Hca : castled (run (check_on_black ++ clicks ["g7"]) initial_board)
                = false)
    by (vm_compute; reflexivity).
  assert (Hb : buttons_pressed
                 (run (check_on_black ++ clicks ["g7"]) initial_board) = 1)
    by (vm_compute; reflexivity).
  assert (Hpc : piece_color
                  (run (check_on_black ++ clicks ["g7"]) initial_board)
                = Some Black)
    by (vm_compute; reflexivity).
  assert (H1 : sq1 (run (check_on_black ++ clicks ["g7"]) initial_board)
               = Some (named "g7"))
    by (vm_compute; reflexivity).
  assert (Hown : in_pieces Black
                   (squares
                      (run (check_on_black ++ clicks ["g7"]) initial_board)
                      (named "g7")) = true)
    by (vm_compute; reflexivity).
  assert (Hs : select_piece (named "g6")
                 (run (check_on_black ++ clicks ["g7"]) initial_board)
               = Done tt
                   (state_of
                      (select_piece (named "g6")
                         (run (check_on_black ++ clicks ["g7"])
                            initial_board))))
    by (vm_compute; reflexivity).
  assert (Ht : turns
                 (state_of
                    (select_piece (named "g6")
                       (run (check_on_black ++ clicks ["g7"])
                          initial_board)))
               = turns (run (check_on_black ++ clicks ["g7"]) initial_board)
                 + 1)
    by (vm_compute; reflexivity).
  split; [exact Hc|]. split; [exact Hca|]. split; [exact Hb|].
  split; [exact Hpc|]. split; [exact H1|]. split; [exact Hown|].
  split; [exact Hs|]. split; [exact Ht|].
  exact (commit_with_color_keeps_king_safe _ _ _ _ _
           Hc Hca Hb Hpc H1 Hown Hs Ht).
Defined.
